(** * stream_load: a shallow embedding of [load/stream_load.py]

    The development follows the Python module function by function:
    [send_streaming_request], [worker], [percentile], [compute_metrics],
    [print_summary], [write_json_output] and [load_prompts].

    Conventions of the embedding.
    - Python [int] is [Z].  Python [float] is modelled by the exact rationals
      [Q]: every arithmetic operation is the exact one, so the rounding error
      of binary64 arithmetic is outside the model, and equality of floats is
      [Qeq] (written [==]).
    - Python [str] is [string]; [str(n)] for an [int] is stdpp's [pretty].
      White space is the ASCII one: [Py.strip] is [str.strip] on a text with
      no other white space at its ends, and a statement that depends on what
      is stripped says so.
    - A Python [dict] with string keys is a [gmap string _].
    - An expression that may raise is a value of [res], an error monad whose
      failure carries the exception.
    - [time.time()] reads a clock [nat -> Q] at a tick counter that is threaded
      through the code; nothing is assumed about the readings.
    - [json.loads] and the HTTP transport are library code: the parser is a
      parameter, and a response is given by its status code and the lines
      (or the transport failure) its body iterator produces.
    - [print] appends a line to the list of lines printed; the file system is
      a map from paths to contents, and the formatting of floats and
      [json.dump] are parameters. *)

From Stdlib Require Import QArith Qround Lqa.
From stdpp Require Import base list gmap strings pretty sorting.

Local Open Scope Z_scope.
Set Warnings "-register-all".

(** ** Exceptions and the error monad *)

Inductive py_exn : Type :=
  | JSONDecodeError (msg : string)
  | IndexError (msg : string)
  | KeyError (msg : string)
  | AttributeError (msg : string)
  | TypeError (msg : string)
  | ConnectionError (msg : string)
  | ConnectTimeout (msg : string)
  | ChunkedEncodingError (msg : string)
  | ReadTimeout (msg : string)
  | OtherException (msg : string).

(** [str(e)] *)
Definition str_exn (e : py_exn) : string :=
  match e with
  | JSONDecodeError m | IndexError m | KeyError m | AttributeError m | TypeError m
  | ConnectionError m | ConnectTimeout m | ChunkedEncodingError m
  | ReadTimeout m | OtherException m => m
  end.

Inductive res (A : Type) : Type :=
  | Ok (a : A)
  | Raise (e : py_exn).
Arguments Ok {A} a.
Arguments Raise {A} e.

Global Instance res_ret : MRet res := fun A a => Ok a.
Global Instance res_bind : MBind res := fun A B k m =>
  match m with
  | Ok a => k a
  | Raise e => Raise e
  end.

(** ** Python built-ins used by the module *)

Module Py.

Definition len {A} (l : list A) : Z := Z.of_nat (length l).

(** [l[i]] on a list: negative indices count from the end, anything else out
    of range raises [IndexError]. *)
Definition getitem {A} (l : list A) (i : Z) : res A :=
  let j := if i <? 0 then i + len l else i in
  if (j <? 0) || (len l <=? j) then Raise (IndexError "list index out of range")
  else match l !! Z.to_nat j with
       | Some x => Ok x
       | None => Raise (IndexError "list index out of range")
       end.

(** [int(x)] on a float: truncation toward zero. *)
Definition int (x : Q) : Z := Z.quot (Qnum x) (Z.pos (Qden x)).

(** [str(n)] on an int. *)
Definition str (n : Z) : string := pretty n.

(** Nearest integer, ties to the even one. *)
Definition round_half_even (y : Q) : Z :=
  let f := Qfloor y in
  match (y - inject_Z f ?= 1 # 2)%Q with
  | Lt => f
  | Gt => f + 1
  | Eq => if Z.even f then f else f + 1
  end.

(** [round(x, ndigits)].  The code rounds a binary64 value; when the exact
    value is a decimal tie (1/160 at 4 digits, 3/20 at 1 digit) the binary64
    value lies on one side of it and the last digit the code reports can
    differ by one unit from the one computed here.  What is proved of a
    rounded field below holds whichever way such a tie goes. *)
Definition round (x : Q) (ndigits : nat) : Q :=
  (inject_Z (round_half_even (x * inject_Z (10 ^ Z.of_nat ndigits)))
   / inject_Z (10 ^ Z.of_nat ndigits))%Q.

(** [s.startswith(prefix)] *)
Definition startswith (s pre : string) : bool := String.prefix pre s.

(** [s[n:]] on a string, for [n >= 0]. *)
Fixpoint drop (n : nat) (s : string) : string :=
  match n, s with
  | O, _ => s
  | S n', String _ s' => drop n' s'
  | S _, EmptyString => EmptyString
  end.

(** The characters [str.strip()] removes, restricted to ASCII: the white
    space characters above U+007F, such as U+0085 and U+00A0, are not
    among them. *)
Definition isspace (a : Ascii.ascii) : bool :=
  let n := Ascii.nat_of_ascii a in
  ((9 <=? n) && (n <=? 13) || (28 <=? n) && (n <=? 32))%nat.

Fixpoint lstrip_list (l : list Ascii.ascii) : list Ascii.ascii :=
  match l with
  | a :: l' => if isspace a then lstrip_list l' else l
  | [] => []
  end.

(** [s.strip()] *)
Definition strip (s : string) : string :=
  String.string_of_list_ascii
    (rev (lstrip_list (rev (lstrip_list (String.list_ascii_of_string s))))).

(** [sum(l)] on ints. *)
Definition sum (l : list Z) : Z := foldl Z.add 0 l.

Global Instance Qle_decision (x y : Q) : Decision (x <= y)%Q :=
  match Qlt_le_dec y x with
  | left H => right (Qlt_not_le _ _ H)
  | right H => left H
  end.

Global Instance Qlt_decision (x y : Q) : Decision (x < y)%Q :=
  match Qlt_le_dec x y with
  | left H => left H
  | right H => right (Qle_not_lt _ _ H)
  end.

(** [sorted(l)] on floats. *)
Definition sorted (l : list Q) : list Q := merge_sort Qle l.

End Py.

(** ** Data structures *)

(** The values [json.loads] produces. *)
Inductive json : Type :=
  | JNull
  | JBool (b : bool)
  | JInt (n : Z)
  | JFloat (x : Q)
  | JStr (s : string)
  | JList (l : list json)
  | JDict (kvs : list (string * json)).

Record RequestResult : Type := mkRequestResult {
  request_id : Z;
  start_time : Q;
  ttft : Q;
  total_time : Q;
  tokens_received : Z;
  status_code : Z;
  error : string;
  stream_completed : bool;
  finish_reason : json;
}.

Definition set_ttft (r : RequestResult) (v : Q) : RequestResult :=
  mkRequestResult (request_id r) (start_time r) v (total_time r)
    (tokens_received r) (status_code r) (error r) (stream_completed r)
    (finish_reason r).
Definition set_total_time (r : RequestResult) (v : Q) : RequestResult :=
  mkRequestResult (request_id r) (start_time r) (ttft r) v
    (tokens_received r) (status_code r) (error r) (stream_completed r)
    (finish_reason r).
Definition set_tokens_received (r : RequestResult) (v : Z) : RequestResult :=
  mkRequestResult (request_id r) (start_time r) (ttft r) (total_time r)
    v (status_code r) (error r) (stream_completed r) (finish_reason r).
Definition set_status_code (r : RequestResult) (v : Z) : RequestResult :=
  mkRequestResult (request_id r) (start_time r) (ttft r) (total_time r)
    (tokens_received r) v (error r) (stream_completed r) (finish_reason r).
Definition set_error (r : RequestResult) (v : string) : RequestResult :=
  mkRequestResult (request_id r) (start_time r) (ttft r) (total_time r)
    (tokens_received r) (status_code r) v (stream_completed r)
    (finish_reason r).
Definition set_stream_completed (r : RequestResult) (v : bool) : RequestResult :=
  mkRequestResult (request_id r) (start_time r) (ttft r) (total_time r)
    (tokens_received r) (status_code r) (error r) v (finish_reason r).
Definition set_finish_reason (r : RequestResult) (v : json) : RequestResult :=
  mkRequestResult (request_id r) (start_time r) (ttft r) (total_time r)
    (tokens_received r) (status_code r) (error r) (stream_completed r) v.

(** ** Operations on JSON values *)

Module Json.

(** [type(v).__name__] *)
Definition type_name (v : json) : string :=
  match v with
  | JNull => "NoneType"
  | JBool _ => "bool"
  | JInt _ => "int"
  | JFloat _ => "float"
  | JStr _ => "str"
  | JList _ => "list"
  | JDict _ => "dict"
  end.

(** Truth value, as tested by [if v]. *)
Definition truthy (v : json) : bool :=
  match v with
  | JNull => false
  | JBool b => b
  | JInt n => negb (n =? 0)
  | JFloat x => negb (Qeq_bool x 0)
  | JStr s => negb (String.eqb s "")
  | JList l => match l with [] => false | _ => true end
  | JDict kvs => match kvs with [] => false | _ => true end
  end.

Fixpoint assoc (key : string) (kvs : list (string * json)) : option json :=
  match kvs with
  | [] => None
  | (k, v) :: kvs' => if String.eqb k key then Some v else assoc key kvs'
  end.

(** [v.get(key, default)]: only a dict has the method. *)
Definition get (v : json) (key : string) (default : json) : res json :=
  match v with
  | JDict kvs => Ok (match assoc key kvs with Some x => x | None => default end)
  | _ => Raise (AttributeError
                  ("'" +:+ type_name v +:+ "' object has no attribute 'get'"))
  end.

(** [v[0]] *)
Definition item0 (v : json) : res json :=
  match v with
  | JList l => Py.getitem l 0
  | JDict _ => Raise (KeyError "0")
  | JStr (String a _) => Ok (JStr (String a EmptyString))
  | JStr EmptyString => Raise (IndexError "string index out of range")
  | _ => Raise (TypeError ("'" +:+ type_name v +:+ "' object is not subscriptable"))
  end.

End Json.

(** ** [percentile] *)

Definition percentile (sorted_values : list Q) (p : Q) : res Q :=
  match sorted_values with
  | [] => Ok 0%Q
  | _ =>
    let k := (inject_Z (Py.len sorted_values - 1) * (p / 100))%Q in
    let f := Py.int k in
    let c := Z.min (f + 1) (Py.len sorted_values - 1) in
    let d := (k - inject_Z f)%Q in
    lo ← Py.getitem sorted_values f;
    hi ← Py.getitem sorted_values c;
    lo' ← Py.getitem sorted_values f;
    Ok (lo + d * (hi - lo'))%Q
  end.

(** ** The HTTP transport and the clock *)

(** The JSON body of the POST. *)
Record payload : Type := mkPayload {
  p_model : string;
  p_prompt : string;
  p_max_tokens : Z;
  p_stream : bool;
}.

(** A response: its status code and what [iter_lines(decode_unicode=True)]
    yields, namely the lines of the body as text, ended either by the end of
    the stream or by an exception.  The lines are text when the response has
    an encoding ([resp.encoding] is not [None]).  When it has none the
    iterator yields [bytes], and [line.startswith] at line 108 raises
    [TypeError] on the first line that is not empty; the handler of line 136
    takes it like an exception of the iterator, so that such a run is the one
    of a body without lines that ends with this exception.  What is said
    below about the lines of a body is said about text lines. *)
Record response : Type := mkResponse {
  resp_status_code : Z;
  resp_lines : list string;
  resp_failure : option py_exn;
}.

(** [session.post(endpoint, json=payload, stream=True, timeout=120)] *)
Definition session : Type := string -> payload -> res response.

(** [time.time()]: read the clock and advance the tick counter. *)
Definition time_time (clock : nat -> Q) (tick : nat) : Q * nat :=
  (clock tick, S tick).

(** ** [send_streaming_request] *)

Section SendStreamingRequest.

(** [json.loads]: the value parsed, or the exception raised, which is
    [json.JSONDecodeError] on a text that is not JSON. *)
Variable json_loads : string -> res json.
Variable clock : nat -> Q.

(** The state of the reading loop: the result under construction, the local
    [first_token_time] and the tick counter of the clock. *)
Record loop_state : Type := mkLoop {
  ls_result : RequestResult;
  ls_first_token_time : option Q;
  ls_tick : nat;
}.

(** Lines 115-118: the part of the [try] body that can raise. *)
Definition extract (data_str : string) : res (json * json) :=
  data ← json_loads data_str;
  choices ← Json.get data "choices" (JList [JDict []]);
  text ← (if Json.truthy choices
          then c0 ← Json.item0 choices; Json.get c0 "text" (JStr "")
          else Ok (JStr ""));
  finish ← (if Json.truthy choices
            then c0 ← Json.item0 choices; Json.get c0 "finish_reason" JNull
            else Ok JNull);
  Ok (text, finish).

(** Lines 119-123. *)
Definition count_token (text : json) (st : loop_state) : loop_state :=
  if Json.truthy text then
    let result := set_tokens_received (ls_result st)
                    (tokens_received (ls_result st) + 1) in
    match ls_first_token_time st with
    | None =>
      let '(now, tick) := time_time clock (ls_tick st) in
      mkLoop (set_ttft result (now - start_time result)%Q) (Some now) tick
    | Some _ => mkLoop result (ls_first_token_time st) (ls_tick st)
    end
  else st.

(** Lines 124-126. *)
Definition record_finish (finish : json) (st : loop_state) : loop_state :=
  match finish with
  | JNull => st
  | _ =>
    mkLoop (set_stream_completed (set_finish_reason (ls_result st) finish) true)
           (ls_first_token_time st) (ls_tick st)
  end.

(** The exceptions of the inner [except] clause, line 127. *)
Definition caught_inner (e : py_exn) : bool :=
  match e with
  | JSONDecodeError _ | IndexError _ | KeyError _ => true
  | _ => false
  end.

(** Lines 114-128: one payload.  An exception that is not caught leaves the
    loop; the state it leaves behind is the one before the payload, since
    [extract] assigns nothing to [result]. *)
Definition handle_payload (data_str : string) (st : loop_state)
  : loop_state * option py_exn :=
  match extract data_str with
  | Ok (text, finish) => (record_finish finish (count_token text st), None)
  | Raise e => (st, if caught_inner e then None else Some e)
  end.

(** Lines 107-128: the [for] loop over the lines the iterator yields. *)
Fixpoint read_lines (lines : list string) (failure : option py_exn)
    (st : loop_state) : loop_state * option py_exn :=
  match lines with
  | [] => (st, failure)
  | line :: rest =>
    if String.eqb line "" || negb (Py.startswith line "data: ")
    then read_lines rest failure st
    else
      let data_str := Py.drop 6 line in
      if String.eqb (Py.strip data_str) "[DONE]"
      then (mkLoop (set_stream_completed (ls_result st) true)
                   (ls_first_token_time st) (ls_tick st), None)
      else
        match handle_payload data_str st with
        | (st', None) => read_lines rest failure st'
        | (st', Some e) => (st', Some e)
        end
  end.

(** Lines 130-137: the outer [except] clauses, tried in order.  A
    [ConnectTimeout] is both a [ConnectionError] and a [Timeout], and the
    first clause takes it. *)
Definition error_of_exn (e : py_exn) : string :=
  match e with
  | ConnectionError _ | ConnectTimeout _ => "connection_reset"
  | ChunkedEncodingError _ => "stream_interrupted"
  | ReadTimeout _ => "timeout"
  | _ => str_exn e
  end.

(** Lines 139-140, also lines 103-104: stamp [total_time] and return. *)
Definition finish_request (result : RequestResult) (tick : nat)
  : RequestResult * nat :=
  let '(now, tick) := time_time clock tick in
  (set_total_time result (now - start_time result)%Q, tick).

Definition send_streaming_request (sess : session) (url model prompt : string)
    (max_tokens request_id : Z) (tick : nat) : RequestResult * nat :=
  let endpoint := url +:+ "/v1/completions" in
  let payload := mkPayload model prompt max_tokens true in
  let '(now, tick) := time_time clock tick in
  let result := mkRequestResult request_id now 0 0 0 0 "" false (JStr "") in
  match sess endpoint payload with
  | Raise e => finish_request (set_error result (error_of_exn e)) tick
  | Ok resp =>
    let result := set_status_code result (resp_status_code resp) in
    if negb (resp_status_code resp =? 200) then
      let result :=
        set_error result ("HTTP " +:+ Py.str (resp_status_code resp)) in
      finish_request result tick
    else
      let '(st, raised) :=
        read_lines (resp_lines resp) (resp_failure resp)
                   (mkLoop result None tick) in
      match raised with
      | Some e =>
        finish_request (set_error (ls_result st) (error_of_exn e)) (ls_tick st)
      | None => finish_request (ls_result st) (ls_tick st)
      end
  end.

End SendStreamingRequest.

(** ** [compute_metrics] *)

Record metrics : Type := mkMetrics {
  total_requests : Z;
  successful : Z;
  failed : Z;
  error_rate : Q;
  status_code_counts : gmap string Z;
  ttft_p50 : Q;
  ttft_p95 : Q;
  tokens_per_sec : Q;
  stream_completion_rate : Q;
  duration_actual : Q;
}.

(** Lines 200-203: one more occurrence of the status code of [r]. *)
Definition count_status (status_counts : gmap string Z) (r : RequestResult)
  : gmap string Z :=
  let key := Py.str (status_code r) in
  <[key := default 0 (status_counts !! key) + 1]> status_counts.

Definition compute_metrics (results : list RequestResult)
    (start_time end_time : Q) : res metrics :=
  let total := Py.len results in
  if total =? 0 then
    Ok (mkMetrics 0 0 0 0 ∅ 0 0 0 0 (end_time - start_time)%Q)
  else
    let successful :=
      Py.sum (map (fun _ => 1) (filter (fun r => error r = "") results)) in
    let failed := total - successful in
    let error_rate :=
      if 0 <? total then (inject_Z failed / inject_Z total)%Q else 0%Q in
    let status_counts := foldl count_status ∅ results in
    let ttft_values :=
      Py.sorted (filter (fun x => (0 < x)%Q) (map ttft results)) in
    let total_tokens := Py.sum (map tokens_received results) in
    let duration := (end_time - start_time)%Q in
    let tokens_per_sec :=
      if decide (0 < duration)%Q then (inject_Z total_tokens / duration)%Q
      else 0%Q in
    let completed_streams :=
      Py.sum (map (fun _ => 1)
                  (filter (fun r => stream_completed r = true) results)) in
    let stream_completion_rate :=
      if 0 <? total then (inject_Z completed_streams / inject_Z total)%Q
      else 0%Q in
    p50 ← percentile ttft_values 50;
    p95 ← percentile ttft_values 95;
    Ok (mkMetrics total successful failed (Py.round error_rate 4)
          status_counts (Py.round p50 4) (Py.round p95 4)
          (Py.round tokens_per_sec 1) (Py.round stream_completion_rate 4)
          (Py.round duration 1)).

(** ** [worker] and the pool of threads

    A thread is a program counter into the body of [worker] together with its
    locals.  The threads share the stop event, the request counter, the
    result list and the two locks.  A scheduler picks which thread performs
    its next step; a thread waiting for a lock that is taken does not move.
    What a thread cannot determine by itself, that is the prompt
    [random.choice] picks, the behaviour of the server and the clock, comes
    with the scheduler's action. *)

Inductive pc : Type :=
  | AtLoopTest                                         (* line 157 *)
  | AtChoosePrompt                                     (* line 158 *)
  | AtAcquireCounter (prompt : string)                 (* line 159 *)
  | AtReadCounter (prompt : string)                    (* line 160 *)
  | AtLoadCounter (prompt : string) (req_id : Z)       (* line 161, read *)
  | AtStoreCounter (prompt : string) (req_id tmp : Z)  (* line 161, write *)
  | AtReleaseCounter (prompt : string) (req_id : Z)    (* end of the [with] *)
  | AtSend (prompt : string) (req_id : Z)              (* line 162 *)
  | AtAcquireResults (result : RequestResult)          (* line 163 *)
  | AtAppend (result : RequestResult)                  (* line 164 *)
  | AtReleaseResults                                   (* end of the [with] *)
  | AtClose                                            (* line 165 *)
  | Returned
  | Failed (e : py_exn).

Record pool : Type := mkPool {
  stop_event : bool;
  request_counter : Z;              (* request_counter[0] *)
  counter_lock : option nat;        (* the thread holding the lock, if any *)
  results : list RequestResult;
  results_lock : option nat;
  threads : list pc;
}.

Record env : Type := mkEnv {
  env_choice : nat;
  env_session : session;
  env_clock : nat -> Q;
  env_tick : nat;
}.

Inductive action : Type :=
  | RunThread (i : nat) (e : env)
  | SetStop.                        (* main: [stop_event.set()], line 369 *)

Section Worker.

Variable json_loads : string -> res json.
Variables url model : string.
Variable prompts : list string.
Variable max_tokens : Z.

Definition set_thread (s : pool) (i : nat) (c : pc) : pool :=
  mkPool (stop_event s) (request_counter s) (counter_lock s) (results s)
         (results_lock s) (<[i := c]> (threads s)).

(** [random.choice(prompts)], with the random index given. *)
Definition random_choice (choice : nat) : res string :=
  match prompts !! (choice `mod` length prompts)%nat with
  | Some prompt => Ok prompt
  | None => Raise (IndexError "Cannot choose from an empty sequence")
  end.

(** One step of thread [i], which is at [c].  The second component is the
    request id the step assigns, if it is the read of line 160. *)
Definition worker_step (i : nat) (e : env) (c : pc) (s : pool)
  : pool * option Z :=
  match c with
  | AtLoopTest =>
    (set_thread s i (if stop_event s then AtClose else AtChoosePrompt), None)
  | AtChoosePrompt =>
    match random_choice (env_choice e) with
    | Ok prompt => (set_thread s i (AtAcquireCounter prompt), None)
    | Raise ex => (set_thread s i (Failed ex), None)
    end
  | AtAcquireCounter prompt =>
    match counter_lock s with
    | None =>
      (mkPool (stop_event s) (request_counter s) (Some i) (results s)
              (results_lock s) (<[i := AtReadCounter prompt]> (threads s)),
       None)
    | Some _ => (s, None)
    end
  | AtReadCounter prompt =>
    let req_id := request_counter s in
    (set_thread s i (AtLoadCounter prompt req_id), Some req_id)
  | AtLoadCounter prompt req_id =>
    (set_thread s i (AtStoreCounter prompt req_id (request_counter s)), None)
  | AtStoreCounter prompt req_id tmp =>
    (mkPool (stop_event s) (tmp + 1) (counter_lock s) (results s)
            (results_lock s) (<[i := AtReleaseCounter prompt req_id]> (threads s)),
     None)
  | AtReleaseCounter prompt req_id =>
    (mkPool (stop_event s) (request_counter s) None (results s)
            (results_lock s) (<[i := AtSend prompt req_id]> (threads s)),
     None)
  | AtSend prompt req_id =>
    let result :=
      fst (send_streaming_request json_loads (env_clock e) (env_session e)
             url model prompt max_tokens req_id (env_tick e)) in
    (set_thread s i (AtAcquireResults result), None)
  | AtAcquireResults result =>
    match results_lock s with
    | None =>
      (mkPool (stop_event s) (request_counter s) (counter_lock s) (results s)
              (Some i) (<[i := AtAppend result]> (threads s)),
       None)
    | Some _ => (s, None)
    end
  | AtAppend result =>
    (mkPool (stop_event s) (request_counter s) (counter_lock s)
            (results s ++ [result]) (results_lock s)
            (<[i := AtReleaseResults]> (threads s)),
     None)
  | AtReleaseResults =>
    (mkPool (stop_event s) (request_counter s) (counter_lock s) (results s)
            None (<[i := AtLoopTest]> (threads s)),
     None)
  | AtClose => (set_thread s i Returned, None)
  | Returned | Failed _ => (s, None)
  end.

Definition step (a : action) (s : pool) : pool * option Z :=
  match a with
  | RunThread i e =>
    match threads s !! i with
    | Some c => worker_step i e c s
    | None => (s, None)
    end
  | SetStop =>
    (mkPool true (request_counter s) (counter_lock s) (results s)
            (results_lock s) (threads s), None)
  end.

(** A run under a schedule, from a state and the ids assigned so far, in
    the order of assignment. *)
Definition run_step (st : pool * list Z) (a : action) : pool * list Z :=
  let '(s', assigned) := step a (fst st) in
  (s', snd st ++ option_list assigned).

Definition run (sched : list action) (st : pool * list Z) : pool * list Z :=
  foldl run_step st sched.

(** Lines 341-345 and 349-365: [n] threads at the top of [worker]. *)
Definition init (n : nat) : pool * list Z :=
  (mkPool false 0 None [] None (replicate n AtLoopTest), []).

(** Every thread has left [worker]: all the futures are done. *)
Definition joined (s : pool) : bool :=
  forallb (fun c => match c with Returned | Failed _ => true | _ => false end)
          (threads s).

End Worker.

(** ** Constants *)

Definition DEFAULT_PROMPTS : list string :=
  [ "Explain the concept of zero-downtime deployment in three sentences.";
    "Write a short Python function that reverses a string.";
    "What is the difference between blue-green and canary deployments?";
    "Summarize the benefits of container orchestration.";
    "Describe how a load balancer distributes traffic." ].

(** The escape character, code 27, written [\033] in the source. *)
Definition ESC : string := String (Ascii.ascii_of_nat 27) EmptyString.

Definition GREEN : string := ESC +:+ "[0;32m".
Definition RED : string := ESC +:+ "[0;31m".
Definition YELLOW : string := ESC +:+ "[1;33m".
Definition CYAN : string := ESC +:+ "[0;36m".
Definition NC : string := ESC +:+ "[0m".

(** ** [load_prompts]

    [open_lines] stands for opening a file for reading and iterating over
    it: the lines of the file, each with its line end, or the exception
    [open] raises.  The second component of the result is what the function
    prints. *)

Definition load_prompts (open_lines : string -> res (list string))
    (prompts_file : string) : res (list string) * list string :=
  if negb (String.eqb prompts_file "") then
    match open_lines prompts_file with
    | Raise e => (Raise e, [])
    | Ok lines =>
      let prompts :=
        map Py.strip (filter (fun line => Py.strip line <> "") lines) in
      match prompts with
      | _ :: _ => (Ok prompts, [])
      | [] =>
        (Ok DEFAULT_PROMPTS,
         [YELLOW +:+ "[WARN]" +:+ NC +:+ " Prompts file empty, using defaults."])
      end
    end
  else (Ok DEFAULT_PROMPTS, []).

(** ** [write_json_output]

    The file system is a map from paths to file contents.  [json_dump] stands
    for the text [json.dump(output, f, indent=2)] writes.  Each of the three
    system calls can raise: [open] before the temporary file exists,
    [json.dump] (or the flush when the [with] block closes the file) after
    some prefix of the text has reached the file, and [os.replace], which
    changes nothing when it fails. *)

Definition files : Type := gmap string string.

Record output : Type := mkOutput {
  out_metrics : metrics;
  out_requests : list json;
}.

Record io_faults : Type := mkFaults {
  open_fault : option py_exn;
  dump_fault : option (nat * py_exn);
  replace_fault : option py_exn;
}.

(** [dataclasses.asdict(r)] *)
Definition asdict (r : RequestResult) : json :=
  JDict [("request_id", JInt (request_id r));
         ("start_time", JFloat (start_time r));
         ("ttft", JFloat (ttft r));
         ("total_time", JFloat (total_time r));
         ("tokens_received", JInt (tokens_received r));
         ("status_code", JInt (status_code r));
         ("error", JStr (error r));
         ("stream_completed", JBool (stream_completed r));
         ("finish_reason", finish_reason r)].

Section WriteJsonOutput.

Variable json_dump : output -> string.

(** The result, the file system afterwards, and what was printed. *)
Definition write_json_output (faults : io_faults) (m : metrics)
    (results : list RequestResult) (path : string) (fs : files)
  : res unit * files * list string :=
  let output := mkOutput m (map asdict results) in
  let tmp_path := path +:+ ".tmp" in
  match open_fault faults with
  | Some e => (Raise e, fs, [])
  | None =>
    let fs := <[tmp_path := ""]> fs in
    match dump_fault faults with
    | Some (n, e) =>
      (Raise e, <[tmp_path := String.substring 0 n (json_dump output)]> fs, [])
    | None =>
      let fs := <[tmp_path := json_dump output]> fs in
      match replace_fault faults with
      | Some e => (Raise e, fs, [])
      | None =>
        (Ok tt, <[path := json_dump output]> (delete tmp_path fs),
         ["  Results written to: " +:+ path])
      end
    end
  end.

End WriteJsonOutput.

(** ** [print_summary]

    The result is the list of lines printed.  [repr_float] stands for the
    text an f-string gives a float, [format_1f] for the format [:.1f].
    [sorted] on the items of the dictionary compares the pairs as Python
    compares tuples: by the key, as strings, and then by the count; the keys
    of a dictionary being distinct, the order of the items before the sort
    plays no part. *)

Definition item_le (a b : string * Z) : Prop :=
  match String.compare (fst a) (fst b) with
  | Lt => True
  | Eq => snd a <= snd b
  | Gt => False
  end.

Global Instance item_le_decision (a b : string * Z) : Decision (item_le a b).
Proof.
  unfold item_le. destruct (String.compare (fst a) (fst b)).
  - apply Z_le_dec.
  - left. exact I.
  - right. intros [].
Defined.

Section PrintSummary.

Variable repr_float : Q -> string.
Variable format_1f : Q -> string.

Definition print_summary (m : metrics) : list string :=
  [ "";
    "============================================";
    "  Streaming Load Test Results";
    "============================================";
    "";
    "  Duration:              " +:+ repr_float (duration_actual m) +:+ "s";
    "  Total requests:        " +:+ Py.str (total_requests m);
    "  " +:+ GREEN +:+ "Successful" +:+ NC +:+ ":           "
      +:+ Py.str (successful m);
    "  " +:+ RED +:+ "Failed" +:+ NC +:+ ":               "
      +:+ Py.str (failed m);
    "  Error rate:            " +:+ format_1f (error_rate m * 100)%Q +:+ "%";
    "";
    "  Stream completion:     "
      +:+ format_1f (stream_completion_rate m * 100)%Q +:+ "%";
    "  Tokens/sec:            " +:+ repr_float (tokens_per_sec m);
    "  TTFT p50:              " +:+ format_1f (ttft_p50 m * 1000)%Q +:+ "ms";
    "  TTFT p95:              " +:+ format_1f (ttft_p95 m * 1000)%Q +:+ "ms";
    "" ]
  ++ (if decide (status_code_counts m = ∅) then []
      else
        "  Status codes:"
        :: map (fun '(code, count) => "    " +:+ code +:+ ": " +:+ Py.str count)
               (merge_sort item_le (map_to_list (status_code_counts m)))
        ++ [""])
  ++ (if decide (5 # 100 < error_rate m)%Q
      then ["  " +:+ RED +:+ "[WARN] Error rate exceeds 5% threshold" +:+ NC]
      else [])
  ++ (if decide (stream_completion_rate m < 90 # 100)%Q
      then ["  " +:+ RED +:+ "[WARN] Stream completion rate below 90%" +:+ NC]
      else [])
  ++ [ "============================================"; "" ].

End PrintSummary.

(** * Specification-level definitions *)

(** The rank of percentile [p] in a sample of [m] values (line 172). *)
Definition rank (m : Z) (p : Q) : Q := (inject_Z (m - 1) * (p / 100))%Q.

(** The interpolation of the specification, over mathematical indexing:
    rank [k = (M-1) * p/100], [f = floor k], [c = min (f+1) (M-1)],
    [d = k - f], value [seq[f] + d * (seq[c] - seq[f])], and 0 on the empty
    sequence. *)
Definition percentile_spec (seq : list Q) (p : Q) : Q :=
  match seq with
  | [] => 0%Q
  | _ =>
    let M := Z.of_nat (length seq) in
    let k := (inject_Z (M - 1) * p / 100)%Q in
    let f := Qfloor k in
    let c := Z.min (f + 1) (M - 1) in
    let d := (k - inject_Z f)%Q in
    (nth (Z.to_nat f) seq 0 +
     d * (nth (Z.to_nat c) seq 0 - nth (Z.to_nat f) seq 0))%Q
  end.

(** Scenario B of the specification: two successes with a time to first
    token of 0.10 and 0.20 and 5 and 8 tokens, and one timeout. *)
Definition scenario_b : list RequestResult :=
  [ mkRequestResult 0 0 (1 # 10) 1 5 200 "" true (JStr "stop");
    mkRequestResult 1 0 (2 # 10) 1 8 200 "" true (JStr "stop");
    mkRequestResult 2 0 0 1 0 0 "timeout" false (JStr "") ].

(** [sum(d.values())] *)
Definition values_sum (d : gmap string Z) : Z :=
  map_fold (fun _ v acc => v + acc) 0 d.

(** Whether a JSON value is an object, the only kind with a [get] method. *)
Definition is_object (v : json) : bool :=
  match v with
  | JDict _ => true
  | _ => false
  end.

(** The invariant of the reading loop: [first_token_time] is [None] exactly
    as long as no token has been counted, and [ttft] is then untouched. *)
Definition token_inv (st : loop_state) : Prop :=
  match ls_first_token_time st with
  | None => tokens_received (ls_result st) = 0 /\ ttft (ls_result st) = 0%Q
  | Some _ => 1 <= tokens_received (ls_result st)
  end.

(** The result as line 85 creates it. *)
Definition fresh_result (request_id : Z) (now : Q) : RequestResult :=
  mkRequestResult request_id now 0 0 0 0 "" false (JStr "").

(** The endpoint and the body of the POST, lines 78-84. *)
Definition endpoint_of (url : string) : string := url +:+ "/v1/completions".
Definition payload_of (model prompt : string) (max_tokens : Z) : payload :=
  mkPayload model prompt max_tokens true.

(** Sample data: a clock that reads its tick, a server event carrying one
    token, and the part of [json.loads] needed to read the sample events. *)
Definition tick_clock (t : nat) : Q := inject_Z (Z.of_nat t).

(** The one-character string holding the double quote, code 34. *)
Definition quote : string := String (Ascii.ascii_of_nat 34) EmptyString.

(** The text [{"choices": [{"text": "Hello"}]}]. *)
Definition token_text : string :=
  "{" +:+ quote +:+ "choices" +:+ quote +:+ ": [{" +:+ quote +:+ "text"
  +:+ quote +:+ ": " +:+ quote +:+ "Hello" +:+ quote +:+ "}]}".

Definition sample_loads (s : string) : res json :=
  if String.eqb s "null" then Ok JNull
  else if String.eqb s token_text
       then Ok (JDict [("choices", JList [JDict [("text", JStr "Hello")]])])
       else Raise (JSONDecodeError "Expecting value").

(** A server that answers every request with the given response. *)
Definition fixed_session (resp : response) : session := fun _ _ => Ok resp.

(** The program points inside the [with counter_lock:] block. *)
Definition in_counter_section (c : pc) : bool :=
  match c with
  | AtReadCounter _ | AtLoadCounter _ _ | AtStoreCounter _ _ _
  | AtReleaseCounter _ _ => true
  | _ => false
  end.

(** The request id a thread has drawn and not yet delivered to [results]. *)
Definition held_id (c : pc) : list Z :=
  match c with
  | AtLoadCounter _ req_id | AtStoreCounter _ req_id _
  | AtReleaseCounter _ req_id | AtSend _ req_id => [req_id]
  | AtAcquireResults result | AtAppend result => [request_id result]
  | _ => []
  end.

(** What a thread inside the counter section knows about the counter, when
    [n] ids have been assigned. *)
Definition counter_ok (n : Z) (s : pool) (c : pc) : Prop :=
  match c with
  | AtReadCounter _ => request_counter s = n
  | AtLoadCounter _ req_id => request_counter s = req_id /\ req_id + 1 = n
  | AtStoreCounter _ req_id tmp =>
    tmp = req_id /\ request_counter s = req_id /\ req_id + 1 = n
  | AtReleaseCounter _ req_id => request_counter s = n
  | _ => True
  end.

(** The invariant of the pool, for a state and the ids assigned so far. *)
Record pool_inv (s : pool) (ids : list Z) : Prop := mkPoolInv {
  inv_ids : ids = seqZ 0 (Py.len ids);
  inv_lock : forall i c, threads s !! i = Some c ->
    in_counter_section c = true -> counter_lock s = Some i;
  inv_free : counter_lock s = None -> request_counter s = Py.len ids;
  inv_counter : forall i c, threads s !! i = Some c ->
    counter_ok (Py.len ids) s c;
  inv_accounted :
    ids ≡ₚ map request_id (results s) ++ (threads s ≫= held_id);
}.

(** A schedule of [rounds] rounds in which the threads 0 and 1 take turns,
    the main thread setting the stop event after the first half. *)
Definition sample_env : env :=
  mkEnv 0 (fixed_session
             (mkResponse 200 ["data: " +:+ token_text; "data: [DONE]"] None))
        tick_clock 0.

Definition sample_schedule (rounds : nat) : list action :=
  mjoin (replicate rounds [RunThread 0 sample_env; RunThread 1 sample_env])
  ++ [SetStop]
  ++ mjoin (replicate rounds [RunThread 0 sample_env; RunThread 1 sample_env]).

(** The clock readings of one request: [t] is the tick of the reading taken
    when the loop starts.  Until the first token the loop has read nothing
    more; from then on it has read exactly once, and that reading gave
    [ttft]. *)
Definition timing_inv (clock : nat -> Q) (t : nat) (st : loop_state) : Prop :=
  match ls_first_token_time st with
  | None => ls_tick st = t /\ ttft (ls_result st) = 0%Q
  | Some now =>
    now = clock t /\ ls_tick st = S t /\
    ttft (ls_result st) = (clock t - start_time (ls_result st))%Q
  end.

(** The event lines of a body: those the loop does not skip at line 108. *)
Definition is_data_line (line : string) : bool :=
  negb (String.eqb line "" || negb (Py.startswith line "data: ")).

(** A line carrying the termination sentinel, line 111. *)
Definition is_done_line (line : string) : bool :=
  is_data_line line && String.eqb (Py.strip (Py.drop 6 line)) "[DONE]".

(** The program points inside the [with results_lock:] block. *)
Definition in_results_section (c : pc) : bool :=
  match c with
  | AtAppend _ | AtReleaseResults => true
  | _ => false
  end.

(** The threads that have passed the loop test and not yet drawn an id:
    each of them will draw one whatever happens to the stop event. *)
Definition will_draw (c : pc) : bool :=
  match c with
  | AtChoosePrompt | AtAcquireCounter _ | AtReadCounter _ => true
  | _ => false
  end.

(** What the two locks say about the threads, in both directions. *)
Record locks_inv (s : pool) : Prop := mkLocksInv {
  li_counter_holder : forall i, counter_lock s = Some i ->
    exists c, threads s !! i = Some c /\ in_counter_section c = true;
  li_results_section : forall i c, threads s !! i = Some c ->
    in_results_section c = true -> results_lock s = Some i;
  li_results_holder : forall i, results_lock s = Some i ->
    exists c, threads s !! i = Some c /\ in_results_section c = true;
}.

(** The two warnings of [print_summary] and the line of one status code. *)
Definition error_rate_warning : string :=
  "  " +:+ RED +:+ "[WARN] Error rate exceeds 5% threshold" +:+ NC.

Definition completion_warning : string :=
  "  " +:+ RED +:+ "[WARN] Stream completion rate below 90%" +:+ NC.

Definition status_line (code : Z) (count : Z) : string :=
  "    " +:+ Py.str code +:+ ": " +:+ Py.str count.

(** * Properties *)

(** ** Built-ins *)

Lemma getitem_in_range {A} (l : list A) (i : Z) (d : A) :
  0 <= i < Py.len l -> Py.getitem l i = Ok (nth (Z.to_nat i) l d).
Proof.
  intros [Hlo Hhi]. unfold Py.getitem, Py.len in *.
  destruct (i <? 0) eqn:Hneg; [apply Z.ltb_lt in Hneg; lia|].
  rewrite Hneg. simpl.
  destruct (Z.of_nat (length l) <=? i) eqn:Hge; [apply Z.leb_le in Hge; lia|].
  destruct (l !! Z.to_nat i) as [x|] eqn:Hx.
  - f_equal. symmetry. apply nth_lookup_Some with (d := d) in Hx. exact Hx.
  - apply lookup_ge_None in Hx. lia.
Qed.

Lemma getitem_too_large {A} (l : list A) (i : Z) :
  Py.len l <= i -> Py.getitem l i = Raise (IndexError "list index out of range").
Proof.
  intros Hge. unfold Py.getitem, Py.len in *.
  destruct (i <? 0) eqn:Hneg; [apply Z.ltb_lt in Hneg; lia|].
  replace (Z.of_nat (length l) <=? i) with true by (symmetry; apply Z.leb_le; lia).
  now rewrite orb_true_r.
Qed.

Lemma int_floor (x : Q) : (0 <= x)%Q -> Py.int x = Qfloor x.
Proof.
  destruct x as [n d]. unfold Qle, Py.int, Qfloor. simpl. intros Hn.
  apply Z.quot_div_nonneg; lia.
Qed.

Lemma int_range (n : Z) (x : Q) :
  (0 <= x)%Q -> (x <= inject_Z n)%Q -> 0 <= Py.int x <= n.
Proof.
  intros H0 Hn. rewrite int_floor by exact H0. split.
  - change 0 with (Qfloor (inject_Z 0)). now apply Qfloor_resp_le.
  - rewrite <- (Qfloor_Z n). now apply Qfloor_resp_le.
Qed.

(** ** [percentile] *)

Lemma rank_range (m : Z) (p : Q) :
  1 <= m -> (0 <= p)%Q -> (p <= 100)%Q ->
  (0 <= rank m p)%Q /\ (rank m p <= inject_Z (m - 1))%Q.
Proof.
  intros Hm H0 H100. unfold rank.
  assert (Hn : (0 <= inject_Z (m - 1))%Q).
  { change 0%Q with (inject_Z 0). rewrite <- Zle_Qle. lia. }
  assert (Hq : (0 <= p / 100)%Q /\ (p / 100 <= 1)%Q).
  { split.
    - apply Qle_shift_div_l; [reflexivity | lra].
    - apply Qle_shift_div_r; [reflexivity | lra]. }
  destruct Hq as [Hq0 Hq1].
  generalize dependent (p / 100)%Q. generalize dependent (inject_Z (m - 1)).
  intros a Ha b Hb0 Hb1. split; nra.
Qed.

(** What [percentile] computes on a non-empty sample when [p] is a
    percentage: both indices are in range and the interpolation is returned. *)
Lemma percentile_in_range (l : list Q) (p : Q) :
  l <> [] -> (0 <= p)%Q -> (p <= 100)%Q ->
  let k := rank (Py.len l) p in
  let f := Py.int k in
  let c := Z.min (f + 1) (Py.len l - 1) in
  0 <= f <= Py.len l - 1 /\ 0 <= c <= Py.len l - 1 /\
  percentile l p =
    Ok (nth (Z.to_nat f) l 0 +
        (k - inject_Z f) * (nth (Z.to_nat c) l 0 - nth (Z.to_nat f) l 0))%Q.
Proof.
  intros Hne H0 H100 k f c.
  assert (Hlen : 1 <= Py.len l).
  { unfold Py.len. destruct l; [congruence | simpl; lia]. }
  destruct (rank_range (Py.len l) p Hlen H0 H100) as [Hk0 Hk1].
  assert (Hf : 0 <= f <= Py.len l - 1) by (apply int_range; assumption).
  assert (Hc : 0 <= c <= Py.len l - 1) by (unfold c; lia).
  split; [exact Hf|]. split; [exact Hc|].
  unfold percentile. destruct l as [|x l']; [congruence|].
  fold k. fold f. fold c.
  rewrite (getitem_in_range _ f 0%Q) by lia.
  rewrite (getitem_in_range _ c 0%Q) by lia.
  reflexivity.
Qed.

Lemma percentile_total (l : list Q) (p : Q) :
  (0 <= p)%Q -> (p <= 100)%Q -> exists v, percentile l p = Ok v.
Proof.
  intros H0 H100. destruct l as [|x l'] eqn:El.
  - exists 0%Q. reflexivity.
  - destruct (percentile_in_range (x :: l') p) as (_ & _ & Hv);
      [congruence | assumption | assumption |].
    eexists. exact Hv.
Qed.

Lemma percentile_refines_spec (seq : list Q) (p : Q) :
  (0 <= p)%Q -> (p <= 100)%Q ->
  exists v, percentile seq p = Ok v /\ (v == percentile_spec seq p)%Q.
Proof.
  intros H0 H100. destruct seq as [|x l'] eqn:El.
  - exists 0%Q. split; reflexivity.
  - rewrite <- El.
    assert (Hne : seq <> []) by (rewrite El; congruence).
    destruct (percentile_in_range seq p Hne H0 H100) as (Hf & Hc & Hv).
    eexists. split; [exact Hv|].
    assert (Hspec : percentile_spec seq p =
      let M := Z.of_nat (length seq) in
      let k := (inject_Z (M - 1) * p / 100)%Q in
      let f := Qfloor k in
      let c := Z.min (f + 1) (M - 1) in
      (nth (Z.to_nat f) seq 0 + (k - inject_Z f) *
         (nth (Z.to_nat c) seq 0 - nth (Z.to_nat f) seq 0))%Q).
    { rewrite El. reflexivity. }
    rewrite Hspec. clear Hspec.
    assert (Hlen : 1 <= Py.len seq) by lia.
    destruct (rank_range (Py.len seq) p Hlen H0 H100) as [Hk0 Hk1].
    change (Z.of_nat (length seq)) with (Py.len seq).
    assert (Hk : (inject_Z (Py.len seq - 1) * p / 100 == rank (Py.len seq) p)%Q).
    { unfold rank. field. }
    cbv zeta. rewrite (Qfloor_comp _ _ Hk), <- (int_floor _ Hk0).
    setoid_rewrite Hk. reflexivity.
Qed.

(** C1. On a percentage [p], [percentile] returns the interpolation of the
    specification: with [k = (M-1)*p/100], [f = floor k],
    [c = min (f+1) (M-1)] and [d = k - f], the value
    [seq[f] + d * (seq[c] - seq[f])], and 0 on the empty sequence.  In
    particular a one-element sample yields its element, the empty sample yields
    0 for every [q], and [percentile [10;20;30;40] 50] is 25. *)
Theorem percentile_interpolation (seq : list Q) (p x : Q) :
  (0 <= p)%Q -> (p <= 100)%Q ->
  (exists v, percentile seq p = Ok v /\ (v == percentile_spec seq p)%Q) /\
  (exists v, percentile [x] p = Ok v /\ (v == x)%Q) /\
  (forall q, percentile [] q = Ok 0%Q) /\
  (exists v, percentile [10; 20; 30; 40]%Q 50 = Ok v /\ (v == 25)%Q).
Proof.
  intros H0 H100. split; [|split; [|split]].
  - apply percentile_refines_spec; assumption.
  - destruct (percentile_refines_spec [x] p H0 H100) as (v & Hv & Hs).
    exists v. split; [exact Hv|]. rewrite Hs.
    unfold percentile_spec. simpl length. cbv zeta.
    change (Z.of_nat 1 - 1) with 0.
    assert (Hk : (inject_Z 0 * p / 100 == 0)%Q) by (unfold Qdiv; ring).
    rewrite (Qfloor_comp _ _ Hk). simpl. ring.
  - reflexivity.
  - eexists. split; [vm_compute; reflexivity | reflexivity].
Qed.

Lemma percentile_interpolation_witness :
  ((0 <= 50)%Q /\ (50 <= 100)%Q) /\
  (exists v, percentile [1; 3]%Q 50 = Ok v /\
             (v == percentile_spec [1; 3]%Q 50)%Q) /\
  (exists v, percentile [7]%Q 50 = Ok v /\ (v == 7)%Q) /\
  (forall q, percentile [] q = Ok 0%Q) /\
  (exists v, percentile [10; 20; 30; 40]%Q 50 = Ok v /\ (v == 25)%Q).
Proof.
  assert (H0 : (0 <= 50)%Q) by (vm_compute; discriminate).
  assert (H100 : (50 <= 100)%Q) by (vm_compute; discriminate).
  split; [split; assumption|].
  exact (percentile_interpolation [1; 3]%Q 50 7 H0 H100).
Defined.

(** C9. On a non-empty sample and a percentage [p], the indices
    [f = int((M-1) * (p/100))] and [c = min(f+1, M-1)] lie in [0, M-1], both
    list accesses succeed and [percentile] returns a value; above 100 the
    access [seq[f]] can raise [IndexError]. *)
Theorem percentile_indices_in_bounds (seq : list Q) (p : Q) :
  seq <> [] -> (0 <= p)%Q -> (p <= 100)%Q ->
  let f := Py.int (inject_Z (Py.len seq - 1) * (p / 100))%Q in
  let c := Z.min (f + 1) (Py.len seq - 1) in
  0 <= f <= Py.len seq - 1 /\ 0 <= c <= Py.len seq - 1 /\
  (exists a b, Py.getitem seq f = Ok a /\ Py.getitem seq c = Ok b) /\
  (exists v, percentile seq p = Ok v) /\
  percentile [1; 2]%Q 200 = Raise (IndexError "list index out of range").
Proof.
  intros Hne H0 H100 f c.
  destruct (percentile_in_range seq p Hne H0 H100) as (Hf & Hc & Hv).
  fold (rank (Py.len seq) p) in f. fold f in Hf, Hc. fold c in Hc.
  split; [exact Hf|]. split; [exact Hc|]. split; [|split].
  - exists (nth (Z.to_nat f) seq 0%Q), (nth (Z.to_nat c) seq 0%Q).
    split; apply getitem_in_range; lia.
  - eexists. exact Hv.
  - vm_compute. reflexivity.
Qed.

Lemma percentile_indices_in_bounds_witness :
  ([3; 5; 8]%Q <> [] /\ (0 <= 95)%Q /\ (95 <= 100)%Q) /\
  let f := Py.int (inject_Z (Py.len [3; 5; 8]%Q - 1) * (95 / 100))%Q in
  let c := Z.min (f + 1) (Py.len [3; 5; 8]%Q - 1) in
  0 <= f <= Py.len [3; 5; 8]%Q - 1 /\ 0 <= c <= Py.len [3; 5; 8]%Q - 1 /\
  (exists a b, Py.getitem [3; 5; 8]%Q f = Ok a /\
               Py.getitem [3; 5; 8]%Q c = Ok b) /\
  (exists v, percentile [3; 5; 8]%Q 95 = Ok v) /\
  percentile [1; 2]%Q 200 = Raise (IndexError "list index out of range").
Proof.
  assert (Hne : [3; 5; 8]%Q <> []) by discriminate.
  assert (H0 : (0 <= 95)%Q) by (vm_compute; discriminate).
  assert (H100 : (95 <= 100)%Q) by (vm_compute; discriminate).
  split; [repeat split; assumption|].
  exact (percentile_indices_in_bounds [3; 5; 8]%Q 95 Hne H0 H100).
Defined.

(** ** Rounding *)

Lemma round_half_even_cases (y : Q) :
  Py.round_half_even y = Qfloor y \/ Py.round_half_even y = Qfloor y + 1.
Proof.
  unfold Py.round_half_even.
  destruct (y - inject_Z (Qfloor y) ?= 1 # 2)%Q; [|auto|auto].
  destruct (Z.even (Qfloor y)); auto.
Qed.

Lemma round_half_even_near (y : Q) :
  (y - (1 # 2) <= inject_Z (Py.round_half_even y))%Q /\
  (inject_Z (Py.round_half_even y) <= y + (1 # 2))%Q.
Proof.
  pose proof (Qfloor_le y) as Hlo. pose proof (Qlt_floor y) as Hhi.
  rewrite inject_Z_plus in Hhi. change (inject_Z 1) with 1%Q in Hhi.
  unfold Py.round_half_even.
  destruct (y - inject_Z (Qfloor y) ?= 1 # 2)%Q eqn:Hc.
  - apply Qeq_alt in Hc.
    destruct (Z.even (Qfloor y)); [|rewrite inject_Z_plus;
      change (inject_Z 1) with 1%Q]; split; lra.
  - apply Qlt_alt in Hc. split; lra.
  - apply Qgt_alt in Hc. rewrite inject_Z_plus.
    change (inject_Z 1) with 1%Q. split; lra.
Qed.

Lemma round_half_even_range (n : Z) (y : Q) :
  (0 <= y)%Q -> (y <= inject_Z n)%Q -> 0 <= Py.round_half_even y <= n.
Proof.
  intros H0 Hn.
  assert (Hf0 : 0 <= Qfloor y).
  { change 0 with (Qfloor (inject_Z 0)). now apply Qfloor_resp_le. }
  assert (Hfn : Qfloor y <= n).
  { rewrite <- (Qfloor_Z n). now apply Qfloor_resp_le. }
  destruct (Z.eq_dec (Qfloor y) n) as [He|Hne].
  - unfold Py.round_half_even. rewrite He.
    rewrite He in Hfn. pose proof (Qlt_floor y) as Hhi. rewrite He in Hhi.
    destruct (y - inject_Z n ?= 1 # 2)%Q eqn:Hc;
      [apply Qeq_alt in Hc; lra | lia | apply Qgt_alt in Hc; lra].
  - destruct (round_half_even_cases y) as [-> | ->]; lia.
Qed.

Lemma pow10_pos (n : nat) : (0 < inject_Z (10 ^ Z.of_nat n))%Q.
Proof.
  change 0%Q with (inject_Z 0). rewrite <- Zlt_Qlt.
  apply Z.pow_pos_nonneg; lia.
Qed.

(** Rounding keeps a ratio inside the unit interval. *)
Lemma round_unit_interval (x : Q) (n : nat) :
  (0 <= x)%Q -> (x <= 1)%Q ->
  (0 <= Py.round x n)%Q /\ (Py.round x n <= 1)%Q.
Proof.
  intros H0 H1. unfold Py.round.
  pose proof (pow10_pos n) as Hu.
  set (u := 10 ^ Z.of_nat n) in *.
  assert (Hy0 : (0 <= x * inject_Z u)%Q) by nra.
  assert (Hy1 : (x * inject_Z u <= inject_Z u)%Q) by nra.
  destruct (round_half_even_range u _ Hy0 Hy1) as [Hr0 Hr1].
  rewrite Zle_Qle in Hr0, Hr1. change (inject_Z 0) with 0%Q in Hr0.
  split.
  - apply Qle_shift_div_l; [exact Hu | lra].
  - apply Qle_shift_div_r; [exact Hu | lra].
Qed.

Lemma round_zero (x : Q) (n : nat) : (x == 0)%Q -> (Py.round x n == 0)%Q.
Proof.
  intros Hx.
  destruct (round_unit_interval x n) as [Hlo Hhi]; [lra | lra |].
  unfold Py.round in *.
  assert (Hy : (x * inject_Z (10 ^ Z.of_nat n) == inject_Z 0)%Q).
  { rewrite Hx. change (inject_Z 0) with 0%Q. ring. }
  assert (Hr : Py.round_half_even (x * inject_Z (10 ^ Z.of_nat n)) = 0).
  { destruct (round_half_even_range 0 (x * inject_Z (10 ^ Z.of_nat n))%Q).
    - rewrite Hy. apply Qle_refl.
    - rewrite Hy. apply Qle_refl.
    - lia. }
  rewrite Hr. unfold Qdiv. change (inject_Z 0) with 0%Q. ring.
Qed.

(** Rounding to [n] decimals moves a value by at most half a unit of the
    last decimal kept. *)
Lemma round_near (x : Q) (n : nat) :
  (x - (1 # 2) / inject_Z (10 ^ Z.of_nat n) <= Py.round x n)%Q /\
  (Py.round x n <= x + (1 # 2) / inject_Z (10 ^ Z.of_nat n))%Q.
Proof.
  unfold Py.round. pose proof (pow10_pos n) as Hu.
  set (u := inject_Z (10 ^ Z.of_nat n)) in *.
  destruct (round_half_even_near (x * u)) as [Hlo Hhi].
  set (r := inject_Z (Py.round_half_even (x * u))) in *.
  assert (Hne : ~ (u == 0)%Q) by lra.
  split.
  - apply Qle_shift_div_l; [exact Hu|].
    assert (E : ((x - (1 # 2) / u) * u == x * u - (1 # 2))%Q)
      by (field; exact Hne).
    setoid_rewrite E. exact Hlo.
  - apply Qle_shift_div_r; [exact Hu|].
    assert (E : ((x + (1 # 2) / u) * u == x * u + (1 # 2))%Q)
      by (field; exact Hne).
    setoid_rewrite E. exact Hhi.
Qed.

(** ** [compute_metrics] *)

Lemma foldl_add_shift (a : Z) (l : list Z) : foldl Z.add a l = a + Py.sum l.
Proof.
  unfold Py.sum. revert a. induction l as [|x l IH]; intros a; simpl.
  - lia.
  - rewrite (IH (a + x)), (IH (0 + x)). lia.
Qed.

Lemma sum_cons (x : Z) (l : list Z) : Py.sum (x :: l) = x + Py.sum l.
Proof. unfold Py.sum at 1. simpl. apply foldl_add_shift. Qed.

Lemma sum_ones {A} (l : list A) : Py.sum (map (fun _ => 1) l) = Py.len l.
Proof.
  unfold Py.len. induction l as [|x l IH]; [reflexivity|].
  simpl map. rewrite sum_cons, IH. simpl length. lia.
Qed.

Lemma len_filter_range {A} (P : A -> Prop) `{forall x, Decision (P x)}
    (l : list A) :
  0 <= Py.len (filter P l) <= Py.len l.
Proof. unfold Py.len. pose proof (length_filter P l). lia. Qed.

Lemma compute_metrics_empty (s e : Q) :
  compute_metrics [] s e = Ok (mkMetrics 0 0 0 0 ∅ 0 0 0 0 (e - s)%Q).
Proof. reflexivity. Qed.

(** On a non-empty collection every branch of [compute_metrics] is the
    general one, and both percentile calls return. *)
Lemma compute_metrics_nonempty (rs : list RequestResult) (s e : Q) :
  rs <> [] ->
  exists p50 p95,
    compute_metrics rs s e =
    Ok (mkMetrics
          (Py.len rs)
          (Py.len (filter (fun r => error r = "") rs))
          (Py.len rs - Py.len (filter (fun r => error r = "") rs))
          (Py.round
             (inject_Z (Py.len rs - Py.len (filter (fun r => error r = "") rs))
              / inject_Z (Py.len rs)) 4)
          (foldl count_status ∅ rs)
          (Py.round p50 4)
          (Py.round p95 4)
          (Py.round
             (if decide (0 < e - s)%Q
              then inject_Z (Py.sum (map tokens_received rs)) / (e - s)
              else 0) 1)
          (Py.round
             (inject_Z (Py.len (filter (fun r => stream_completed r = true) rs))
              / inject_Z (Py.len rs)) 4)
          (Py.round (e - s) 1)).
Proof.
  intros Hne.
  assert (Hlen : 0 < Py.len rs).
  { unfold Py.len. destruct rs; [congruence | simpl; lia]. }
  set (ttft_values := Py.sorted (filter (fun x => (0 < x)%Q) (map ttft rs))).
  destruct (percentile_total ttft_values 50) as [p50 H50];
    [vm_compute; discriminate | vm_compute; discriminate |].
  destruct (percentile_total ttft_values 95) as [p95 H95];
    [vm_compute; discriminate | vm_compute; discriminate |].
  exists p50, p95. unfold compute_metrics.
  replace (Py.len rs =? 0) with false by (symmetry; apply Z.eqb_neq; lia).
  replace (0 <? Py.len rs) with true by (symmetry; apply Z.ltb_lt; lia).
  fold ttft_values. rewrite H50, H95. simpl.
  rewrite !sum_ones. reflexivity.
Qed.

Lemma ratio_unit_interval (a b : Z) :
  0 <= a <= b -> 0 < b ->
  (0 <= inject_Z a / inject_Z b)%Q /\ (inject_Z a / inject_Z b <= 1)%Q.
Proof.
  intros [Ha Hab] Hb.
  assert (Hb' : (0 < inject_Z b)%Q).
  { change 0%Q with (inject_Z 0). now rewrite <- Zlt_Qlt. }
  rewrite Zle_Qle in Ha, Hab. change (inject_Z 0) with 0%Q in Ha.
  split.
  - apply Qle_shift_div_l; [exact Hb' | lra].
  - apply Qle_shift_div_r; [exact Hb' | lra].
Qed.

(** Scenario B through [compute_metrics], over a run of 3 seconds. *)
Example scenario_b_metrics :
  exists m, compute_metrics scenario_b 0 3 = Ok m /\
    total_requests m = 3 /\ successful m = 2 /\ failed m = 1 /\
    (error_rate m == 0.3333)%Q /\ (stream_completion_rate m == 0.6667)%Q /\
    (ttft_p50 m == 0.15)%Q /\ (ttft_p95 m == 0.195)%Q /\
    (tokens_per_sec m == 4.3)%Q /\
    map_to_list (status_code_counts m) ≡ₚ [("200", 2); ("0", 1)].
Proof.
  eexists. split; [vm_compute; reflexivity|].
  repeat (split; [reflexivity|]). vm_compute. reflexivity.
Qed.

(** C2, as stated, fails: on Scenario B the reported error rate is 0.3333,
    which is not 1/3. *)
Lemma error_rate_not_exact :
  exists m, compute_metrics scenario_b 0 3 = Ok m /\
    ~ (error_rate m == inject_Z (failed m) / inject_Z (total_requests m))%Q.
Proof.
  eexists. split; [vm_compute; reflexivity|].
  vm_compute. discriminate.
Qed.

(** C2, amended.  [compute_metrics] always returns; [successful] and [failed]
    partition [total_requests]; [error_rate] is within 0.00005 of
    [failed / total_requests], the quotient being rounded to 4 decimals
    before it is reported, and it is 0 when there is no request. *)
Theorem error_rate_rounded (rs : list RequestResult) (s e : Q) :
  exists m, compute_metrics rs s e = Ok m /\
    total_requests m = Py.len rs /\
    successful m + failed m = total_requests m /\
    (if total_requests m =? 0 then error_rate m == 0
     else inject_Z (failed m) / inject_Z (total_requests m) - (1 # 20000)
            <= error_rate m /\
          error_rate m
            <= inject_Z (failed m) / inject_Z (total_requests m) + (1 # 20000))%Q.
Proof.
  destruct rs as [|r rs'] eqn:Ers.
  - eexists. split; [apply compute_metrics_empty|]. simpl.
    repeat split; reflexivity.
  - rewrite <- Ers. assert (Hne : rs <> []) by (rewrite Ers; congruence).
    destruct (compute_metrics_nonempty rs s e Hne) as (p50 & p95 & Hm).
    eexists. split; [exact Hm|]. simpl.
    assert (Hlen : 0 < Py.len rs).
    { unfold Py.len. rewrite Ers. simpl. lia. }
    replace (Py.len rs =? 0) with false by (symmetry; apply Z.eqb_neq; lia).
    split; [reflexivity|]. split; [lia|].
    apply (round_near _ 4).
Qed.

(** C6. The two ratios [compute_metrics] reports lie in the unit interval. *)
Theorem rates_in_unit_interval (rs : list RequestResult) (s e : Q) :
  exists m, compute_metrics rs s e = Ok m /\
    (0 <= error_rate m)%Q /\ (error_rate m <= 1)%Q /\
    (0 <= stream_completion_rate m)%Q /\ (stream_completion_rate m <= 1)%Q.
Proof.
  destruct rs as [|r rs'] eqn:Ers.
  - eexists. split; [apply compute_metrics_empty|]. simpl.
    repeat split; vm_compute; discriminate.
  - rewrite <- Ers. assert (Hne : rs <> []) by (rewrite Ers; congruence).
    destruct (compute_metrics_nonempty rs s e Hne) as (p50 & p95 & Hm).
    eexists. split; [exact Hm|]. simpl.
    assert (Hlen : 0 < Py.len rs).
    { unfold Py.len. rewrite Ers. simpl. lia. }
    pose proof (len_filter_range (fun r => error r = "") rs) as Hs.
    pose proof (len_filter_range (fun r => stream_completed r = true) rs) as Hc.
    destruct (ratio_unit_interval
                (Py.len rs - Py.len (filter (fun r => error r = "") rs))
                (Py.len rs)) as [He0 He1]; [lia | lia |].
    destruct (ratio_unit_interval
                (Py.len (filter (fun r => stream_completed r = true) rs))
                (Py.len rs)) as [Hc0 Hc1]; [lia | lia |].
    destruct (round_unit_interval _ 4 He0 He1).
    destruct (round_unit_interval _ 4 Hc0 Hc1).
    repeat split; assumption.
Qed.

(** C7, as stated, fails: on Scenario B over 3 seconds the reported
    throughput is 4.3, which is not 13/3. *)
Lemma tokens_per_sec_not_exact :
  exists m, compute_metrics scenario_b 0 3 = Ok m /\
    ~ (tokens_per_sec m ==
       inject_Z (Py.sum (map tokens_received scenario_b)) / (3 - 0))%Q.
Proof.
  eexists. split; [vm_compute; reflexivity|].
  vm_compute. discriminate.
Qed.

(** C7, amended.  When the duration [end_time - start_time] is positive,
    [tokens_per_sec] is within 0.05 of the sum of [tokens_received] divided
    by the duration, the quotient being rounded to 1 decimal before it is
    reported; it is 0 when the duration is not positive; without requests
    every rate and ratio field is 0. *)
Theorem tokens_per_sec_rounded (rs : list RequestResult) (s e : Q) :
  exists m, compute_metrics rs s e = Ok m /\
    (if decide (0 < e - s)%Q
     then inject_Z (Py.sum (map tokens_received rs)) / (e - s) - (1 # 20)
            <= tokens_per_sec m /\
          tokens_per_sec m
            <= inject_Z (Py.sum (map tokens_received rs)) / (e - s) + (1 # 20)
     else tokens_per_sec m == 0)%Q /\
    (if total_requests m =? 0
     then error_rate m == 0 /\ tokens_per_sec m == 0 /\
          stream_completion_rate m == 0 /\ ttft_p50 m == 0 /\ ttft_p95 m == 0
     else True)%Q.
Proof.
  destruct rs as [|r rs'] eqn:Ers.
  - eexists. split; [apply compute_metrics_empty|]. simpl.
    assert (Hz : (inject_Z (Py.sum []) / (e - s) == 0)%Q).
    { change (inject_Z (Py.sum [])) with 0%Q. unfold Qdiv. ring. }
    destruct (decide (0 < e - s)%Q) as [Hd|Hd].
    + split; [setoid_rewrite Hz; split; vm_compute; discriminate|].
      repeat split; reflexivity.
    + repeat split; reflexivity.
  - rewrite <- Ers. assert (Hne : rs <> []) by (rewrite Ers; congruence).
    destruct (compute_metrics_nonempty rs s e Hne) as (p50 & p95 & Hm).
    eexists. split; [exact Hm|]. simpl.
    assert (Hlen : 0 < Py.len rs).
    { unfold Py.len. rewrite Ers. simpl. lia. }
    replace (Py.len rs =? 0) with false by (symmetry; apply Z.eqb_neq; lia).
    destruct (decide (0 < e - s)%Q) as [Hd|Hd].
    + split; [apply (round_near _ 1) | exact I].
    + split; [apply round_zero; reflexivity | exact I].
Qed.

(** ** The status code histogram *)

Lemma values_sum_split (d : gmap string Z) (k : string) :
  values_sum d = default 0 (d !! k) + values_sum (delete k d).
Proof.
  unfold values_sum. destruct (d !! k) as [v|] eqn:Hk; simpl.
  - apply (map_fold_delete_L (fun _ v acc => v + acc) 0 k v d);
      [intros; lia | exact Hk].
  - rewrite delete_id by exact Hk. reflexivity.
Qed.

Lemma values_sum_insert (d : gmap string Z) (k : string) (v : Z) :
  values_sum (<[k := v]> d) = v + values_sum (delete k d).
Proof.
  rewrite <- insert_delete_eq. unfold values_sum.
  apply (map_fold_insert_L (fun _ v acc => v + acc) 0 k v (delete k d));
    [intros; lia | apply lookup_delete_eq].
Qed.

Lemma values_sum_count_status (d : gmap string Z) (r : RequestResult) :
  values_sum (count_status d r) = values_sum d + 1.
Proof.
  unfold count_status. rewrite values_sum_insert.
  rewrite (values_sum_split d (Py.str (status_code r))). lia.
Qed.

Lemma values_sum_histogram (rs : list RequestResult) (d : gmap string Z) :
  values_sum (foldl count_status d rs) = values_sum d + Py.len rs.
Proof.
  unfold Py.len. revert d. induction rs as [|r rs IH]; intros d; simpl foldl.
  - simpl. lia.
  - rewrite IH, values_sum_count_status. simpl length. lia.
Qed.

Lemma lookup_histogram (rs : list RequestResult) (d : gmap string Z)
    (key : string) :
  default 0 (foldl count_status d rs !! key) =
  default 0 (d !! key) +
  Py.len (filter (fun r => Py.str (status_code r) = key) rs).
Proof.
  unfold Py.len. revert d. induction rs as [|r rs IH]; intros d; simpl foldl.
  - simpl. lia.
  - rewrite IH. unfold count_status at 1. rewrite filter_cons.
    destruct (decide (Py.str (status_code r) = key)) as [->|Hne].
    + rewrite lookup_insert_eq. simpl. lia.
    + rewrite lookup_insert_ne by exact Hne. lia.
Qed.

Lemma dom_histogram (rs : list RequestResult) (d : gmap string Z) :
  dom (foldl count_status d rs) =
  dom d ∪ list_to_set (map (fun r => Py.str (status_code r)) rs).
Proof.
  revert d. induction rs as [|r rs IH]; intros d; simpl foldl.
  - simpl. rewrite (right_id_L ∅ (∪)). reflexivity.
  - rewrite IH. unfold count_status at 1. rewrite dom_insert_L.
    simpl. rewrite (comm_L (∪) _ (dom d)), (assoc_L (∪)). reflexivity.
Qed.

Lemma positive_histogram (rs : list RequestResult) (d : gmap string Z) :
  map_Forall (fun _ v => 0 < v) d ->
  map_Forall (fun _ v => 0 < v) (foldl count_status d rs).
Proof.
  revert d. induction rs as [|r rs IH]; intros d Hd; simpl foldl.
  - exact Hd.
  - apply IH. unfold count_status. apply map_Forall_insert_2; [|exact Hd].
    destruct (d !! Py.str (status_code r)) as [v|] eqn:Hv; simpl.
    + specialize (Hd _ _ Hv). simpl in Hd. lia.
    + lia.
Qed.

(** C10. The values of [status_code_counts] sum to [total_requests]: every
    outcome is counted once, under the string of its status code, and the
    histogram is empty when there is no request. *)
Theorem status_code_counts_total (rs : list RequestResult) (s e : Q) :
  exists m, compute_metrics rs s e = Ok m /\
    total_requests m = Py.len rs /\
    values_sum (status_code_counts m) = total_requests m /\
    (forall code : Z,
       default 0 (status_code_counts m !! Py.str code) =
       Py.len (filter (fun r => status_code r = code) rs)) /\
    dom (status_code_counts m) =
      list_to_set (map (fun r => Py.str (status_code r)) rs) /\
    map_Forall (fun _ v => 0 < v) (status_code_counts m) /\
    (if total_requests m =? 0 then status_code_counts m = ∅ else True).
Proof.
  destruct rs as [|r rs'] eqn:Ers.
  - eexists. split; [apply compute_metrics_empty|]. simpl.
    split; [reflexivity|]. split; [reflexivity|].
    split; [intros code; rewrite lookup_empty; reflexivity|].
    split; [apply dom_empty_L|]. split; [apply map_Forall_empty | reflexivity].
  - rewrite <- Ers. assert (Hne : rs <> []) by (rewrite Ers; congruence).
    destruct (compute_metrics_nonempty rs s e Hne) as (p50 & p95 & Hm).
    eexists. split; [exact Hm|]. simpl.
    assert (Hlen : 0 < Py.len rs).
    { unfold Py.len. rewrite Ers. simpl. lia. }
    replace (Py.len rs =? 0) with false by (symmetry; apply Z.eqb_neq; lia).
    split; [reflexivity|].
    split; [rewrite values_sum_histogram; reflexivity|].
    split.
    { intros code. rewrite lookup_histogram, lookup_empty. simpl.
      rewrite Z.add_0_l. f_equal. apply list_filter_iff. intros r0. split.
      - intros Hs. apply (inj pretty) in Hs. exact Hs.
      - intros ->. reflexivity. }
    split; [rewrite dom_histogram, dom_empty_L; apply (left_id_L ∅ (∪))|].
    split; [apply positive_histogram, map_Forall_empty | exact I].
Qed.

(** ** [send_streaming_request]: the reading loop *)

Section ReadingLoop.

Variable json_loads : string -> res json.
Variable clock : nat -> Q.

Lemma read_lines_cons (line : string) (rest : list string)
    (failure : option py_exn) (st : loop_state) :
  read_lines json_loads clock (line :: rest) failure st =
  if String.eqb line "" || negb (Py.startswith line "data: ")
  then read_lines json_loads clock rest failure st
  else
    if String.eqb (Py.strip (Py.drop 6 line)) "[DONE]"
    then (mkLoop (set_stream_completed (ls_result st) true)
                 (ls_first_token_time st) (ls_tick st), None)
    else
      match handle_payload json_loads clock (Py.drop 6 line) st with
      | (st', None) => read_lines json_loads clock rest failure st'
      | (st', Some e) => (st', Some e)
      end.
Proof. reflexivity. Qed.

(** A payload that does not parse, or whose extraction raises one of the
    exceptions of the inner handler, changes nothing. *)
Lemma caught_payload_skipped (data_str : string) (st : loop_state) (e : py_exn) :
  extract json_loads data_str = Raise e -> caught_inner e = true ->
  handle_payload json_loads clock data_str st = (st, None).
Proof. intros He Hc. unfold handle_payload. now rewrite He, Hc. Qed.

Lemma unparsable_payload_skipped (data_str msg : string) (st : loop_state) :
  json_loads data_str = Raise (JSONDecodeError msg) ->
  handle_payload json_loads clock data_str st = (st, None).
Proof.
  intros Hp. apply (caught_payload_skipped _ _ (JSONDecodeError msg));
    [|reflexivity].
  unfold extract. now rewrite Hp.
Qed.

(** Scenario C: an event whose payload does not parse can be removed from
    the stream without changing what the loop computes. *)
Lemma unparsable_event_skipped (pre post : list string) (data_str msg : string)
    (failure : option py_exn) (st : loop_state) :
  json_loads data_str = Raise (JSONDecodeError msg) ->
  Py.strip data_str <> "[DONE]" ->
  read_lines json_loads clock (pre ++ ("data: " +:+ data_str) :: post) failure st =
  read_lines json_loads clock (pre ++ post) failure st.
Proof.
  intros Hp Hdone. revert st.
  induction pre as [|line pre IH]; intros st.
  - cbn [app]. rewrite read_lines_cons.
    change (String.eqb ("data: " +:+ data_str) "") with false.
    assert (Hpre : Py.startswith ("data: " +:+ data_str) "data: " = true).
    { unfold Py.startswith. cbn. now destruct data_str. }
    rewrite Hpre. cbn [negb orb].
    change (Py.drop 6 ("data: " +:+ data_str)) with data_str.
    apply String.eqb_neq in Hdone. rewrite Hdone.
    now rewrite (unparsable_payload_skipped _ msg).
  - cbn [app]. rewrite !read_lines_cons.
    destruct (String.eqb line "" || negb (Py.startswith line "data: "));
      [apply IH|].
    destruct (String.eqb (Py.strip (Py.drop 6 line)) "[DONE]"); [reflexivity|].
    destruct (handle_payload json_loads clock (Py.drop 6 line) st)
      as [st' [e|]]; [reflexivity | apply IH].
Qed.

(** What one payload does to the token count and to [ttft]. *)
Lemma handle_payload_token (data_str : string) (st : loop_state) :
  let st' := fst (handle_payload json_loads clock data_str st) in
  (ttft (ls_result st') = ttft (ls_result st) /\
   ls_first_token_time st' = ls_first_token_time st) \/
  (ls_first_token_time st = None /\
   ls_first_token_time st' = Some (clock (ls_tick st)) /\
   ttft (ls_result st') = (clock (ls_tick st) - start_time (ls_result st))%Q /\
   tokens_received (ls_result st') = tokens_received (ls_result st) + 1 /\
   exists text finish,
     extract json_loads data_str = Ok (text, finish) /\ Json.truthy text = true).
Proof.
  unfold handle_payload.
  destruct (extract json_loads data_str) as [[text finish]|e] eqn:He; simpl;
    [|left; split; reflexivity].
  unfold count_token.
  destruct (Json.truthy text) eqn:Ht.
  - destruct (ls_first_token_time st) eqn:Hf.
    + left. destruct finish; simpl; auto.
    + right. split; [reflexivity|].
      destruct finish; simpl; repeat split; eauto.
  - left. destruct finish; simpl; auto.
Qed.

Lemma handle_payload_inv (data_str : string) (st : loop_state) :
  token_inv st -> token_inv (fst (handle_payload json_loads clock data_str st)).
Proof.
  unfold handle_payload.
  destruct (extract json_loads data_str) as [[text finish]|e] eqn:He; simpl;
    [|trivial].
  intros Hinv.
  assert (Hc : token_inv (count_token clock text st)).
  { unfold count_token. destruct (Json.truthy text); [|exact Hinv].
    unfold token_inv in *.
    destruct (ls_first_token_time st); simpl in *; lia. }
  destruct finish; simpl; exact Hc.
Qed.

Lemma read_lines_inv (lines : list string) (failure : option py_exn)
    (st : loop_state) :
  token_inv st -> token_inv (fst (read_lines json_loads clock lines failure st)).
Proof.
  revert st. induction lines as [|line rest IH]; intros st Hinv.
  - exact Hinv.
  - rewrite read_lines_cons. destruct (String.eqb line "" || negb (Py.startswith line "data: "));
      [now apply IH|].
    destruct (String.eqb (Py.strip (Py.drop 6 line)) "[DONE]");
      [exact Hinv|].
    pose proof (handle_payload_inv (Py.drop 6 line) st Hinv) as Hstep.
    destruct (handle_payload json_loads clock (Py.drop 6 line) st) as [st' [e|]];
      simpl in *; [exact Hstep | now apply IH].
Qed.

(** The loop never touches the request id. *)
Lemma handle_payload_request_id (data_str : string) (st : loop_state) :
  request_id (ls_result (fst (handle_payload json_loads clock data_str st))) =
  request_id (ls_result st).
Proof.
  unfold handle_payload.
  destruct (extract json_loads data_str) as [[text finish]|e]; simpl; [|reflexivity].
  unfold count_token.
  destruct (Json.truthy text), (ls_first_token_time st), finish; reflexivity.
Qed.

Lemma read_lines_request_id (lines : list string) (failure : option py_exn)
    (st : loop_state) :
  request_id (ls_result (fst (read_lines json_loads clock lines failure st))) =
  request_id (ls_result st).
Proof.
  revert st. induction lines as [|line rest IH]; intros st.
  - reflexivity.
  - rewrite read_lines_cons. destruct (String.eqb line "" || negb (Py.startswith line "data: "));
      [apply IH|].
    destruct (String.eqb (Py.strip (Py.drop 6 line)) "[DONE]");
      [reflexivity|].
    pose proof (handle_payload_request_id (Py.drop 6 line) st) as Hstep.
    destruct (handle_payload json_loads clock (Py.drop 6 line) st) as [st' [e|]];
      simpl in *; [exact Hstep | rewrite IH; exact Hstep].
Qed.

End ReadingLoop.

(** ** [send_streaming_request]: the three ways through the function *)

Section Send.

Variable json_loads : string -> res json.
Variable clock : nat -> Q.
Variable sess : session.
Variables url model prompt : string.
Variables max_tokens req_id : Z.
Variable tick : nat.

Lemma send_post_raises (e : py_exn) :
  sess (endpoint_of url) (payload_of model prompt max_tokens) = Raise e ->
  send_streaming_request json_loads clock sess url model prompt max_tokens
    req_id tick =
  finish_request clock
    (set_error (fresh_result req_id (clock tick)) (error_of_exn e))
    (S tick).
Proof.
  intros Hp. unfold send_streaming_request, endpoint_of, payload_of in *.
  simpl. rewrite Hp. reflexivity.
Qed.

Lemma send_not_200 (resp : response) :
  sess (endpoint_of url) (payload_of model prompt max_tokens) = Ok resp ->
  resp_status_code resp <> 200 ->
  send_streaming_request json_loads clock sess url model prompt max_tokens
    req_id tick =
  finish_request clock
    (set_error
       (set_status_code (fresh_result req_id (clock tick))
          (resp_status_code resp))
       ("HTTP " +:+ Py.str (resp_status_code resp)))
    (S tick).
Proof.
  intros Hp Hs. unfold send_streaming_request, endpoint_of, payload_of in *.
  simpl. rewrite Hp.
  replace (resp_status_code resp =? 200) with false
    by (symmetry; apply Z.eqb_neq; exact Hs).
  reflexivity.
Qed.

Lemma send_200 (resp : response) :
  sess (endpoint_of url) (payload_of model prompt max_tokens) = Ok resp ->
  resp_status_code resp = 200 ->
  send_streaming_request json_loads clock sess url model prompt max_tokens
    req_id tick =
  let '(st, raised) :=
    read_lines json_loads clock (resp_lines resp) (resp_failure resp)
      (mkLoop (set_status_code (fresh_result req_id (clock tick)) 200)
              None (S tick)) in
  match raised with
  | Some e =>
    finish_request clock (set_error (ls_result st) (error_of_exn e)) (ls_tick st)
  | None => finish_request clock (ls_result st) (ls_tick st)
  end.
Proof.
  intros Hp Hs. unfold send_streaming_request, endpoint_of, payload_of in *.
  simpl. rewrite Hp, Hs. reflexivity.
Qed.

(** The result carries the id it was given. *)
Lemma send_request_id :
  request_id
    (fst (send_streaming_request json_loads clock sess url model prompt
            max_tokens req_id tick)) = req_id.
Proof.
  destruct (sess (endpoint_of url) (payload_of model prompt max_tokens))
    as [resp|e] eqn:Hp.
  - destruct (Z.eq_dec (resp_status_code resp) 200) as [Hs|Hs].
    + rewrite (send_200 resp Hp Hs).
      pose proof (read_lines_request_id json_loads clock (resp_lines resp)
        (resp_failure resp)
        (mkLoop (set_status_code (fresh_result req_id (clock tick)) 200)
                None (S tick))) as Hid.
      destruct (read_lines _ _ _ _ _) as [st [e|]]; simpl in *; exact Hid.
    + rewrite (send_not_200 resp Hp Hs). reflexivity.
  - rewrite (send_post_raises e Hp). reflexivity.
Qed.

(** A result with no token has [ttft] equal to 0. *)
Lemma send_token_inv :
  let r := fst (send_streaming_request json_loads clock sess url model prompt
                  max_tokens req_id tick) in
  (tokens_received r = 0 /\ ttft r = 0%Q) \/ 1 <= tokens_received r.
Proof.
  destruct (sess (endpoint_of url) (payload_of model prompt max_tokens))
    as [resp|e] eqn:Hp.
  - destruct (Z.eq_dec (resp_status_code resp) 200) as [Hs|Hs].
    + rewrite (send_200 resp Hp Hs).
      assert (Hinit : token_inv
        (mkLoop (set_status_code (fresh_result req_id (clock tick)) 200)
                None (S tick))) by (split; reflexivity).
      pose proof (read_lines_inv json_loads clock (resp_lines resp)
        (resp_failure resp) _ Hinit) as Hinv.
      destruct (read_lines _ _ _ _ _) as [st [e|]]; simpl in *;
        unfold token_inv in Hinv;
        destruct (ls_first_token_time st); auto.
    + rewrite (send_not_200 resp Hp Hs). left. split; reflexivity.
  - rewrite (send_post_raises e Hp). left. split; reflexivity.
Qed.

End Send.

(** C4. A positive [ttft] implies at least one received token.  After any
    part of the stream the loop satisfies [token_inv]: [first_token_time] is
    [None] exactly while no token has been counted, and [ttft] is then still
    0.  One payload either leaves [ttft] and [first_token_time] alone, or it
    is the first one with a non-empty text: then [first_token_time] was still
    [None], [ttft] becomes the clock reading minus [start_time], and the same
    payload adds one to [tokens_received]. *)
Theorem ttft_implies_token (json_loads : string -> res json)
    (clock : nat -> Q) (sess : session) (url model prompt : string)
    (max_tokens req_id : Z) (tick : nat) (lines : list string)
    (failure : option py_exn) (data_str : string) (st : loop_state) :
  let r := fst (send_streaming_request json_loads clock sess url model prompt
                  max_tokens req_id tick) in
  let st' := fst (handle_payload json_loads clock data_str st) in
  ((0 < ttft r)%Q -> 1 <= tokens_received r) /\
  ((tokens_received r = 0 /\ ttft r = 0%Q) \/ 1 <= tokens_received r) /\
  token_inv
    (fst (read_lines json_loads clock lines failure
            (mkLoop (set_status_code (fresh_result req_id (clock tick)) 200)
                    None (S tick)))) /\
  ((ttft (ls_result st') = ttft (ls_result st) /\
    ls_first_token_time st' = ls_first_token_time st) \/
   (ls_first_token_time st = None /\
    ls_first_token_time st' = Some (clock (ls_tick st)) /\
    ttft (ls_result st') = (clock (ls_tick st) - start_time (ls_result st))%Q /\
    tokens_received (ls_result st') = tokens_received (ls_result st) + 1 /\
    exists text finish,
      extract json_loads data_str = Ok (text, finish) /\
      Json.truthy text = true)).
Proof.
  intros r st'.
  pose proof (send_token_inv json_loads clock sess url model prompt max_tokens
                req_id tick) as Hr. fold r in Hr.
  split; [|split; [exact Hr|split]].
  - intros Hpos. destruct Hr as [[_ Hz]|Hge]; [|exact Hge].
    rewrite Hz in Hpos. inversion Hpos.
  - apply read_lines_inv. split; reflexivity.
  - apply handle_payload_token.
Qed.

Lemma ttft_implies_token_witness :
  let r := fst (send_streaming_request sample_loads tick_clock
                  (fixed_session (mkResponse 200 ["data: " +:+ token_text] None))
                  "http://localhost:8000" "m" "p" 100 0 0) in
  (0 < ttft r)%Q /\ 1 <= tokens_received r.
Proof.
  intros r.
  assert (Hpos : (0 < ttft r)%Q) by (vm_compute; reflexivity).
  split; [exact Hpos|].
  exact (proj1 (ttft_implies_token sample_loads tick_clock
    (fixed_session (mkResponse 200 ["data: " +:+ token_text] None))
    "http://localhost:8000" "m" "p" 100 0 0 [] None ""
    (mkLoop (fresh_result 0 0) None 0%nat)) Hpos).
Defined.

(** C5. When the status of the response is not 200 the function returns at
    once: [error] is ["HTTP "] followed by the status code, no token and no
    time to first token are recorded, the stream is not completed, the clock
    is read twice, and neither the body nor the parser has any influence. *)
Theorem non_200_is_http_error (json_loads : string -> res json)
    (clock : nat -> Q) (sess : session) (url model prompt : string)
    (max_tokens req_id : Z) (tick : nat) (resp : response) :
  sess (endpoint_of url) (payload_of model prompt max_tokens) = Ok resp ->
  resp_status_code resp <> 200 ->
  let out := send_streaming_request json_loads clock sess url model prompt
               max_tokens req_id tick in
  error (fst out) = "HTTP " +:+ Py.str (resp_status_code resp) /\
  tokens_received (fst out) = 0 /\
  ttft (fst out) = 0%Q /\
  stream_completed (fst out) = false /\
  status_code (fst out) = resp_status_code resp /\
  snd out = S (S tick) /\
  forall (json_loads' : string -> res json) (lines : list string)
         (failure : option py_exn),
    send_streaming_request json_loads' clock
      (fixed_session (mkResponse (resp_status_code resp) lines failure))
      url model prompt max_tokens req_id tick = out.
Proof.
  intros Hp Hs out. unfold out.
  rewrite (send_not_200 json_loads clock sess url model prompt max_tokens
             req_id tick resp Hp Hs).
  repeat (split; [reflexivity|]).
  intros json_loads' lines failure.
  apply (send_not_200 json_loads' clock
           (fixed_session (mkResponse (resp_status_code resp) lines failure))
           url model prompt max_tokens req_id tick
           (mkResponse (resp_status_code resp) lines failure));
    [reflexivity | exact Hs].
Qed.

Lemma non_200_is_http_error_witness :
  let resp := mkResponse 503 ["data: " +:+ token_text; "data: [DONE]"] None in
  let out := send_streaming_request sample_loads tick_clock (fixed_session resp)
               "http://localhost:8000" "m" "p" 100 7 0 in
  resp_status_code resp <> 200 /\
  error (fst out) = "HTTP 503" /\
  tokens_received (fst out) = 0 /\
  ttft (fst out) = 0%Q /\
  stream_completed (fst out) = false.
Proof.
  intros resp out.
  assert (Hs : resp_status_code resp <> 200) by (simpl; lia).
  split; [exact Hs|].
  destruct (non_200_is_http_error sample_loads tick_clock (fixed_session resp)
              "http://localhost:8000" "m" "p" 100 7 0%nat resp eq_refl Hs)
    as (He & Ht & Hf & Hc & _).
  repeat split; assumption.
Defined.

(** C3 does not hold for a payload that parses but is not an object, such as
    [data: null] or [data: 5].  There [data.get] raises [AttributeError],
    which the inner handler does not catch: the outer handler stores the
    message in [error], the rest of the stream is not read and its tokens are
    not counted. *)
Theorem non_object_payload_aborts (json_loads : string -> res json)
    (clock : nat -> Q) (sess : session) (url model prompt : string)
    (max_tokens req_id : Z) (tick : nat) (data_str : string) (v : json)
    (rest : list string) (failure : option py_exn) :
  json_loads data_str = Ok v ->
  is_object v = false ->
  Py.strip data_str <> "[DONE]" ->
  sess (endpoint_of url) (payload_of model prompt max_tokens) =
    Ok (mkResponse 200 (("data: " +:+ data_str) :: rest) failure) ->
  let r := fst (send_streaming_request json_loads clock sess url model prompt
                  max_tokens req_id tick) in
  error r = "'" +:+ Json.type_name v +:+ "' object has no attribute 'get'" /\
  tokens_received r = 0 /\
  stream_completed r = false.
Proof.
  intros Hv Hobj Hdone Hp r. unfold r.
  rewrite (send_200 json_loads clock sess url model prompt max_tokens req_id
             tick _ Hp eq_refl).
  cbn [resp_lines resp_failure]. rewrite read_lines_cons.
  change (String.eqb ("data: " +:+ data_str) "") with false.
  assert (Hpre : Py.startswith ("data: " +:+ data_str) "data: " = true).
  { unfold Py.startswith. cbn. now destruct data_str. }
  rewrite Hpre. cbn [negb orb].
  change (Py.drop 6 ("data: " +:+ data_str)) with data_str.
  apply String.eqb_neq in Hdone. rewrite Hdone.
  unfold handle_payload, extract. rewrite Hv.
  destruct v; try discriminate; repeat split; reflexivity.
Qed.

Lemma non_object_payload_aborts_witness :
  let events := ["data: " +:+ token_text; "data: [DONE]"] in
  let r := fst (send_streaming_request sample_loads tick_clock
                  (fixed_session (mkResponse 200 ("data: null" :: events) None))
                  "http://localhost:8000" "m" "p" 100 0 0) in
  let r' := fst (send_streaming_request sample_loads tick_clock
                   (fixed_session (mkResponse 200 events None))
                   "http://localhost:8000" "m" "p" 100 0 0) in
  (error r = "'NoneType' object has no attribute 'get'" /\
   tokens_received r = 0 /\ stream_completed r = false) /\
  (error r' = "" /\ tokens_received r' = 1 /\ stream_completed r' = true).
Proof.
  intros events r r'. split.
  - assert (Hdone : Py.strip "null" <> "[DONE]") by (vm_compute; discriminate).
    exact (non_object_payload_aborts sample_loads tick_clock
             (fixed_session (mkResponse 200 ("data: null" :: events) None))
             "http://localhost:8000" "m" "p" 100 0 0%nat "null" JNull events
             None eq_refl eq_refl Hdone eq_refl).
  - vm_compute. repeat split; reflexivity.
Defined.

(** ** The pool of workers *)

Lemma thread_updated (l : list pc) (i k : nat) (c c' ck : pc) :
  l !! i = Some c -> <[i := c']> l !! k = Some ck ->
  (k = i /\ ck = c') \/ (k <> i /\ l !! k = Some ck).
Proof.
  intros Hi Hk. destruct (decide (k = i)) as [->|Hne].
  - left. split; [reflexivity|].
    rewrite list_lookup_insert_eq in Hk by (eapply lookup_lt_Some; eauto).
    congruence.
  - right. split; [exact Hne|].
    rewrite list_lookup_insert_ne in Hk by congruence. exact Hk.
Qed.

Lemma held_updated (l : list pc) (i : nat) (c c' : pc) :
  l !! i = Some c ->
  exists others,
    l ≫= held_id ≡ₚ held_id c ++ others /\
    <[i := c']> l ≫= held_id ≡ₚ held_id c' ++ others.
Proof.
  intros Hi. exists ((take i l ≫= held_id) ++ (drop (S i) l ≫= held_id)).
  assert (Hlt : (i < length l)%nat) by (eapply lookup_lt_Some; eauto).
  split.
  - rewrite <- (take_drop_middle l i c Hi) at 1.
    rewrite bind_app, bind_cons.
    rewrite (assoc_L (++)), (comm (++) (take i l ≫= held_id)), <- (assoc_L (++)).
    reflexivity.
  - rewrite insert_take_drop by exact Hlt.
    rewrite bind_app, bind_cons.
    rewrite (assoc_L (++)), (comm (++) (take i l ≫= held_id)), <- (assoc_L (++)).
    reflexivity.
Qed.

Lemma ids_snoc (ids : list Z) :
  ids = seqZ 0 (Py.len ids) ->
  ids ++ [Py.len ids] = seqZ 0 (Py.len (ids ++ [Py.len ids])).
Proof.
  intros Hids.
  replace (Py.len (ids ++ [Py.len ids])) with (Py.len ids + 1)
    by (unfold Py.len; rewrite length_app; simpl; lia).
  rewrite seqZ_app by (unfold Py.len; lia).
  rewrite <- Hids. reflexivity.
Qed.

Lemma counter_ok_outside (n : Z) (s : pool) (c : pc) :
  in_counter_section c = false -> counter_ok n s c.
Proof. destruct c; simpl; intros H; (exact I || discriminate). Qed.

Lemma counter_ok_same (n : Z) (s s' : pool) (c : pc) :
  request_counter s' = request_counter s -> counter_ok n s c -> counter_ok n s' c.
Proof. intros Hr. destruct c; simpl; rewrite ?Hr; trivial. Qed.

(** A step that leaves the counter, its lock and the results alone, and
    moves thread [i] to a point outside the counter section with the same
    id in hand. *)
Lemma pool_inv_local (s s' : pool) (ids : list Z) (i : nat) (c c' : pc) :
  pool_inv s ids -> threads s !! i = Some c ->
  in_counter_section c' = false -> held_id c' = held_id c ->
  request_counter s' = request_counter s ->
  counter_lock s' = counter_lock s ->
  results s' = results s ->
  threads s' = <[i := c']> (threads s) ->
  pool_inv s' ids.
Proof.
  intros [Hids Hlock Hfree Hcnt Hacc] Hi Hout Hheld Hr Hl Hres Hth.
  constructor.
  - exact Hids.
  - intros k ck Hk Hin. rewrite Hth in Hk. rewrite Hl.
    apply (thread_updated _ _ _ _ _ _ Hi) in Hk as [[-> ->]|[Hne Hk]];
      [congruence | eauto].
  - rewrite Hl, Hr. exact Hfree.
  - intros k ck Hk. rewrite Hth in Hk.
    apply (thread_updated _ _ _ _ _ _ Hi) in Hk as [[-> ->]|[Hne Hk]].
    + now apply counter_ok_outside.
    + apply (counter_ok_same _ s); [exact Hr | eauto].
  - rewrite Hres, Hth.
    destruct (held_updated (threads s) i c c' Hi) as (others & H1 & H2).
    rewrite H2, Hheld, <- H1. exact Hacc.
Qed.

(** A step of the thread that is inside the counter section; no other
    thread is inside, so only what this thread knows has to be re-established. *)
Lemma pool_inv_holder (s s' : pool) (ids : list Z) (i : nat) (c c' : pc) :
  pool_inv s ids -> threads s !! i = Some c ->
  in_counter_section c = true -> held_id c' = held_id c ->
  results s' = results s ->
  threads s' = <[i := c']> (threads s) ->
  counter_ok (Py.len ids) s' c' ->
  (in_counter_section c' = true -> counter_lock s' = Some i) ->
  (counter_lock s' = None -> request_counter s' = Py.len ids) ->
  pool_inv s' ids.
Proof.
  intros [Hids Hlock Hfree Hcnt Hacc] Hi Hin Hheld Hres Hth Hok Hl' Hfree'.
  assert (Hexcl : forall k ck, k <> i -> threads s !! k = Some ck ->
            in_counter_section ck = false).
  { intros k ck Hne Hk. destruct (in_counter_section ck) eqn:Hck; [|reflexivity].
    pose proof (Hlock k ck Hk Hck) as Hk'.
    rewrite (Hlock i c Hi Hin) in Hk'. congruence. }
  constructor.
  - exact Hids.
  - intros k ck Hk Hck. rewrite Hth in Hk.
    apply (thread_updated _ _ _ _ _ _ Hi) in Hk as [[-> ->]|[Hne Hk]];
      [now apply Hl'|].
    rewrite (Hexcl k ck Hne Hk) in Hck. discriminate.
  - exact Hfree'.
  - intros k ck Hk. rewrite Hth in Hk.
    apply (thread_updated _ _ _ _ _ _ Hi) in Hk as [[-> ->]|[Hne Hk]];
      [exact Hok|].
    apply counter_ok_outside. eauto.
  - rewrite Hres, Hth.
    destruct (held_updated (threads s) i c c' Hi) as (others & H1 & H2).
    rewrite H2, Hheld, <- H1. exact Hacc.
Qed.

Section PoolInvariant.

Variable json_loads : string -> res json.
Variables url model : string.
Variable prompts : list string.
Variable max_tokens : Z.

Lemma worker_step_inv (i : nat) (e : env) (c : pc) (s : pool) (ids : list Z) :
  pool_inv s ids -> threads s !! i = Some c ->
  pool_inv (fst (worker_step json_loads url model prompts max_tokens i e c s))
           (ids ++ option_list
              (snd (worker_step json_loads url model prompts max_tokens i e c s))).
Proof.
  intros Hinv Hi.
  destruct c; cbn [worker_step].
  - (* AtLoopTest *)
    cbn [fst snd option_list]. rewrite app_nil_r.
    apply (pool_inv_local s _ ids i _
             (if stop_event s then AtClose else AtChoosePrompt) Hinv Hi);
      try reflexivity; destruct (stop_event s); reflexivity.
  - (* AtChoosePrompt *)
    destruct (random_choice prompts (env_choice e)) as [prompt|ex];
      cbn [fst snd option_list]; rewrite app_nil_r.
    + apply (pool_inv_local s _ ids i _ (AtAcquireCounter prompt) Hinv Hi);
        reflexivity.
    + apply (pool_inv_local s _ ids i _ (Failed ex) Hinv Hi); reflexivity.
  - (* AtAcquireCounter *)
    destruct (counter_lock s) as [h|] eqn:Hl;
      cbn [fst snd option_list]; rewrite app_nil_r; [exact Hinv|].
    destruct Hinv as [Hids Hlock Hfree Hcnt Hacc].
    constructor; cbn [request_counter counter_lock results threads].
    + exact Hids.
    + intros k ck Hk Hin.
      apply (thread_updated _ _ _ _ _ _ Hi) in Hk as [[-> ->]|[Hne Hk]];
        [reflexivity|].
      specialize (Hlock k ck Hk Hin). congruence.
    + discriminate.
    + intros k ck Hk.
      apply (thread_updated _ _ _ _ _ _ Hi) in Hk as [[-> ->]|[Hne Hk]].
      * simpl. now apply Hfree.
      * apply (counter_ok_same _ s); [reflexivity | eauto].
    + destruct (held_updated (threads s) i _ (AtReadCounter prompt) Hi)
        as (others & H1 & H2).
      rewrite H2. rewrite H1 in Hacc. exact Hacc.
  - (* AtReadCounter *)
    destruct Hinv as [Hids Hlock Hfree Hcnt Hacc].
    pose proof (Hlock i _ Hi eq_refl) as Hl.
    pose proof (Hcnt i _ Hi) as Hc. simpl in Hc.
    cbn [fst snd option_list].
    constructor; cbn [request_counter counter_lock results threads set_thread].
    + rewrite Hc. now apply ids_snoc.
    + intros k ck Hk Hin.
      apply (thread_updated _ _ _ _ _ _ Hi) in Hk as [[-> ->]|[Hne Hk]];
        [exact Hl | eauto].
    + rewrite Hl. discriminate.
    + intros k ck Hk.
      apply (thread_updated _ _ _ _ _ _ Hi) in Hk as [[-> ->]|[Hne Hk]].
      * simpl. split; [reflexivity|]. unfold Py.len. rewrite length_app.
        simpl. unfold Py.len in Hc. lia.
      * apply counter_ok_outside.
        destruct (in_counter_section ck) eqn:Hck; [|reflexivity].
        specialize (Hlock k ck Hk Hck). congruence.
    + destruct (held_updated (threads s) i _
                  (AtLoadCounter prompt (request_counter s)) Hi)
        as (others & H1 & H2).
      rewrite H2. rewrite H1 in Hacc. simpl in Hacc. simpl held_id.
      etransitivity; [symmetry; apply Permutation_cons_append|].
      simpl. rewrite <- Permutation_middle. now apply perm_skip.
  - (* AtLoadCounter *)
    cbn [fst snd option_list]. rewrite app_nil_r.
    pose proof (inv_lock _ _ Hinv i _ Hi eq_refl) as Hl.
    pose proof (inv_counter _ _ Hinv i _ Hi) as Hc. simpl in Hc.
    apply (pool_inv_holder s _ ids i _
             (AtStoreCounter prompt req_id (request_counter s)) Hinv Hi);
      try reflexivity.
    + simpl. tauto.
    + intros _. exact Hl.
    + simpl. rewrite Hl. discriminate.
  - (* AtStoreCounter *)
    cbn [fst snd option_list]. rewrite app_nil_r.
    pose proof (inv_lock _ _ Hinv i _ Hi eq_refl) as Hl.
    pose proof (inv_counter _ _ Hinv i _ Hi) as Hc. simpl in Hc.
    apply (pool_inv_holder s _ ids i _ (AtReleaseCounter prompt req_id)
             Hinv Hi); try reflexivity.
    + simpl. lia.
    + intros _. exact Hl.
    + simpl. rewrite Hl. discriminate.
  - (* AtReleaseCounter *)
    cbn [fst snd option_list]. rewrite app_nil_r.
    pose proof (inv_counter _ _ Hinv i _ Hi) as Hc. simpl in Hc.
    apply (pool_inv_holder s _ ids i _ (AtSend prompt req_id) Hinv Hi);
      try reflexivity; try exact I.
    + discriminate.
    + intros _. exact Hc.
  - (* AtSend *)
    cbn [fst snd option_list]. rewrite app_nil_r.
    apply (pool_inv_local s _ ids i _
             (AtAcquireResults
                (fst (send_streaming_request json_loads (env_clock e)
                        (env_session e) url model prompt max_tokens req_id
                        (env_tick e)))) Hinv Hi); try reflexivity.
    simpl. now rewrite send_request_id.
  - (* AtAcquireResults *)
    destruct (results_lock s) as [h|] eqn:Hl;
      cbn [fst snd option_list]; rewrite app_nil_r; [exact Hinv|].
    apply (pool_inv_local s _ ids i _ (AtAppend result) Hinv Hi);
      reflexivity.
  - (* AtAppend *)
    cbn [fst snd option_list]. rewrite app_nil_r.
    destruct Hinv as [Hids Hlock Hfree Hcnt Hacc].
    constructor; cbn [request_counter counter_lock results threads].
    + exact Hids.
    + intros k ck Hk Hin.
      apply (thread_updated _ _ _ _ _ _ Hi) in Hk as [[-> ->]|[Hne Hk]];
        [discriminate | eauto].
    + exact Hfree.
    + intros k ck Hk.
      apply (thread_updated _ _ _ _ _ _ Hi) in Hk as [[-> ->]|[Hne Hk]];
        [exact I|].
      apply (counter_ok_same _ s); [reflexivity | eauto].
    + destruct (held_updated (threads s) i _ AtReleaseResults Hi)
        as (others & H1 & H2).
      rewrite H2. rewrite H1 in Hacc. simpl in *.
      rewrite Hacc, map_app. simpl. rewrite <- (assoc_L (++)). reflexivity.
  - (* AtReleaseResults *)
    cbn [fst snd option_list]. rewrite app_nil_r.
    apply (pool_inv_local s _ ids i _ AtLoopTest Hinv Hi); reflexivity.
  - (* AtClose *)
    cbn [fst snd option_list]. rewrite app_nil_r.
    apply (pool_inv_local s _ ids i _ Returned Hinv Hi); reflexivity.
  - cbn [fst snd option_list]. rewrite app_nil_r. exact Hinv.
  - cbn [fst snd option_list]. rewrite app_nil_r. exact Hinv.
Qed.

Lemma step_inv (a : action) (s : pool) (ids : list Z) :
  pool_inv s ids ->
  pool_inv (fst (step json_loads url model prompts max_tokens a s))
           (ids ++ option_list
              (snd (step json_loads url model prompts max_tokens a s))).
Proof.
  intros Hinv. destruct a as [i e|]; cbn [step].
  - destruct (threads s !! i) as [c|] eqn:Hi.
    + now apply worker_step_inv.
    + cbn [fst snd option_list]. rewrite app_nil_r. exact Hinv.
  - cbn [fst snd option_list]. rewrite app_nil_r.
    destruct Hinv as [Hids Hlock Hfree Hcnt Hacc].
    constructor; cbn [request_counter counter_lock results threads];
      assumption.
Qed.

Lemma init_inv (n : nat) : pool_inv (fst (init n)) (snd (init n)).
Proof.
  constructor; simpl.
  - reflexivity.
  - intros i c Hc. apply lookup_replicate in Hc as [-> _]. discriminate.
  - reflexivity.
  - intros i c Hc. apply lookup_replicate in Hc as [-> _]. exact I.
  - induction n as [|n IH]; simpl; [reflexivity | exact IH].
Qed.

Lemma run_inv (sched : list action) (st : pool * list Z) :
  pool_inv (fst st) (snd st) ->
  pool_inv (fst (run json_loads url model prompts max_tokens sched st))
           (snd (run json_loads url model prompts max_tokens sched st)).
Proof.
  revert st. induction sched as [|a sched IH]; intros st Hinv; [exact Hinv|].
  unfold run. simpl foldl. apply IH. unfold run_step.
  pose proof (step_inv a (fst st) (snd st) Hinv) as Hstep.
  destruct (step json_loads url model prompts max_tokens a (fst st))
    as [s' assigned]. exact Hstep.
Qed.

End PoolInvariant.

Lemma seqZ_sorted (k : nat) (m : Z) : StronglySorted Z.lt (seqZ m (Z.of_nat k)).
Proof.
  revert m. induction k as [|k IH]; intros m.
  - rewrite seqZ_nil by lia. constructor.
  - rewrite seqZ_cons by lia.
    replace (Z.pred (Z.of_nat (S k))) with (Z.of_nat k) by lia.
    constructor; [apply IH|]. apply Forall_seqZ. intros; lia.
Qed.

Lemma joined_holds_nothing (s : pool) :
  joined s = true -> threads s ≫= held_id = [].
Proof.
  unfold joined. induction (threads s) as [|c l IH]; intros H; [reflexivity|].
  cbn [forallb] in H. apply andb_prop in H as [Hc Hl].
  rewrite bind_cons, (IH Hl). destruct c; try discriminate; reflexivity.
Qed.


(** C8. Whatever the number of workers and the schedule, the request ids
    drawn from the shared counter are, in the order of assignment,
    0, 1, 2, ...: pairwise distinct, non-negative and strictly increasing.
    The outcomes collected so far carry distinct ids, and once every worker
    has left its loop the collected outcomes carry exactly the assigned ids,
    so the set of assigned ids has as many elements as there are outcomes. *)
Theorem request_ids_unique (json_loads : string -> res json)
    (url model : string) (prompts : list string) (max_tokens : Z)
    (n : nat) (sched : list action) :
  let final := run json_loads url model prompts max_tokens sched (init n) in
  let ids := snd final in
  let collected := map request_id (results (fst final)) in
  NoDup ids /\ Forall (fun id => 0 <= id) ids /\ StronglySorted Z.lt ids /\
  ids = seqZ 0 (Py.len ids) /\
  NoDup collected /\ collected ⊆+ ids /\
  (joined (fst final) = true ->
   collected ≡ₚ ids /\
   size (list_to_set ids : gset Z) = length (results (fst final))).
Proof.
  intros final ids collected.
  destruct (run_inv json_loads url model prompts max_tokens sched (init n)
              (init_inv n)) as [Hids _ _ _ Hacc].
  fold final in Hids, Hacc. fold ids in Hids, Hacc. fold collected in Hacc.
  assert (Hnd : NoDup ids) by (rewrite Hids; apply NoDup_seqZ).
  split; [exact Hnd|].
  split; [rewrite Hids; apply Forall_seqZ; intros; lia|].
  split; [rewrite Hids; unfold Py.len; apply seqZ_sorted|].
  split; [exact Hids|].
  split; [rewrite Hacc in Hnd; now apply NoDup_app in Hnd|].
  split; [rewrite Hacc; apply submseteq_inserts_r; reflexivity|].
  intros Hj. rewrite (joined_holds_nothing _ Hj), app_nil_r in Hacc.
  split; [symmetry; exact Hacc|].
  rewrite size_list_to_set by exact Hnd.
  rewrite Hacc. unfold collected. apply length_map.
Qed.

Lemma request_ids_unique_witness :
  let final := run sample_loads "http://localhost:8000" "m" ["p"] 100
                 (sample_schedule 20) (init 2) in
  joined (fst final) = true /\
  snd final = [0; 1; 2; 3] /\
  map request_id (results (fst final)) ≡ₚ snd final /\
  size (list_to_set (snd final) : gset Z) = length (results (fst final)).
Proof.
  intros final.
  assert (Hj : joined (fst final) = true) by (vm_compute; reflexivity).
  split; [exact Hj|]. split; [vm_compute; reflexivity|].
  destruct (request_ids_unique sample_loads "http://localhost:8000" "m" ["p"]
              100 2 (sample_schedule 20)) as (_ & _ & _ & _ & _ & _ & Hfinal).
  exact (Hfinal Hj).
Defined.

(** * Further properties of [send_streaming_request] *)

Section ReadingLoopMore.

Variable json_loads : string -> res json.
Variable clock : nat -> Q.

(** Nothing after the sentinel is looked at. *)
Lemma done_line_stops (pre post : list string) (line : string)
    (failure : option py_exn) (st : loop_state) :
  is_done_line line = true ->
  read_lines json_loads clock (pre ++ line :: post) failure st =
  read_lines json_loads clock (pre ++ [line]) None st.
Proof.
  intros Hd. unfold is_done_line, is_data_line in Hd.
  apply andb_prop in Hd as [Hdata Hdone]. apply negb_true_iff in Hdata.
  revert st. induction pre as [|l pre IH]; intros st.
  - cbn [app]. rewrite !read_lines_cons, Hdata, Hdone. reflexivity.
  - cbn [app]. rewrite !read_lines_cons.
    destruct (String.eqb l "" || negb (Py.startswith l "data: "));
      [apply IH|].
    destruct (String.eqb (Py.strip (Py.drop 6 l)) "[DONE]"); [reflexivity|].
    destruct (handle_payload json_loads clock (Py.drop 6 l) st)
      as [st' [e|]]; [reflexivity | apply IH].
Qed.


End ReadingLoopMore.

Section SendMore.

Variable json_loads : string -> res json.
Variable clock : nat -> Q.
Variables url model prompt : string.
Variables max_tokens req_id : Z.
Variable tick : nat.

(** The request against a server that answers 200 with a given body. *)
Lemma send_fixed_200 (lines : list string) (failure : option py_exn) :
  send_streaming_request json_loads clock
    (fixed_session (mkResponse 200 lines failure))
    url model prompt max_tokens req_id tick =
  let '(st, raised) :=
    read_lines json_loads clock lines failure
      (mkLoop (set_status_code (fresh_result req_id (clock tick)) 200)
              None (S tick)) in
  match raised with
  | Some e =>
    finish_request clock (set_error (ls_result st) (error_of_exn e)) (ls_tick st)
  | None => finish_request clock (ls_result st) (ls_tick st)
  end.
Proof.
  apply (send_200 json_loads clock
           (fixed_session (mkResponse 200 lines failure))
           url model prompt max_tokens req_id tick
           (mkResponse 200 lines failure)); reflexivity.
Qed.

End SendMore.

(** The loop reads the event lines only. *)
Lemma read_lines_events_only (json_loads : string -> res json)
    (clock : nat -> Q) (lines : list string) (failure : option py_exn)
    (st : loop_state) :
  read_lines json_loads clock lines failure st =
  read_lines json_loads clock
    (filter (fun l => is_data_line l = true) lines) failure st.
Proof.
  revert st. induction lines as [|l lines IH]; intros st; [reflexivity|].
  destruct (decide (is_data_line l = true)) as [Hd|Hd].
  - rewrite filter_cons_True by exact Hd. rewrite !read_lines_cons.
    unfold is_data_line in Hd. apply negb_true_iff in Hd. rewrite Hd.
    destruct (String.eqb (Py.strip (Py.drop 6 l)) "[DONE]"); [reflexivity|].
    destruct (handle_payload json_loads clock (Py.drop 6 l) st)
      as [st' [e|]]; [reflexivity | apply IH].
  - rewrite filter_cons_False by exact Hd. rewrite read_lines_cons.
    unfold is_data_line in Hd. apply not_true_is_false, negb_false_iff in Hd.
    rewrite Hd. apply IH.
Qed.

(** Text and the lists of its characters. *)
Lemma string_of_list_ascii_app (x y : list Ascii.ascii) :
  String.string_of_list_ascii (x ++ y) =
  String.string_of_list_ascii x +:+ String.string_of_list_ascii y.
Proof. induction x as [|a x IH]; [reflexivity|]. simpl. now rewrite IH. Qed.

Lemma lstrip_list_suffix (l : list Ascii.ascii) :
  exists a, l = a ++ Py.lstrip_list l.
Proof.
  induction l as [|c l [a IH]]; [now exists []|].
  simpl. destruct (Py.isspace c).
  - exists (c :: a). simpl. now rewrite <- IH.
  - now exists [].
Qed.

(** [s.strip()] is a piece of [s]. *)
Lemma strip_infix (s : string) : exists a b, s = a +:+ Py.strip s +:+ b.
Proof.
  unfold Py.strip.
  destruct (lstrip_list_suffix (String.list_ascii_of_string s)) as [a Ha].
  destruct (lstrip_list_suffix
              (rev (Py.lstrip_list (String.list_ascii_of_string s))))
    as [c Hc].
  exists (String.string_of_list_ascii a),
         (String.string_of_list_ascii (rev c)).
  rewrite <- !string_of_list_ascii_app, <- rev_app_distr, <- Hc,
    rev_involutive, <- Ha.
  symmetry. apply String.string_of_list_ascii_of_string.
Qed.

Lemma substring_prefix (t b : string) :
  String.substring 0 (String.length t) (t +:+ b) = t.
Proof.
  induction t as [|c t IH]; [now destruct b|].
  change (String c t +:+ b) with (String c (t +:+ b)).
  simpl. now rewrite IH.
Qed.

Lemma substring_infix (a t b : string) :
  String.substring (String.length a) (String.length t) (a +:+ t +:+ b) = t.
Proof.
  induction a as [|c a IH]; [|exact IH].
  change ("" +:+ t +:+ b) with (t +:+ b). apply substring_prefix.
Qed.

(** A text that does not contain [t] is not stripped to [t], whatever the
    white space stripped. *)
Lemma strip_not_found (s t : string) :
  t <> "" -> String.index 0 t s = None -> Py.strip s <> t.
Proof.
  intros Ht Hi Hs. destruct (strip_infix s) as (a & b & E).
  rewrite Hs in E.
  apply (String.index_correct3 0 (String.length a) t s Hi Ht); [lia|].
  rewrite E at 1. apply substring_infix.
Qed.

(** X1. In a response whose lines are text, the lines that are not events
    (empty lines, comments, other fields) are ignored: the request gives the
    result, and reads the clock as often, as for the body made of the event
    lines alone. *)
Theorem non_data_lines_ignored (json_loads : string -> res json)
    (clock : nat -> Q) (url model prompt : string) (max_tokens req_id : Z)
    (tick : nat) (lines : list string) (failure : option py_exn) :
  send_streaming_request json_loads clock
    (fixed_session (mkResponse 200 lines failure))
    url model prompt max_tokens req_id tick =
  send_streaming_request json_loads clock
    (fixed_session
       (mkResponse 200 (filter (fun l => is_data_line l = true) lines) failure))
    url model prompt max_tokens req_id tick.
Proof.
  rewrite !send_fixed_200.
  now rewrite (read_lines_events_only json_loads clock lines failure).
Qed.

(** X2. In a response whose lines are text, the sentinel, alone or between
    ASCII white space, ends the reading: whatever follows the [DONE] line,
    further events or an exception of the iterator, has no influence on the
    result; a body that starts with the sentinel gives a completed stream
    without error and without tokens. *)
Theorem done_sentinel_ends_stream (json_loads : string -> res json)
    (clock : nat -> Q) (url model prompt : string) (max_tokens req_id : Z)
    (tick : nat) (pre post : list string) (data_str : string)
    (failure : option py_exn) :
  Py.strip data_str = "[DONE]" ->
  let line := "data: " +:+ data_str in
  send_streaming_request json_loads clock
    (fixed_session (mkResponse 200 (pre ++ line :: post) failure))
    url model prompt max_tokens req_id tick =
  send_streaming_request json_loads clock
    (fixed_session (mkResponse 200 (pre ++ [line]) None))
    url model prompt max_tokens req_id tick /\
  let r := fst (send_streaming_request json_loads clock
                  (fixed_session (mkResponse 200 (line :: post) failure))
                  url model prompt max_tokens req_id tick) in
  stream_completed r = true /\ error r = "" /\ tokens_received r = 0.
Proof.
  intros Hs line.
  assert (Hdata : String.eqb line "" || negb (Py.startswith line "data: ")
                  = false).
  { unfold line, Py.startswith. cbn. now destruct data_str. }
  assert (Hdone : String.eqb (Py.strip (Py.drop 6 line)) "[DONE]" = true).
  { change (Py.drop 6 line) with data_str. now apply String.eqb_eq. }
  assert (Hd : is_done_line line = true).
  { unfold is_done_line, is_data_line. now rewrite Hdata, Hdone. }
  split.
  - rewrite !send_fixed_200.
    now rewrite (done_line_stops json_loads clock pre post line failure _ Hd).
  - rewrite send_fixed_200, read_lines_cons, Hdata, Hdone.
    repeat split; reflexivity.
Qed.

Lemma done_sentinel_ends_stream_witness :
  Py.strip " [DONE] " = "[DONE]" /\
  send_streaming_request sample_loads tick_clock
    (fixed_session
       (mkResponse 200 ["data: " +:+ token_text; "data:  [DONE] ";
                        "data: " +:+ token_text]
                   (Some (ChunkedEncodingError "Connection broken"))))
    "http://localhost:8000" "m" "p" 100 0 0 =
  send_streaming_request sample_loads tick_clock
    (fixed_session
       (mkResponse 200 ["data: " +:+ token_text; "data:  [DONE] "] None))
    "http://localhost:8000" "m" "p" 100 0 0.
Proof.
  split; [reflexivity|].
  exact (proj1 (done_sentinel_ends_stream sample_loads tick_clock
           "http://localhost:8000" "m" "p" 100 0 0%nat
           ["data: " +:+ token_text] ["data: " +:+ token_text]
           " [DONE] " (Some (ChunkedEncodingError "Connection broken"))
           eq_refl)).
Defined.

(** X3. Scenario C.  In a response whose lines are text, an event whose
    payload [json.loads] rejects and which does not contain the text of the
    sentinel is skipped: the request gives the same result, error field and
    token count included, as without that event. *)
Theorem unparsable_event_ignored (json_loads : string -> res json)
    (clock : nat -> Q) (url model prompt : string) (max_tokens req_id : Z)
    (tick : nat) (pre post : list string) (data_str msg : string)
    (failure : option py_exn) :
  json_loads data_str = Raise (JSONDecodeError msg) ->
  String.index 0 "[DONE]" data_str = None ->
  send_streaming_request json_loads clock
    (fixed_session
       (mkResponse 200 (pre ++ ("data: " +:+ data_str) :: post) failure))
    url model prompt max_tokens req_id tick =
  send_streaming_request json_loads clock
    (fixed_session (mkResponse 200 (pre ++ post) failure))
    url model prompt max_tokens req_id tick.
Proof.
  intros Hp Hfree.
  assert (Hdone : Py.strip data_str <> "[DONE]")
    by (apply strip_not_found; [discriminate | exact Hfree]).
  rewrite !send_fixed_200.
  now rewrite (unparsable_event_skipped json_loads clock pre post data_str msg
                 failure _ Hp Hdone).
Qed.

Lemma unparsable_event_ignored_witness :
  (sample_loads "{oops" = Raise (JSONDecodeError "Expecting value") /\
   String.index 0 "[DONE]" "{oops" = None) /\
  send_streaming_request sample_loads tick_clock
    (fixed_session
       (mkResponse 200 ["data: {oops"; "data: " +:+ token_text; "data: [DONE]"]
                   None))
    "http://localhost:8000" "m" "p" 100 0 0 =
  send_streaming_request sample_loads tick_clock
    (fixed_session
       (mkResponse 200 ["data: " +:+ token_text; "data: [DONE]"] None))
    "http://localhost:8000" "m" "p" 100 0 0.
Proof.
  split; [split; reflexivity|].
  exact (unparsable_event_ignored sample_loads tick_clock
           "http://localhost:8000" "m" "p" 100 0 0%nat []
           ["data: " +:+ token_text; "data: [DONE]"] "{oops"
           "Expecting value" None eq_refl eq_refl).
Defined.

Section LoopInvariants.

Variable json_loads : string -> res json.
Variable clock : nat -> Q.

(** A property of the loop state kept by the two updates of the [try] body
    and by the sentinel is kept by the whole loop. *)
Lemma read_lines_preserves (P : loop_state -> Prop) :
  (forall text st, P st -> P (count_token clock text st)) ->
  (forall finish st, P st -> P (record_finish finish st)) ->
  (forall st, P st ->
     P (mkLoop (set_stream_completed (ls_result st) true)
               (ls_first_token_time st) (ls_tick st))) ->
  forall lines failure st,
    P st -> P (fst (read_lines json_loads clock lines failure st)).
Proof.
  intros Hcount Hfinish Hdone lines failure.
  induction lines as [|l lines IH]; intros st Hst; [exact Hst|].
  rewrite read_lines_cons.
  destruct (String.eqb l "" || negb (Py.startswith l "data: "));
    [now apply IH|].
  destruct (String.eqb (Py.strip (Py.drop 6 l)) "[DONE]");
    [now apply Hdone|].
  assert (Hstep : P (fst (handle_payload json_loads clock (Py.drop 6 l) st))).
  { unfold handle_payload.
    destruct (extract json_loads (Py.drop 6 l)) as [[text finish]|e];
      [apply Hfinish, Hcount, Hst | exact Hst]. }
  destruct (handle_payload json_loads clock (Py.drop 6 l) st) as [st' [e|]];
    [exact Hstep | now apply IH].
Qed.

(** The loop leaves the fields set before it alone, and sets no error. *)
Lemma read_lines_frame (lines : list string) (failure : option py_exn)
    (st : loop_state) :
  let st' := fst (read_lines json_loads clock lines failure st) in
  request_id (ls_result st') = request_id (ls_result st) /\
  start_time (ls_result st') = start_time (ls_result st) /\
  status_code (ls_result st') = status_code (ls_result st) /\
  error (ls_result st') = error (ls_result st) /\
  total_time (ls_result st') = total_time (ls_result st).
Proof.
  apply (read_lines_preserves (fun st' =>
    request_id (ls_result st') = request_id (ls_result st) /\
    start_time (ls_result st') = start_time (ls_result st) /\
    status_code (ls_result st') = status_code (ls_result st) /\
    error (ls_result st') = error (ls_result st) /\
    total_time (ls_result st') = total_time (ls_result st))).
  - intros text st0 H. unfold count_token.
    destruct (Json.truthy text), (ls_first_token_time st0); exact H.
  - intros finish st0 H. destruct finish; exact H.
  - intros st0 H. exact H.
  - repeat split; reflexivity.
Qed.

Lemma read_lines_timing (t : nat) (lines : list string)
    (failure : option py_exn) (st : loop_state) :
  timing_inv clock t st ->
  timing_inv clock t (fst (read_lines json_loads clock lines failure st)).
Proof.
  apply (read_lines_preserves (timing_inv clock t)).
  - intros text st0 H. unfold count_token.
    destruct (Json.truthy text); [|exact H].
    unfold timing_inv in *.
    destruct (ls_first_token_time st0) as [now|]; simpl in *.
    + exact H.
    + destruct H as [-> _]. repeat split; reflexivity.
  - intros finish st0 H. unfold timing_inv in *.
    destruct finish; exact H.
  - intros st0 H. exact H.
Qed.

(** A completion reason is only ever stored together with the completion
    flag, and the flag is never reset. *)
Lemma read_lines_finish (lines : list string) (failure : option py_exn)
    (st : loop_state) :
  finish_reason (ls_result st) = JStr "" \/ stream_completed (ls_result st) = true ->
  let st' := fst (read_lines json_loads clock lines failure st) in
  finish_reason (ls_result st') = JStr "" \/
  stream_completed (ls_result st') = true.
Proof.
  apply (read_lines_preserves (fun st' =>
    finish_reason (ls_result st') = JStr "" \/
    stream_completed (ls_result st') = true)).
  - intros text st0 H. unfold count_token.
    destruct (Json.truthy text), (ls_first_token_time st0); exact H.
  - intros finish st0 H. destruct finish; simpl; auto.
  - intros st0 H. simpl. auto.
Qed.

(** Every counted token comes from one event line. *)
Lemma read_lines_token_bound (lines : list string) (failure : option py_exn)
    (st : loop_state) :
  let st' := fst (read_lines json_loads clock lines failure st) in
  tokens_received (ls_result st) <= tokens_received (ls_result st') <=
  tokens_received (ls_result st) + Py.len (filter (fun l => is_data_line l = true) lines).
Proof.
  unfold Py.len. revert st. induction lines as [|l lines IH]; intros st.
  - simpl. lia.
  - rewrite read_lines_cons.
    destruct (decide (is_data_line l = true)) as [Hd|Hd].
    + rewrite filter_cons_True by exact Hd.
      unfold is_data_line in Hd. apply negb_true_iff in Hd. rewrite Hd.
      simpl length.
      destruct (String.eqb (Py.strip (Py.drop 6 l)) "[DONE]"); [simpl; lia|].
      assert (Hstep :
        tokens_received (ls_result st) <=
        tokens_received
          (ls_result (fst (handle_payload json_loads clock (Py.drop 6 l) st)))
        <= tokens_received (ls_result st) + 1).
      { unfold handle_payload.
        destruct (extract json_loads (Py.drop 6 l)) as [[text finish]|e];
          simpl; [|lia].
        unfold count_token.
        destruct (Json.truthy text), (ls_first_token_time st), finish;
          simpl; lia. }
      destruct (handle_payload json_loads clock (Py.drop 6 l) st)
        as [st' [e|]]; simpl in *; [lia|].
      specialize (IH st'). simpl in IH. lia.
    + rewrite filter_cons_False by exact Hd.
      unfold is_data_line in Hd. apply not_true_is_false, negb_false_iff in Hd.
      rewrite Hd. apply IH.
Qed.

End LoopInvariants.

(** X4. When the POST itself fails no status was received: [status_code]
    stays 0, nothing is counted, the clock is read twice, and [error] is
    ["connection_reset"] for a connection error, which includes a connect
    timeout, ["stream_interrupted"] for a chunked encoding error, ["timeout"]
    for any other timeout, and the message of the exception otherwise. *)
Theorem post_failure_result (json_loads : string -> res json)
    (clock : nat -> Q) (sess : session) (url model prompt : string)
    (max_tokens req_id : Z) (tick : nat) (e : py_exn) :
  sess (endpoint_of url) (payload_of model prompt max_tokens) = Raise e ->
  let out := send_streaming_request json_loads clock sess url model prompt
               max_tokens req_id tick in
  status_code (fst out) = 0 /\
  tokens_received (fst out) = 0 /\
  ttft (fst out) = 0%Q /\
  stream_completed (fst out) = false /\
  snd out = S (S tick) /\
  error (fst out) =
    match e with
    | ConnectionError _ | ConnectTimeout _ => "connection_reset"
    | ChunkedEncodingError _ => "stream_interrupted"
    | ReadTimeout _ => "timeout"
    | JSONDecodeError m | IndexError m | KeyError m | AttributeError m
    | TypeError m | OtherException m => m
    end.
Proof.
  intros Hp out. unfold out.
  rewrite (send_post_raises json_loads clock sess url model prompt max_tokens
             req_id tick e Hp).
  repeat (split; [reflexivity|]). destruct e; reflexivity.
Qed.

Lemma post_failure_result_witness :
  let out := send_streaming_request sample_loads tick_clock
               (fun _ _ => Raise (ConnectTimeout "timed out"))
               "http://localhost:8000" "m" "p" 100 3 0 in
  status_code (fst out) = 0 /\ tokens_received (fst out) = 0 /\
  error (fst out) = "connection_reset".
Proof.
  intros out.
  destruct (post_failure_result sample_loads tick_clock
              (fun _ _ => Raise (ConnectTimeout "timed out"))
              "http://localhost:8000" "m" "p" 100 3 0%nat
              (ConnectTimeout "timed out") eq_refl)
    as (Hs & Ht & _ & _ & _ & He).
  repeat split; assumption.
Defined.


(** The clock readings of a request. *)
Lemma send_timing (json_loads : string -> res json)
    (clock : nat -> Q) (sess : session) (url model prompt : string)
    (max_tokens req_id : Z) (tick : nat) :
  let out := send_streaming_request json_loads clock sess url model prompt
               max_tokens req_id tick in
  let r := fst out in
  request_id r = req_id /\
  start_time r = clock tick /\
  ((tokens_received r = 0 /\ ttft r = 0%Q /\ snd out = S (S tick) /\
    total_time r = (clock (S tick) - clock tick)%Q) \/
   (1 <= tokens_received r /\ snd out = S (S (S tick)) /\
    ttft r = (clock (S tick) - clock tick)%Q /\
    total_time r = (clock (S (S tick)) - clock tick)%Q)).
Proof.
  intros out r. unfold r, out.
  split; [apply send_request_id|].
  destruct (sess (endpoint_of url) (payload_of model prompt max_tokens))
    as [resp|e] eqn:Hp.
  - destruct (Z.eq_dec (resp_status_code resp) 200) as [Hs|Hs].
    + rewrite (send_200 json_loads clock sess url model prompt max_tokens
                 req_id tick resp Hp Hs).
      set (st0 := mkLoop (set_status_code (fresh_result req_id (clock tick)) 200)
                         None (S tick)).
      pose proof (read_lines_frame json_loads clock (resp_lines resp)
                    (resp_failure resp) st0) as (_ & Hstart & _).
      pose proof (read_lines_timing json_loads clock (S tick) (resp_lines resp)
                    (resp_failure resp) st0) as Htime.
      pose proof (read_lines_inv json_loads clock (resp_lines resp)
                    (resp_failure resp) st0) as Htok.
      specialize (Htime (conj eq_refl eq_refl)).
      specialize (Htok (conj eq_refl eq_refl)).
      unfold timing_inv in Htime. unfold token_inv in Htok.
      destruct (read_lines json_loads clock (resp_lines resp)
                  (resp_failure resp) st0) as [st raised].
      simpl in Hstart, Htime, Htok.
      assert (Hgoal : forall res0,
        start_time res0 = start_time (ls_result st) ->
        tokens_received res0 = tokens_received (ls_result st) ->
        ttft res0 = ttft (ls_result st) ->
        let out := finish_request clock res0 (ls_tick st) in
        start_time (fst out) = clock tick /\
        ((tokens_received (fst out) = 0 /\ ttft (fst out) = 0%Q /\
          snd out = S (S tick) /\
          total_time (fst out) = (clock (S tick) - clock tick)%Q) \/
         (1 <= tokens_received (fst out) /\ snd out = S (S (S tick)) /\
          ttft (fst out) = (clock (S tick) - clock tick)%Q /\
          total_time (fst out) = (clock (S (S tick)) - clock tick)%Q))).
      { intros res0 H1 H2 H3. unfold finish_request, time_time. simpl.
        rewrite H1, H2, H3, Hstart. split; [reflexivity|].
        destruct (ls_first_token_time st) as [now|].
        - right. destruct Htime as (_ & -> & ->). rewrite Hstart.
          repeat split; [exact Htok | reflexivity..].
        - left. destruct Htime as [-> ->]. destruct Htok as [-> _].
          repeat split; reflexivity. }
      destruct raised as [e|]; apply Hgoal; reflexivity.
    + rewrite (send_not_200 json_loads clock sess url model prompt max_tokens
                 req_id tick resp Hp Hs).
      split; [reflexivity|]. left. repeat split; reflexivity.
  - rewrite (send_post_raises json_loads clock sess url model prompt max_tokens
               req_id tick e Hp).
    split; [reflexivity|]. left. repeat split; reflexivity.
Qed.

(** X6. The clock is read when the request starts, when the first token
    arrives and when the request ends, and at no other time: [start_time] is
    the first reading, [total_time] the last reading minus the first, and
    [ttft] the second minus the first when a token was received. *)
Theorem request_timing (json_loads : string -> res json)
    (clock : nat -> Q) (sess : session) (url model prompt : string)
    (max_tokens req_id : Z) (tick : nat) :
  let out := send_streaming_request json_loads clock sess url model prompt
               max_tokens req_id tick in
  let r := fst out in
  request_id r = req_id /\
  start_time r = clock tick /\
  ((tokens_received r = 0 /\ ttft r = 0%Q /\ snd out = S (S tick) /\
    total_time r = (clock (S tick) - clock tick)%Q) \/
   (1 <= tokens_received r /\ snd out = S (S (S tick)) /\
    ttft r = (clock (S tick) - clock tick)%Q /\
    total_time r = (clock (S (S tick)) - clock tick)%Q)).
Proof. apply send_timing. Qed.

(** X7. With a clock that does not run backwards, the time to the first
    token is between 0 and the total time of the request. *)
Theorem ttft_within_total_time (json_loads : string -> res json)
    (clock : nat -> Q) (sess : session) (url model prompt : string)
    (max_tokens req_id : Z) (tick : nat) :
  (forall a b : nat, (a <= b)%nat -> (clock a <= clock b)%Q) ->
  let r := fst (send_streaming_request json_loads clock sess url model prompt
                  max_tokens req_id tick) in
  (0 <= ttft r)%Q /\ (ttft r <= total_time r)%Q.
Proof.
  intros Hmono r.
  destruct (send_timing json_loads clock sess url model prompt max_tokens
              req_id tick) as (_ & _ & [(_ & Ht & _ & Htot)|(_ & _ & Ht & Htot)]);
    fold r in Ht, Htot; rewrite Ht, Htot.
  - pose proof (Hmono tick (S tick) (Nat.le_succ_diag_r _)). split; lra.
  - pose proof (Hmono tick (S tick) (Nat.le_succ_diag_r _)).
    pose proof (Hmono (S tick) (S (S tick)) (Nat.le_succ_diag_r _)).
    split; lra.
Qed.

Lemma ttft_within_total_time_witness :
  let r := fst (send_streaming_request sample_loads tick_clock
                  (fixed_session
                     (mkResponse 200 ["data: " +:+ token_text; "data: [DONE]"]
                                 None))
                  "http://localhost:8000" "m" "p" 100 0 5) in
  (forall a b : nat, (a <= b)%nat -> (tick_clock a <= tick_clock b)%Q) /\
  (0 <= ttft r)%Q /\ (ttft r <= total_time r)%Q.
Proof.
  intros r.
  assert (Hmono : forall a b : nat,
            (a <= b)%nat -> (tick_clock a <= tick_clock b)%Q).
  { intros a b Hab. unfold tick_clock. rewrite <- Zle_Qle. lia. }
  split; [exact Hmono|].
  exact (ttft_within_total_time sample_loads tick_clock
           (fixed_session
              (mkResponse 200 ["data: " +:+ token_text; "data: [DONE]"] None))
           "http://localhost:8000" "m" "p" 100 0 5%nat Hmono).
Defined.

(** X8. Tokens, a completed stream and a completion reason are only ever
    recorded for a response with status 200, and a completion reason is never
    recorded without the completion flag. *)
Theorem outcome_consistency (json_loads : string -> res json)
    (clock : nat -> Q) (sess : session) (url model prompt : string)
    (max_tokens req_id : Z) (tick : nat) :
  let r := fst (send_streaming_request json_loads clock sess url model prompt
                  max_tokens req_id tick) in
  0 <= tokens_received r /\
  (finish_reason r = JStr "" \/ stream_completed r = true) /\
  (status_code r = 200 \/
   (tokens_received r = 0 /\ ttft r = 0%Q /\ stream_completed r = false /\
    finish_reason r = JStr "")).
Proof.
  intros r. unfold r.
  destruct (sess (endpoint_of url) (payload_of model prompt max_tokens))
    as [resp|e] eqn:Hp.
  - destruct (Z.eq_dec (resp_status_code resp) 200) as [Hs|Hs].
    + rewrite (send_200 json_loads clock sess url model prompt max_tokens
                 req_id tick resp Hp Hs).
      set (st0 := mkLoop (set_status_code (fresh_result req_id (clock tick)) 200)
                         None (S tick)).
      pose proof (read_lines_frame json_loads clock (resp_lines resp)
                    (resp_failure resp) st0) as (_ & _ & Hstatus & _).
      pose proof (read_lines_finish json_loads clock (resp_lines resp)
                    (resp_failure resp) st0 (or_introl eq_refl)) as Hfin.
      pose proof (read_lines_token_bound json_loads clock (resp_lines resp)
                    (resp_failure resp) st0) as [Hlo _].
      destruct (read_lines json_loads clock (resp_lines resp)
                  (resp_failure resp) st0) as [st [e|]];
        simpl in *; (split; [exact Hlo|]); (split; [exact Hfin|]);
        left; exact Hstatus.
    + rewrite (send_not_200 json_loads clock sess url model prompt max_tokens
                 req_id tick resp Hp Hs).
      simpl. split; [lia|]. split; [now left|]. right. repeat split.
  - rewrite (send_post_raises json_loads clock sess url model prompt max_tokens
               req_id tick e Hp).
    simpl. split; [lia|]. split; [now left|]. right. repeat split.
Qed.

(** X9. At most one token is counted per event line of the body. *)
Theorem tokens_bounded_by_events (json_loads : string -> res json)
    (clock : nat -> Q) (url model prompt : string) (max_tokens req_id : Z)
    (tick : nat) (lines : list string) (failure : option py_exn) :
  let r := fst (send_streaming_request json_loads clock
                  (fixed_session (mkResponse 200 lines failure))
                  url model prompt max_tokens req_id tick) in
  0 <= tokens_received r <=
  Py.len (filter (fun l => is_data_line l = true) lines).
Proof.
  intros r. unfold r. rewrite send_fixed_200.
  pose proof (read_lines_token_bound json_loads clock lines failure
    (mkLoop (set_status_code (fresh_result req_id (clock tick)) 200)
            None (S tick))) as Hb.
  destruct (read_lines json_loads clock lines failure _) as [st [e|]];
    simpl in *; exact Hb.
Qed.

(** * Further properties of [percentile] *)

Lemma sorted_nth_le (l : list Q) (i j : nat) :
  StronglySorted Qle l -> (i <= j < length l)%nat ->
  (nth i l 0 <= nth j l 0)%Q.
Proof.
  intros Hs. revert i j. induction Hs as [|x l Hs IH Hx]; intros i j Hij.
  - simpl in Hij. lia.
  - destruct i as [|i], j as [|j]; simpl in *; try lia.
    + apply Qle_refl.
    + rewrite Forall_forall in Hx. apply Hx. apply list_elem_of_In, nth_In. lia.
    + apply IH. lia.
Qed.

(** The fractional part of a non-negative rank. *)
Lemma int_fraction (k : Q) :
  (0 <= k)%Q -> (0 <= k - inject_Z (Py.int k))%Q /\ (k - inject_Z (Py.int k) < 1)%Q.
Proof.
  intros Hk. rewrite (int_floor k Hk).
  pose proof (Qfloor_le k) as Hlo. pose proof (Qlt_floor k) as Hhi.
  rewrite inject_Z_plus in Hhi. change (inject_Z 1) with 1%Q in Hhi.
  split; lra.
Qed.

Lemma int_mono (x y : Q) : (0 <= x)%Q -> (x <= y)%Q -> Py.int x <= Py.int y.
Proof.
  intros H0 Hxy. rewrite !int_floor by lra. now apply Qfloor_resp_le.
Qed.

Lemma rank_mono (m : Z) (p q : Q) :
  1 <= m -> (p <= q)%Q -> (rank m p <= rank m q)%Q.
Proof.
  intros Hm Hpq. unfold rank.
  assert (Hn : (0 <= inject_Z (m - 1))%Q).
  { change 0%Q with (inject_Z 0). rewrite <- Zle_Qle. lia. }
  assert (Hd : (p / 100 <= q / 100)%Q).
  { unfold Qdiv. apply Qmult_le_compat_r; [exact Hpq | vm_compute; discriminate]. }
  generalize dependent (p / 100)%Q. generalize dependent (q / 100)%Q.
  generalize dependent (inject_Z (m - 1)). intros a Ha b c Hcb. nra.
Qed.

(** On a sorted sample the interpolation lies between its two neighbours. *)
Lemma percentile_sorted_bounds (l : list Q) (p : Q) :
  StronglySorted Qle l -> l <> [] -> (0 <= p)%Q -> (p <= 100)%Q ->
  let f := Py.int (rank (Py.len l) p) in
  let c := Z.min (f + 1) (Py.len l - 1) in
  exists v, percentile l p = Ok v /\
    (nth (Z.to_nat f) l 0 <= v)%Q /\ (v <= nth (Z.to_nat c) l 0)%Q.
Proof.
  intros Hs Hne H0 H100 f c.
  destruct (percentile_in_range l p Hne H0 H100) as (Hf & Hc & Hv).
  fold f in Hf, Hc, Hv. fold c in Hc, Hv.
  eexists. split; [exact Hv|].
  assert (Hlen : 1 <= Py.len l) by lia.
  destruct (rank_range (Py.len l) p Hlen H0 H100) as [Hk0 _].
  destruct (int_fraction _ Hk0) as [Hd0 Hd1]. fold f in Hd0, Hd1.
  assert (Hle : (nth (Z.to_nat f) l 0 <= nth (Z.to_nat c) l 0)%Q).
  { apply sorted_nth_le; [exact Hs|]. unfold Py.len in *. lia. }
  generalize dependent (rank (Py.len l) p - inject_Z f)%Q.
  generalize dependent (nth (Z.to_nat f) l 0%Q).
  generalize dependent (nth (Z.to_nat c) l 0%Q).
  intros hi lo Hle d _ Hd0 Hd1. split; nra.
Qed.

Lemma percentile_mono (l : list Q) (p q : Q) :
  StronglySorted Qle l -> (0 <= p)%Q -> (p <= q)%Q -> (q <= 100)%Q ->
  exists v w, percentile l p = Ok v /\ percentile l q = Ok w /\ (v <= w)%Q.
Proof.
  intros Hs H0 Hpq H100.
  destruct l as [|x l'] eqn:El.
  { exists 0%Q, 0%Q. repeat split; [reflexivity..| apply Qle_refl]. }
  rewrite <- El in *. assert (Hne : l <> []) by (rewrite El; congruence).
  assert (Hp100 : (p <= 100)%Q) by lra. assert (Hq0 : (0 <= q)%Q) by lra.
  assert (Hlen : 1 <= Py.len l) by (unfold Py.len; rewrite El; simpl; lia).
  destruct (percentile_in_range l p Hne H0 Hp100) as (Hfp & Hcp & Hvp).
  destruct (percentile_in_range l q Hne Hq0 H100) as (Hfq & Hcq & Hvq).
  destruct (percentile_sorted_bounds l p Hs Hne H0 Hp100) as (v & Hv & Hvlo & Hvhi).
  destruct (percentile_sorted_bounds l q Hs Hne Hq0 H100) as (w & Hw & Hwlo & Hwhi).
  exists v, w. split; [exact Hv|]. split; [exact Hw|].
  destruct (rank_range (Py.len l) p Hlen H0 Hp100) as [Hkp0 _].
  pose proof (rank_mono (Py.len l) p q Hlen Hpq) as Hk.
  pose proof (int_mono _ _ Hkp0 Hk) as Hfle.
  destruct (Z.eq_dec (Py.int (rank (Py.len l) p)) (Py.int (rank (Py.len l) q)))
    as [Heq|Hneq].
  - rewrite Hv in Hvp. rewrite Hw in Hvq.
    injection Hvp as ->. injection Hvq as ->. rewrite <- Heq.
    assert (Hle : (nth (Z.to_nat (Py.int (rank (Py.len l) p))) l 0 <=
                   nth (Z.to_nat (Z.min (Py.int (rank (Py.len l) p) + 1)
                                        (Py.len l - 1))) l 0)%Q).
    { apply sorted_nth_le; [exact Hs|]. unfold Py.len in *. lia. }
    generalize dependent (nth (Z.to_nat (Py.int (rank (Py.len l) p))) l 0%Q).
    generalize dependent
      (nth (Z.to_nat (Z.min (Py.int (rank (Py.len l) p) + 1) (Py.len l - 1)))
           l 0%Q).
    generalize dependent (inject_Z (Py.int (rank (Py.len l) p))).
    generalize dependent (rank (Py.len l) p).
    generalize dependent (rank (Py.len l) q).
    intros. nra.
  - apply Qle_trans with
      (nth (Z.to_nat (Z.min (Py.int (rank (Py.len l) p) + 1) (Py.len l - 1))) l 0%Q);
      [exact Hvhi|].
    apply Qle_trans with (nth (Z.to_nat (Py.int (rank (Py.len l) q))) l 0%Q);
      [|exact Hwlo].
    apply sorted_nth_le; [exact Hs|]. unfold Py.len in *. lia.
Qed.

Lemma int_of_integer (x : Q) (n : Z) : 0 <= n -> (x == inject_Z n)%Q -> Py.int x = n.
Proof.
  intros Hn Hx. rewrite int_floor.
  - rewrite (Qfloor_comp _ _ Hx). apply Qfloor_Z.
  - rewrite Hx. change 0%Q with (inject_Z 0). rewrite <- Zle_Qle. exact Hn.
Qed.

(** X10. On a sorted sample and a percentage, the percentile lies between
    the two order statistics it interpolates, hence between the smallest and
    the largest value of the sample. *)
Theorem percentile_within_sample (l : list Q) (p : Q) :
  StronglySorted Qle l -> l <> [] -> (0 <= p)%Q -> (p <= 100)%Q ->
  let f := Py.int (inject_Z (Py.len l - 1) * (p / 100))%Q in
  let c := Z.min (f + 1) (Py.len l - 1) in
  exists v, percentile l p = Ok v /\
    (nth (Z.to_nat f) l 0 <= v)%Q /\ (v <= nth (Z.to_nat c) l 0)%Q /\
    (nth 0 l 0 <= v)%Q /\ (v <= nth (length l - 1) l 0)%Q.
Proof.
  intros Hs Hne H0 H100 f c.
  destruct (percentile_sorted_bounds l p Hs Hne H0 H100) as (v & Hv & Hlo & Hhi).
  destruct (percentile_in_range l p Hne H0 H100) as (Hf & Hc & _).
  fold (rank (Py.len l) p) in f. fold f in Hlo, Hhi, Hf, Hc. fold c in Hhi, Hc.
  exists v. split; [exact Hv|]. split; [exact Hlo|]. split; [exact Hhi|].
  split.
  - apply Qle_trans with (nth (Z.to_nat f) l 0%Q); [|exact Hlo].
    apply sorted_nth_le; [exact Hs|]. unfold Py.len in *. lia.
  - apply Qle_trans with (nth (Z.to_nat c) l 0%Q); [exact Hhi|].
    apply sorted_nth_le; [exact Hs|]. unfold Py.len in *. lia.
Qed.

Lemma percentile_within_sample_witness :
  (StronglySorted Qle [3; 5; 8]%Q /\ [3; 5; 8]%Q <> [] /\
   (0 <= 95)%Q /\ (95 <= 100)%Q) /\
  exists v, percentile [3; 5; 8]%Q 95 = Ok v /\ (3 <= v)%Q /\ (v <= 8)%Q.
Proof.
  assert (Hs : StronglySorted Qle [3; 5; 8]%Q).
  { repeat constructor; vm_compute; discriminate. }
  assert (Hne : [3; 5; 8]%Q <> []) by discriminate.
  assert (H0 : (0 <= 95)%Q) by (vm_compute; discriminate).
  assert (H100 : (95 <= 100)%Q) by (vm_compute; discriminate).
  split; [repeat split; assumption|].
  destruct (percentile_within_sample [3; 5; 8]%Q 95 Hs Hne H0 H100)
    as (v & Hv & _ & _ & Hmin & Hmax).
  exists v. repeat split; assumption.
Defined.

(** X11. The percentile 0 of a sample is its first value and the percentile
    100 its last one. *)
Theorem percentile_endpoints (l : list Q) :
  l <> [] ->
  (exists v, percentile l 0 = Ok v /\ (v == nth 0 l 0)%Q) /\
  (exists v, percentile l 100 = Ok v /\ (v == nth (length l - 1) l 0)%Q).
Proof.
  intros Hne.
  assert (Hlen : 1 <= Py.len l).
  { unfold Py.len. destruct l; [congruence | simpl; lia]. }
  split.
  - destruct (percentile_in_range l 0 Hne) as (_ & _ & Hv);
      [vm_compute; discriminate | vm_compute; discriminate |].
    eexists. split; [exact Hv|].
    assert (Hk : (rank (Py.len l) 0 == inject_Z 0)%Q).
    { unfold rank, Qdiv. change (inject_Z 0) with 0%Q. ring. }
    rewrite (int_of_integer _ 0 (Z.le_refl 0) Hk). setoid_rewrite Hk.
    change (inject_Z 0) with 0%Q. change (Z.to_nat 0) with 0%nat. ring.
  - destruct (percentile_in_range l 100 Hne) as (_ & _ & Hv);
      [vm_compute; discriminate | vm_compute; discriminate |].
    eexists. split; [exact Hv|].
    assert (Hk : (rank (Py.len l) 100 == inject_Z (Py.len l - 1))%Q).
    { unfold rank. field. }
    rewrite (int_of_integer _ (Py.len l - 1) ltac:(lia) Hk).
    replace (Z.min (Py.len l - 1 + 1) (Py.len l - 1)) with (Py.len l - 1) by lia.
    replace (Z.to_nat (Py.len l - 1)) with (length l - 1)%nat
      by (unfold Py.len; lia).
    ring.
Qed.

Lemma percentile_endpoints_witness :
  [3; 5; 8]%Q <> [] /\
  (exists v, percentile [3; 5; 8]%Q 0 = Ok v /\ (v == 3)%Q) /\
  (exists v, percentile [3; 5; 8]%Q 100 = Ok v /\ (v == 8)%Q).
Proof.
  assert (Hne : [3; 5; 8]%Q <> []) by discriminate.
  split; [exact Hne|]. exact (percentile_endpoints [3; 5; 8]%Q Hne).
Defined.

(** X12. On a sorted sample the percentile does not decrease when the
    percentage grows. *)
Theorem percentile_monotone (l : list Q) (p q : Q) :
  StronglySorted Qle l -> (0 <= p)%Q -> (p <= q)%Q -> (q <= 100)%Q ->
  exists v w, percentile l p = Ok v /\ percentile l q = Ok w /\ (v <= w)%Q.
Proof. apply percentile_mono. Qed.

Lemma percentile_monotone_witness :
  (StronglySorted Qle [3; 5; 8]%Q /\ (0 <= 50)%Q /\ (50 <= 95)%Q /\
   (95 <= 100)%Q) /\
  exists v w, percentile [3; 5; 8]%Q 50 = Ok v /\
              percentile [3; 5; 8]%Q 95 = Ok w /\ (v <= w)%Q.
Proof.
  assert (Hs : StronglySorted Qle [3; 5; 8]%Q).
  { repeat constructor; vm_compute; discriminate. }
  assert (H0 : (0 <= 50)%Q) by (vm_compute; discriminate).
  assert (H1 : (50 <= 95)%Q) by (vm_compute; discriminate).
  assert (H2 : (95 <= 100)%Q) by (vm_compute; discriminate).
  split; [repeat split; assumption|].
  exact (percentile_monotone [3; 5; 8]%Q 50 95 Hs H0 H1 H2).
Defined.

(** * Further properties of [compute_metrics] *)

Ltac qcompare_in H :=
  match type of H with
  | (_ ?= _)%Q = Eq => apply Qeq_alt in H
  | (_ ?= _)%Q = Lt => apply Qlt_alt in H
  | (_ ?= _)%Q = Gt => apply Qgt_alt in H
  end.

Lemma round_half_even_mono (x y : Q) :
  (x <= y)%Q -> Py.round_half_even x <= Py.round_half_even y.
Proof.
  intros Hxy.
  pose proof (Qfloor_resp_le x y Hxy) as Hf.
  destruct (Z.eq_dec (Qfloor x) (Qfloor y)) as [Heq|Hne].
  - unfold Py.round_half_even. rewrite <- Heq.
    pose proof (Qfloor_le x) as Hx0. pose proof (Qfloor_le y) as Hy0.
    rewrite <- Heq in Hy0.
    destruct (x - inject_Z (Qfloor x) ?= 1 # 2)%Q eqn:Hx;
      destruct (y - inject_Z (Qfloor x) ?= 1 # 2)%Q eqn:Hy;
      qcompare_in Hx; qcompare_in Hy;
      destruct (Z.even (Qfloor x)); first [lia | lra].
  - destruct (round_half_even_cases x) as [-> | ->],
             (round_half_even_cases y) as [-> | ->]; lia.
Qed.

Lemma round_mono (x y : Q) (n : nat) :
  (x <= y)%Q -> (Py.round x n <= Py.round y n)%Q.
Proof.
  intros Hxy. unfold Py.round. pose proof (pow10_pos n) as Hu.
  set (u := inject_Z (10 ^ Z.of_nat n)) in *.
  assert (Hm : (x * u <= y * u)%Q) by nra.
  apply round_half_even_mono in Hm. rewrite Zle_Qle in Hm.
  unfold Qdiv. apply Qmult_le_compat_r; [exact Hm|].
  apply Qlt_le_weak, Qinv_lt_0_compat, Hu.
Qed.

Lemma Qle_total : Total Qle.
Proof.
  intros x y. destruct (Qlt_le_dec x y) as [H|H];
    [left; now apply Qlt_le_weak | now right].
Qed.

Lemma Qle_transitive : Transitive Qle.
Proof. intros x y z. apply Qle_trans. Qed.

Lemma sorted_is_sorted (l : list Q) : StronglySorted Qle (Py.sorted l).
Proof.
  unfold Py.sorted.
  apply (@StronglySorted_merge_sort Q Qle _ Qle_transitive Qle_total).
Qed.

Lemma sorted_permutation (l : list Q) : Py.sorted l ≡ₚ l.
Proof. unfold Py.sorted. apply merge_sort_Permutation. Qed.

(** The two percentages of the report are percentages. *)
Lemma report_percentages :
  (0 <= 50)%Q /\ (50 <= 95)%Q /\ (95 <= 100)%Q /\ (50 <= 100)%Q /\ (0 <= 95)%Q.
Proof. repeat split; vm_compute; discriminate. Qed.

(** The general branch of [compute_metrics], with the two percentiles. *)
Lemma compute_metrics_percentiles (rs : list RequestResult) (s e : Q) :
  rs <> [] ->
  let ttft_values := Py.sorted (filter (fun x => (0 < x)%Q) (map ttft rs)) in
  exists p50 p95 m,
    percentile ttft_values 50 = Ok p50 /\
    percentile ttft_values 95 = Ok p95 /\
    (p50 <= p95)%Q /\
    compute_metrics rs s e = Ok m /\
    ttft_p50 m = Py.round p50 4 /\ ttft_p95 m = Py.round p95 4.
Proof.
  intros Hne ttft_values.
  assert (Hlen : 0 < Py.len rs).
  { unfold Py.len. destruct rs; [congruence | simpl; lia]. }
  destruct report_percentages as (P0 & P1 & P2 & P3 & P4).
  destruct (percentile_mono ttft_values 50 95 (sorted_is_sorted _) P0 P1 P2)
    as (p50 & p95 & H50 & H95 & Hle).
  exists p50, p95. eexists. split; [exact H50|]. split; [exact H95|].
  split; [exact Hle|]. unfold compute_metrics.
  replace (Py.len rs =? 0) with false by (symmetry; apply Z.eqb_neq; lia).
  fold ttft_values. rewrite H50, H95. simpl. repeat split; reflexivity.
Qed.

(** X13. In every report the median time to first token is at most the
    95th percentile, and both are non-negative. *)
Theorem ttft_percentiles_ordered (rs : list RequestResult) (s e : Q) :
  exists m, compute_metrics rs s e = Ok m /\
    (0 <= ttft_p50 m)%Q /\ (ttft_p50 m <= ttft_p95 m)%Q.
Proof.
  destruct rs as [|r rs'] eqn:Ers.
  - eexists. split; [apply compute_metrics_empty|]. simpl.
    split; apply Qle_refl.
  - rewrite <- Ers. assert (Hne : rs <> []) by (rewrite Ers; congruence).
    destruct (compute_metrics_percentiles rs s e Hne)
      as (p50 & p95 & m & H50 & H95 & Hle & Hm & E50 & E95).
    exists m. split; [exact Hm|]. rewrite E50, E95.
    split; [|now apply round_mono].
    assert (H0 : (0 <= p50)%Q).
    { set (vs := Py.sorted (filter (fun x => (0 < x)%Q) (map ttft rs))) in *.
      assert (Hpos : forall x, x ∈ vs -> (0 < x)%Q).
      { intros x Hx. unfold vs in Hx. rewrite sorted_permutation in Hx.
        now apply list_elem_of_filter in Hx as [Hx _]. }
      destruct vs as [|v vs'] eqn:Evs.
      - simpl in H50. injection H50 as <-. apply Qle_refl.
      - rewrite <- Evs in *.
        assert (Hvne : vs <> []) by (rewrite Evs; congruence).
        destruct report_percentages as (P0 & _ & _ & P3 & _).
        destruct (percentile_sorted_bounds vs 50 (sorted_is_sorted _) Hvne
                    P0 P3) as (v50 & Hv50 & Hlo & _).
        rewrite H50 in Hv50. injection Hv50 as <-.
        apply Qle_trans with
          (nth (Z.to_nat (Py.int (rank (Py.len vs) 50))) vs 0%Q); [|exact Hlo].
        destruct (nth_in_or_default
                    (Z.to_nat (Py.int (rank (Py.len vs) 50))) vs 0%Q)
          as [Hin | ->]; [|apply Qle_refl].
        apply Qlt_le_weak, Hpos, list_elem_of_In, Hin. }
    apply Qle_trans with (Py.round 0 4); [vm_compute; discriminate|].
    now apply round_mono.
Qed.

(** X14. When no outcome has a positive time to first token, for instance
    when every request failed, both percentiles of the report are 0. *)
Theorem ttft_percentiles_without_tokens (rs : list RequestResult) (s e : Q) :
  Forall (fun r => (ttft r <= 0)%Q) rs ->
  exists m, compute_metrics rs s e = Ok m /\
    (ttft_p50 m == 0)%Q /\ (ttft_p95 m == 0)%Q.
Proof.
  intros Hall. destruct rs as [|r rs'] eqn:Ers.
  - eexists. split; [apply compute_metrics_empty|]. split; reflexivity.
  - rewrite <- Ers in *. assert (Hne : rs <> []) by (rewrite Ers; congruence).
    destruct (compute_metrics_percentiles rs s e Hne)
      as (p50 & p95 & m & H50 & H95 & _ & Hm & E50 & E95).
    assert (Hnil : filter (fun x => (0 < x)%Q) (map ttft rs) = []).
    { clear -Hall. induction Hall as [|r0 rs0 Hr _ IH]; [reflexivity|].
      simpl map. rewrite filter_cons_False; [exact IH|]. now apply Qle_not_lt. }
    rewrite Hnil in H50, H95. simpl in H50, H95.
    injection H50 as <-. injection H95 as <-.
    exists m. split; [exact Hm|]. rewrite E50, E95.
    split; apply round_zero; reflexivity.
Qed.

Lemma ttft_percentiles_without_tokens_witness :
  let failures := [mkRequestResult 0 0 0 1 0 503 "HTTP 503" false (JStr "");
                   mkRequestResult 1 0 0 1 0 0 "timeout" false (JStr "")] in
  Forall (fun r => (ttft r <= 0)%Q) failures /\
  exists m, compute_metrics failures 0 3 = Ok m /\
    (ttft_p50 m == 0)%Q /\ (ttft_p95 m == 0)%Q.
Proof.
  intros failures.
  assert (Hall : Forall (fun r => (ttft r <= 0)%Q) failures).
  { repeat constructor; vm_compute; discriminate. }
  split; [exact Hall|].
  exact (ttft_percentiles_without_tokens failures 0 3 Hall).
Defined.

(** Two sorted lists with the same elements agree position by position, up
    to the equality of rationals. *)
Lemma sorted_perm_nth (l1 l2 : list Q) (i : nat) :
  StronglySorted Qle l1 -> StronglySorted Qle l2 -> l1 ≡ₚ l2 ->
  (nth i l1 0 == nth i l2 0)%Q.
Proof.
  intros Hs1 Hs2 Hp.
  assert (Hmap : Qcanon.Q2Qc <$> l1 = Qcanon.Q2Qc <$> l2).
  { apply (StronglySorted_unique Qcanon.Qcle).
    - apply (StronglySorted_fmap Qcanon.Q2Qc Qle Qcanon.Qcle); [|exact Hs1].
      intros x y Hxy. unfold Qcanon.Qcle. simpl. now rewrite !Qred_correct.
    - apply (StronglySorted_fmap Qcanon.Q2Qc Qle Qcanon.Qcle); [|exact Hs2].
      intros x y Hxy. unfold Qcanon.Qcle. simpl. now rewrite !Qred_correct.
    - now apply fmap_Permutation. }
  apply Qcanon.Q2Qc_eq_iff.
    rewrite <- !(map_nth Qcanon.Q2Qc). change (map Qcanon.Q2Qc) with (fmap (M := list) Qcanon.Q2Qc).
  now rewrite Hmap.
Qed.

Lemma percentile_sorted_perm (l1 l2 : list Q) (p : Q) :
  StronglySorted Qle l1 -> StronglySorted Qle l2 -> l1 ≡ₚ l2 ->
  (0 <= p)%Q -> (p <= 100)%Q ->
  exists v1 v2, percentile l1 p = Ok v1 /\ percentile l2 p = Ok v2 /\
                (v1 == v2)%Q.
Proof.
  intros Hs1 Hs2 Hp H0 H100.
  destruct l1 as [|x1 l1'] eqn:E1.
  { apply Permutation_nil_l in Hp. subst l2.
    exists 0%Q, 0%Q. repeat split; reflexivity. }
  rewrite <- E1 in *. assert (Hne1 : l1 <> []) by (rewrite E1; congruence).
  assert (Hne2 : l2 <> []).
  { intros ->. apply Permutation_nil_r in Hp. congruence. }
  destruct (percentile_in_range l1 p Hne1 H0 H100) as (_ & _ & Hv1).
  destruct (percentile_in_range l2 p Hne2 H0 H100) as (_ & _ & Hv2).
  assert (Hlen : Py.len l2 = Py.len l1).
  { unfold Py.len. now rewrite (Permutation_length Hp). }
  rewrite Hlen in Hv2.
  eexists. eexists. split; [exact Hv1|]. split; [exact Hv2|].
  rewrite (sorted_perm_nth l1 l2 _ Hs1 Hs2 Hp).
  rewrite (sorted_perm_nth l1 l2 (Z.to_nat (Z.min _ _)) Hs1 Hs2 Hp).
  reflexivity.
Qed.

Lemma round_proper (x y : Q) (n : nat) :
  (x == y)%Q -> (Py.round x n == Py.round y n)%Q.
Proof.
  intros Hxy. apply Qle_antisym; apply round_mono; rewrite Hxy; apply Qle_refl.
Qed.

Lemma sum_perm (l1 l2 : list Z) : l1 ≡ₚ l2 -> Py.sum l1 = Py.sum l2.
Proof.
  induction 1 as [|x l1 l2 _ IH|x y l|l1 l2 l3 _ IH1 _ IH2].
  - reflexivity.
  - now rewrite !sum_cons, IH.
  - rewrite !sum_cons. lia.
  - now rewrite IH1.
Qed.

Lemma histogram_perm (rs rs' : list RequestResult) :
  rs ≡ₚ rs' -> foldl count_status ∅ rs = foldl count_status ∅ rs'.
Proof.
  intros Hp. apply map_eq. intros key.
  pose proof (lookup_histogram rs ∅ key) as H1.
  pose proof (lookup_histogram rs' ∅ key) as H2.
  assert (Hcount :
    Py.len (filter (fun r => Py.str (status_code r) = key) rs) =
    Py.len (filter (fun r => Py.str (status_code r) = key) rs')).
  { unfold Py.len. now rewrite Hp. }
  assert (Hdom : dom (foldl count_status ∅ rs) = dom (foldl count_status ∅ rs')).
  { rewrite !dom_histogram. now rewrite Hp. }
  destruct (foldl count_status ∅ rs !! key) as [v1|] eqn:E1;
    destruct (foldl count_status ∅ rs' !! key) as [v2|] eqn:E2.
  - simpl in H1, H2. f_equal. lia.
  - exfalso. apply not_elem_of_dom in E2. apply E2. rewrite <- Hdom.
    apply elem_of_dom. eauto.
  - exfalso. apply not_elem_of_dom in E1. apply E1. rewrite Hdom.
    apply elem_of_dom. eauto.
  - reflexivity.
Qed.

(** X15. The report does not depend on the order in which the outcomes
    arrived in the collection: counts, rates, histogram and throughput are
    the same for every permutation, and so are the percentiles. *)
Theorem report_independent_of_arrival_order (rs rs' : list RequestResult)
    (s e : Q) :
  rs ≡ₚ rs' ->
  exists m m',
    compute_metrics rs s e = Ok m /\ compute_metrics rs' s e = Ok m' /\
    total_requests m = total_requests m' /\
    successful m = successful m' /\ failed m = failed m' /\
    error_rate m = error_rate m' /\
    status_code_counts m = status_code_counts m' /\
    (ttft_p50 m == ttft_p50 m')%Q /\ (ttft_p95 m == ttft_p95 m')%Q /\
    tokens_per_sec m = tokens_per_sec m' /\
    stream_completion_rate m = stream_completion_rate m' /\
    duration_actual m = duration_actual m'.
Proof.
  intros Hp. destruct rs as [|r rs0] eqn:Ers.
  { apply Permutation_nil_l in Hp. subst rs'.
    eexists. eexists. split; [apply compute_metrics_empty|].
    split; [apply compute_metrics_empty|]. repeat split; reflexivity. }
  rewrite <- Ers in *. assert (Hne : rs <> []) by (rewrite Ers; congruence).
  assert (Hne' : rs' <> []).
  { intros ->. apply Permutation_nil_r in Hp. congruence. }
  destruct (compute_metrics_nonempty rs s e Hne) as (a50 & a95 & Ha).
  destruct (compute_metrics_nonempty rs' s e Hne') as (b50 & b95 & Hb).
  destruct (compute_metrics_percentiles rs s e Hne)
    as (p50 & p95 & m & H50 & H95 & _ & Hm & E50 & E95).
  destruct (compute_metrics_percentiles rs' s e Hne')
    as (q50 & q95 & m' & G50 & G95 & _ & Hm' & F50 & F95).
  exists m, m'. split; [exact Hm|]. split; [exact Hm'|].
  assert (Hvals :
    Py.sorted (filter (fun x => (0 < x)%Q) (map ttft rs)) ≡ₚ
    Py.sorted (filter (fun x => (0 < x)%Q) (map ttft rs'))).
  { rewrite !sorted_permutation. now rewrite Hp. }
  assert (Hq50 : (p50 == q50)%Q).
  { destruct report_percentages as (P0 & _ & _ & P3 & _).
    destruct (percentile_sorted_perm _ _ 50 (sorted_is_sorted _)
                (sorted_is_sorted _) Hvals P0 P3)
      as (v1 & v2 & Hv1 & Hv2 & Hv).
    congruence. }
  assert (Hq95 : (p95 == q95)%Q).
  { destruct report_percentages as (_ & _ & P2 & _ & P4).
    destruct (percentile_sorted_perm _ _ 95 (sorted_is_sorted _)
                (sorted_is_sorted _) Hvals P4 P2)
      as (v1 & v2 & Hv1 & Hv2 & Hv).
    congruence. }
  assert (Hlen : Py.len rs = Py.len rs').
  { unfold Py.len. now rewrite Hp. }
  assert (Hsucc : Py.len (filter (fun r => error r = "") rs) =
                  Py.len (filter (fun r => error r = "") rs')).
  { unfold Py.len. now rewrite Hp. }
  assert (Hcomp : Py.len (filter (fun r => stream_completed r = true) rs) =
                  Py.len (filter (fun r => stream_completed r = true) rs')).
  { unfold Py.len. now rewrite Hp. }
  assert (Htok : Py.sum (map tokens_received rs) =
                 Py.sum (map tokens_received rs')).
  { apply sum_perm. now apply Permutation_map. }
  rewrite E50, E95, F50, F95.
  rewrite Hm in Ha. injection Ha as ->. rewrite Hm' in Hb. injection Hb as ->.
  simpl. rewrite Hlen, Hsucc, Hcomp, Htok, (histogram_perm rs rs' Hp).
  repeat (split; [reflexivity|]).
  split; [now apply round_proper|]. split; [now apply round_proper|].
  repeat split; reflexivity.
Qed.

Lemma report_independent_of_arrival_order_witness :
  scenario_b ≡ₚ reverse scenario_b /\
  exists m m',
    compute_metrics scenario_b 0 3 = Ok m /\
    compute_metrics (reverse scenario_b) 0 3 = Ok m' /\
    total_requests m = total_requests m' /\
    successful m = successful m' /\ failed m = failed m' /\
    error_rate m = error_rate m' /\
    status_code_counts m = status_code_counts m' /\
    (ttft_p50 m == ttft_p50 m')%Q /\ (ttft_p95 m == ttft_p95 m')%Q /\
    tokens_per_sec m = tokens_per_sec m' /\
    stream_completion_rate m = stream_completion_rate m' /\
    duration_actual m = duration_actual m'.
Proof.
  assert (Hp : scenario_b ≡ₚ reverse scenario_b)
    by (symmetry; apply reverse_Permutation).
  split; [exact Hp|].
  exact (report_independent_of_arrival_order scenario_b (reverse scenario_b)
           0 3 Hp).
Defined.

(** * Further properties of the pool of workers *)

Section PoolMore.

Variable json_loads : string -> res json.
Variables url model : string.
Variable prompts : list string.
Variable max_tokens : Z.

Lemma run_app (sched1 sched2 : list action) (st : pool * list Z) :
  run json_loads url model prompts max_tokens (sched1 ++ sched2) st =
  run json_loads url model prompts max_tokens sched2
    (run json_loads url model prompts max_tokens sched1 st).
Proof. unfold run. apply foldl_app. Qed.

(** A property of the state and the ids kept by every step is kept by a
    run. *)
Lemma run_preserves (P : pool * list Z -> Prop) :
  (forall a st, P st ->
     P (run_step json_loads url model prompts max_tokens st a)) ->
  forall sched st, P st ->
    P (run json_loads url model prompts max_tokens sched st).
Proof.
  intros Hstep sched. induction sched as [|a sched IH]; intros st Hst;
    [exact Hst|].
  unfold run. simpl foldl. apply IH, Hstep, Hst.
Qed.

Lemma run_step_unfold (st : pool * list Z) (a : action) :
  run_step json_loads url model prompts max_tokens st a =
  (fst (step json_loads url model prompts max_tokens a (fst st)),
   snd st ++ option_list
     (snd (step json_loads url model prompts max_tokens a (fst st)))).
Proof.
  unfold run_step.
  now destruct (step json_loads url model prompts max_tokens a (fst st)).
Qed.

(** One step only appends to the results, keeps the number of threads and
    never clears the stop event. *)
Lemma step_monotone (a : action) (s : pool) :
  let s' := fst (step json_loads url model prompts max_tokens a s) in
  results s `prefix_of` results s' /\
  length (threads s') = length (threads s) /\
  (stop_event s = true -> stop_event s' = true).
Proof.
  destruct a as [i e|]; cbn [step].
  - destruct (threads s !! i) as [c|] eqn:Hi;
      [|simpl; split; [reflexivity|]; split; [reflexivity | auto]].
    destruct c; cbn [worker_step];
      try destruct (random_choice prompts (env_choice e));
      try destruct (counter_lock s); try destruct (results_lock s);
      cbn [fst results threads stop_event set_thread];
      rewrite ?length_insert;
      (split; [first [reflexivity | apply prefix_app_r; reflexivity]|]);
      (split; [reflexivity | auto]).
  - simpl. split; [reflexivity|]. split; [reflexivity | auto].
Qed.

Lemma run_monotone (sched : list action) (st : pool * list Z) :
  let st' := run json_loads url model prompts max_tokens sched st in
  results (fst st) `prefix_of` results (fst st') /\
  snd st `prefix_of` snd st' /\
  length (threads (fst st')) = length (threads (fst st)) /\
  (stop_event (fst st) = true -> stop_event (fst st') = true).
Proof.
  apply (run_preserves (fun st' =>
    results (fst st) `prefix_of` results (fst st') /\
    snd st `prefix_of` snd st' /\
    length (threads (fst st')) = length (threads (fst st)) /\
    (stop_event (fst st) = true -> stop_event (fst st') = true))).
  - intros a st0 (Hr & Hi & Hl & Hs). rewrite run_step_unfold.
    destruct (step_monotone a (fst st0)) as (Hr' & Hl' & Hs').
    cbn [fst snd]. split; [etransitivity; eassumption|].
    split; [etransitivity; [exact Hi | apply prefix_app_r; reflexivity]|].
    split; [congruence | auto].
  - repeat split; [reflexivity.. | auto].
Qed.

Lemma filter_length_insert (P : pc -> bool) (l : list pc) (i : nat) (c c' : pc) :
  l !! i = Some c ->
  (length (filter (fun x => P x = true) (<[i := c']> l)) +
   (if P c then 1 else 0) =
   length (filter (fun x => P x = true) l) + (if P c' then 1 else 0))%nat.
Proof.
  intros Hi.
  assert (Hlt : (i < length l)%nat) by (eapply lookup_lt_Some; eauto).
  rewrite insert_take_drop by exact Hlt.
  rewrite <- (take_drop_middle l i c Hi) at 3.
  rewrite !filter_app, !filter_cons, !length_app.
  destruct (P c) eqn:Hc, (P c') eqn:Hc';
    repeat (destruct (decide _) as [?|?]; try congruence);
    simpl; lia.
Qed.

(** With the stop event set, a step that assigns an id takes one thread out
    of those that will still draw, and no step adds one to them. *)
Lemma step_after_stop (a : action) (s : pool) :
  stop_event s = true ->
  let out := step json_loads url model prompts max_tokens a s in
  (length (option_list (snd out)) +
   length (filter (fun c => will_draw c = true) (threads (fst out))) <=
   length (filter (fun c => will_draw c = true) (threads s)))%nat.
Proof.
  intros Hstop. destruct a as [i e|]; cbn [step]; [|simpl; lia].
  destruct (threads s !! i) as [c|] eqn:Hi; [|simpl; lia].
  destruct c; cbn [worker_step];
    try destruct (random_choice prompts (env_choice e));
    try destruct (counter_lock s); try destruct (results_lock s);
    try rewrite Hstop;
    cbn [fst snd threads set_thread option_list option_rect length];
    try lia;
    match goal with
    | |- context [<[i := ?c']> (threads s)] =>
      pose proof (filter_length_insert will_draw (threads s) i _ c' Hi) as Hf;
      cbn [will_draw] in Hf; lia
    end.
Qed.

Lemma run_after_stop (sched : list action) (st : pool * list Z) :
  stop_event (fst st) = true ->
  let st' := run json_loads url model prompts max_tokens sched st in
  (length (snd st') +
   length (filter (fun c => will_draw c = true) (threads (fst st'))) <=
   length (snd st) +
   length (filter (fun c => will_draw c = true) (threads (fst st))))%nat.
Proof.
  intros Hstop.
  apply (run_preserves (fun st' =>
    stop_event (fst st') = true /\
    (length (snd st') +
     length (filter (fun c => will_draw c = true) (threads (fst st'))) <=
     length (snd st) +
     length (filter (fun c => will_draw c = true) (threads (fst st))))%nat)
    ) with (sched := sched) (st := st); [|split; [exact Hstop | lia]].
  intros a st0 [Hs Hle]. rewrite run_step_unfold. cbn [fst snd].
  destruct (step_monotone a (fst st0)) as (_ & _ & Hs').
  split; [auto|].
  pose proof (step_after_stop a (fst st0) Hs) as Hstep. simpl in Hstep.
  rewrite length_app. lia.
Qed.

(** With at least one prompt [random.choice] cannot raise, so no thread
    ends in failure. *)
Lemma step_never_fails (a : action) (s : pool) :
  prompts <> [] ->
  Forall (fun c => forall ex, c <> Failed ex) (threads s) ->
  Forall (fun c => forall ex, c <> Failed ex)
         (threads (fst (step json_loads url model prompts max_tokens a s))).
Proof.
  intros Hne Hall. destruct a as [i e|]; cbn [step]; [|exact Hall].
  destruct (threads s !! i) as [c|] eqn:Hi; [|exact Hall].
  assert (Hchoice : exists prompt,
            random_choice prompts (env_choice e) = Ok prompt).
  { unfold random_choice.
    destruct (prompts !! (env_choice e `mod` length prompts)%nat)
      as [prompt|] eqn:Hl; [eauto|].
    apply lookup_ge_None in Hl.
    assert (length prompts <> 0)%nat by (destruct prompts; simpl; congruence).
    pose proof (Nat.mod_upper_bound (env_choice e) (length prompts)). lia. }
  destruct Hchoice as [prompt Hchoice].
  destruct c; cbn [worker_step]; try rewrite Hchoice;
    try destruct (counter_lock s); try destruct (results_lock s);
    cbn [fst threads set_thread]; try exact Hall;
    apply Forall_insert; try exact Hall; try discriminate;
    destruct (stop_event s); discriminate.
Qed.

End PoolMore.

(** X16. Outcomes are only ever appended: what has been collected at some
    point of a run is still there, unchanged and in the same position, at
    every later point, and the same holds for the ids assigned; the number of
    threads never changes. *)
Theorem results_append_only (json_loads : string -> res json)
    (url model : string) (prompts : list string) (max_tokens : Z)
    (n : nat) (sched1 sched2 : list action) :
  let st1 := run json_loads url model prompts max_tokens sched1 (init n) in
  let st2 := run json_loads url model prompts max_tokens (sched1 ++ sched2)
               (init n) in
  results (fst st1) `prefix_of` results (fst st2) /\
  snd st1 `prefix_of` snd st2 /\
  length (threads (fst st2)) = n.
Proof.
  intros st1 st2. unfold st2. rewrite run_app. fold st1.
  destruct (run_monotone json_loads url model prompts max_tokens sched2 st1)
    as (Hr & Hi & Hl2 & _).
  destruct (run_monotone json_loads url model prompts max_tokens sched1
              (init n)) as (_ & _ & Hl1 & _).
  fold st1 in Hl1.
  split; [exact Hr|]. split; [exact Hi|].
  rewrite Hl2, Hl1. simpl. apply length_replicate.
Qed.

(** X17. Cancellation is cooperative: once the stop event is set it stays
    set, and from then on only the threads that had already passed the loop
    test draw one more request id each, so at most one further request per
    worker is started. *)
Theorem stop_bounds_remaining_requests (json_loads : string -> res json)
    (url model : string) (prompts : list string) (max_tokens : Z)
    (n : nat) (sched1 sched2 : list action) :
  let st1 := run json_loads url model prompts max_tokens sched1 (init n) in
  let st2 := run json_loads url model prompts max_tokens sched2 st1 in
  stop_event (fst st1) = true ->
  stop_event (fst st2) = true /\
  (length (snd st2) <=
   length (snd st1) +
   length (filter (fun c => will_draw c = true) (threads (fst st1))))%nat /\
  (length (snd st2) <= length (snd st1) + n)%nat.
Proof.
  intros st1 st2 Hstop.
  destruct (run_monotone json_loads url model prompts max_tokens sched2 st1)
    as (_ & _ & _ & Hs).
  pose proof (run_after_stop json_loads url model prompts max_tokens sched2
                st1 Hstop) as Hle. fold st2 in Hle, Hs. simpl in Hle.
  destruct (run_monotone json_loads url model prompts max_tokens sched1
              (init n)) as (_ & _ & Hl & _). fold st1 in Hl.
  simpl in Hl. rewrite length_replicate in Hl.
  pose proof (length_filter (fun c => will_draw c = true) (threads (fst st1))).
  split; [auto|]. split; lia.
Qed.

Lemma stop_bounds_remaining_requests_witness :
  let sched1 :=
    mjoin (replicate 15 [RunThread 0 sample_env; RunThread 1 sample_env])
    ++ [SetStop] in
  let st1 := run sample_loads "http://localhost:8000" "m" ["p"] 100 sched1
               (init 2) in
  let st2 := run sample_loads "http://localhost:8000" "m" ["p"] 100
               (sample_schedule 20) st1 in
  stop_event (fst st1) = true /\
  stop_event (fst st2) = true /\
  (length (snd st2) <= length (snd st1) + 2)%nat.
Proof.
  intros sched1 st1 st2.
  assert (Hstop : stop_event (fst st1) = true) by (vm_compute; reflexivity).
  split; [exact Hstop|].
  destruct (stop_bounds_remaining_requests sample_loads
              "http://localhost:8000" "m" ["p"] 100 2 sched1
              (sample_schedule 20) Hstop) as (Hs & _ & Hle).
  split; assumption.
Defined.

(** X18. When there is at least one prompt, no worker thread ever ends with
    an exception: [random.choice] always finds a prompt and
    [send_streaming_request] raises nothing. *)
Theorem workers_never_fail (json_loads : string -> res json)
    (url model : string) (prompts : list string) (max_tokens : Z)
    (n : nat) (sched : list action) :
  prompts <> [] ->
  Forall (fun c => forall ex, c <> Failed ex)
    (threads (fst (run json_loads url model prompts max_tokens sched (init n)))).
Proof.
  intros Hne.
  apply (run_preserves json_loads url model prompts max_tokens
           (fun st => Forall (fun c => forall ex, c <> Failed ex)
                             (threads (fst st)))).
  - intros a st Hst. rewrite run_step_unfold. cbn [fst].
    now apply step_never_fails.
  - simpl. apply Forall_replicate. discriminate.
Qed.

Lemma workers_never_fail_witness :
  ["p"] <> [] /\
  Forall (fun c => forall ex, c <> Failed ex)
    (threads (fst (run sample_loads "http://localhost:8000" "m" ["p"] 100
                     (sample_schedule 20) (init 2)))).
Proof.
  assert (Hne : ["p"] <> []) by discriminate.
  split; [exact Hne|].
  exact (workers_never_fail sample_loads "http://localhost:8000" "m" ["p"] 100
           2 (sample_schedule 20) Hne).
Defined.

(** ** The locks *)

Lemma holder_updated (P : pc -> bool) (l : list pc) (i j : nat) (c c' : pc) :
  l !! i = Some c ->
  (P c = true -> P c' = true) ->
  (exists d, l !! j = Some d /\ P d = true) ->
  exists d, <[i := c']> l !! j = Some d /\ P d = true.
Proof.
  intros Hi Hc (d & Hj & Hd). destruct (decide (j = i)) as [->|Hne].
  - exists c'. split.
    + apply list_lookup_insert_eq. eapply lookup_lt_Some; eauto.
    + apply Hc. congruence.
  - exists d. split; [|exact Hd]. now rewrite list_lookup_insert_ne by congruence.
Qed.

Lemma holder_new (P : pc -> bool) (l : list pc) (i : nat) (c c' : pc) :
  l !! i = Some c -> P c' = true ->
  exists d, <[i := c']> l !! i = Some d /\ P d = true.
Proof.
  intros Hi Hc. exists c'. split; [|exact Hc].
  apply list_lookup_insert_eq. eapply lookup_lt_Some; eauto.
Qed.

(** A step of thread [i] that touches neither lock and stays on the same
    side of both sections. *)
Lemma locks_inv_local (s s' : pool) (i : nat) (c c' : pc) :
  locks_inv s -> threads s !! i = Some c ->
  in_counter_section c' = in_counter_section c ->
  in_results_section c' = in_results_section c ->
  counter_lock s' = counter_lock s ->
  results_lock s' = results_lock s ->
  threads s' = <[i := c']> (threads s) ->
  locks_inv s'.
Proof.
  intros [Hch Hrs Hrh] Hi Hcs Hrsec Hcl Hrl Hth. constructor.
  - intros j Hj. rewrite Hcl in Hj. rewrite Hth.
    apply (holder_updated in_counter_section _ i j c c' Hi); [congruence | auto].
  - intros k d Hk Hd. rewrite Hth in Hk. rewrite Hrl.
    apply (thread_updated _ _ _ _ _ _ Hi) in Hk as [[-> ->]|[Hne Hk]].
    + apply (Hrs i c Hi). congruence.
    + eauto.
  - intros j Hj. rewrite Hrl in Hj. rewrite Hth.
    apply (holder_updated in_results_section _ i j c c' Hi); [congruence | auto].
Qed.

Section Locks.

Variable json_loads : string -> res json.
Variables url model : string.
Variable prompts : list string.
Variable max_tokens : Z.

Lemma step_locks_inv (a : action) (s : pool) (ids : list Z) :
  pool_inv s ids -> locks_inv s ->
  locks_inv (fst (step json_loads url model prompts max_tokens a s)).
Proof.
  intros Hp Hl. destruct a as [i e|]; cbn [step].
  2:{ destruct Hl as [Hch Hrs Hrh]. constructor; exact Hch || exact Hrs || exact Hrh. }
  destruct (threads s !! i) as [c|] eqn:Hi; [|exact Hl].
  pose proof (inv_lock _ _ Hp) as Hlock.
  destruct c; cbn [worker_step fst].
  - (* AtLoopTest *)
    apply (locks_inv_local s _ i _
             (if stop_event s then AtClose else AtChoosePrompt) Hl Hi);
      try reflexivity; destruct (stop_event s); reflexivity.
  - (* AtChoosePrompt *)
    destruct (random_choice prompts (env_choice e)) as [prompt|ex]; cbn [fst].
    + apply (locks_inv_local s _ i _ (AtAcquireCounter prompt) Hl Hi);
        reflexivity.
    + apply (locks_inv_local s _ i _ (Failed ex) Hl Hi); reflexivity.
  - (* AtAcquireCounter *)
    destruct (counter_lock s) as [h|] eqn:Hc; cbn [fst]; [exact Hl|].
    destruct Hl as [Hch Hrs Hrh]. constructor; cbn [counter_lock results_lock threads].
    + intros j Hj. injection Hj as <-.
      apply (holder_new in_counter_section _ i _ _ Hi). reflexivity.
    + intros k d Hk Hd.
      apply (thread_updated _ _ _ _ _ _ Hi) in Hk as [[-> ->]|[Hne Hk]];
        [discriminate | eauto].
    + intros j Hj.
      apply (holder_updated in_results_section _ i j _ _ Hi);
        [discriminate | auto].
  - (* AtReadCounter *)
    apply (locks_inv_local s _ i _ (AtLoadCounter prompt (request_counter s))
             Hl Hi); reflexivity.
  - (* AtLoadCounter *)
    apply (locks_inv_local s _ i _
             (AtStoreCounter prompt req_id (request_counter s)) Hl Hi);
      reflexivity.
  - (* AtStoreCounter *)
    apply (locks_inv_local s _ i _ (AtReleaseCounter prompt req_id) Hl Hi);
      reflexivity.
  - (* AtReleaseCounter *)
    destruct Hl as [Hch Hrs Hrh]. constructor; cbn [counter_lock results_lock threads].
    + discriminate.
    + intros k d Hk Hd.
      apply (thread_updated _ _ _ _ _ _ Hi) in Hk as [[-> ->]|[Hne Hk]];
        [discriminate | eauto].
    + intros j Hj.
      apply (holder_updated in_results_section _ i j _ _ Hi);
        [discriminate | auto].
  - (* AtSend *)
    apply (locks_inv_local s _ i _
             (AtAcquireResults
                (fst (send_streaming_request json_loads (env_clock e)
                        (env_session e) url model prompt max_tokens req_id
                        (env_tick e)))) Hl Hi); reflexivity.
  - (* AtAcquireResults *)
    destruct (results_lock s) as [h|] eqn:Hr; cbn [fst]; [exact Hl|].
    destruct Hl as [Hch Hrs Hrh]. constructor; cbn [counter_lock results_lock threads].
    + intros j Hj.
      apply (holder_updated in_counter_section _ i j _ _ Hi);
        [discriminate | auto].
    + intros k d Hk Hd.
      apply (thread_updated _ _ _ _ _ _ Hi) in Hk as [[-> ->]|[Hne Hk]];
        [reflexivity|].
      specialize (Hrs k d Hk Hd). congruence.
    + intros j Hj. injection Hj as <-.
      apply (holder_new in_results_section _ i _ _ Hi). reflexivity.
  - (* AtAppend *)
    apply (locks_inv_local s _ i _ AtReleaseResults Hl Hi); reflexivity.
  - (* AtReleaseResults *)
    destruct Hl as [Hch Hrs Hrh].
    pose proof (Hrs i _ Hi eq_refl) as Hmine.
    constructor; cbn [counter_lock results_lock threads].
    + intros j Hj.
      apply (holder_updated in_counter_section _ i j _ _ Hi);
        [discriminate | auto].
    + intros k d Hk Hd.
      apply (thread_updated _ _ _ _ _ _ Hi) in Hk as [[-> ->]|[Hne Hk]];
        [discriminate|].
      specialize (Hrs k d Hk Hd). congruence.
    + discriminate.
  - (* AtClose *)
    apply (locks_inv_local s _ i _ Returned Hl Hi); reflexivity.
  - exact Hl.
  - exact Hl.
Qed.

Lemma init_locks_inv (n : nat) : locks_inv (fst (init n)).
Proof.
  constructor; simpl.
  - discriminate.
  - intros i c Hc. apply lookup_replicate in Hc as [-> _]. discriminate.
  - discriminate.
Qed.

Lemma run_locks_inv (n : nat) (sched : list action) :
  let st := run json_loads url model prompts max_tokens sched (init n) in
  pool_inv (fst st) (snd st) /\ locks_inv (fst st).
Proof.
  apply (run_preserves json_loads url model prompts max_tokens
           (fun st => pool_inv (fst st) (snd st) /\ locks_inv (fst st))).
  - intros a st [Hp Hl]. rewrite run_step_unfold. cbn [fst snd]. split.
    + now apply step_inv.
    + now apply (step_locks_inv a (fst st) (snd st)).
  - split; [apply init_inv | apply init_locks_inv].
Qed.

End Locks.

(** At most one element of a list satisfies a property that determines the
    position of the element. *)
Lemma at_most_one (P : pc -> bool) (l : list pc) (h : option nat) :
  (forall i c, l !! i = Some c -> P c = true -> h = Some i) ->
  (length (filter (fun c => P c = true) l) <= 1)%nat.
Proof.
  revert h. induction l as [|c l IH]; intros h Hpos; [simpl; lia|].
  rewrite filter_cons. destruct (decide (P c = true)) as [Hc|Hc].
  - assert (Hnone : filter (fun c => P c = true) l = []).
    { destruct (filter (fun c => P c = true) l) as [|d ds] eqn:Hf;
        [reflexivity|].
      assert (Hd : d ∈ filter (fun c => P c = true) l)
        by (rewrite Hf; apply list_elem_of_here).
      apply list_elem_of_filter in Hd as [Hpd Hd].
      apply list_elem_of_lookup in Hd as [k Hk].
      pose proof (Hpos 0%nat c eq_refl Hc) as H0.
      pose proof (Hpos (S k) d Hk Hpd) as H1. congruence. }
    rewrite Hnone. simpl. lia.
  - apply (IH (match h with Some (S k) => Some k | _ => None end)).
    intros i d Hi Hd. now rewrite (Hpos (S i) d Hi Hd).
Qed.

Lemma joined_outside_sections (s : pool) (i : nat) (c : pc) :
  joined s = true -> threads s !! i = Some c ->
  in_counter_section c = false /\ in_results_section c = false.
Proof.
  unfold joined. intros Hj Hi.
  rewrite forallb_forall in Hj.
  assert (Hin : In c (threads s)).
  { apply list_elem_of_In, list_elem_of_lookup. eauto. }
  specialize (Hj c Hin). destruct c; try discriminate; split; reflexivity.
Qed.

(** X19. Mutual exclusion: in every state of every run at most one thread is
    inside the block guarded by the counter lock and at most one inside the
    block guarded by the results lock; a lock that is held is held by the
    thread inside its block, and when a lock is free its block is empty. *)
Theorem mutual_exclusion (json_loads : string -> res json)
    (url model : string) (prompts : list string) (max_tokens : Z)
    (n : nat) (sched : list action) :
  let s := fst (run json_loads url model prompts max_tokens sched (init n)) in
  (length (filter (fun c => in_counter_section c = true) (threads s)) <= 1)%nat /\
  (length (filter (fun c => in_results_section c = true) (threads s)) <= 1)%nat /\
  match counter_lock s with
  | Some i => exists c, threads s !! i = Some c /\ in_counter_section c = true
  | None => filter (fun c => in_counter_section c = true) (threads s) = []
  end /\
  match results_lock s with
  | Some i => exists c, threads s !! i = Some c /\ in_results_section c = true
  | None => filter (fun c => in_results_section c = true) (threads s) = []
  end.
Proof.
  intros s.
  destruct (run_locks_inv json_loads url model prompts max_tokens n sched)
    as [Hp [Hch Hrs Hrh]]. fold s in Hp, Hch, Hrs, Hrh.
  pose proof (inv_lock _ _ Hp) as Hcs.
  assert (Hempty : forall (P : pc -> bool) (h : option nat),
            (forall i c, threads s !! i = Some c -> P c = true -> h = Some i) ->
            h = None -> filter (fun c => P c = true) (threads s) = []).
  { intros P h Hpos ->.
    destruct (filter (fun c => P c = true) (threads s)) as [|d ds] eqn:Hf;
      [reflexivity|].
    assert (Hd : d ∈ filter (fun c => P c = true) (threads s))
      by (rewrite Hf; apply list_elem_of_here).
    apply list_elem_of_filter in Hd as [Hpd Hd].
    apply list_elem_of_lookup in Hd as [k Hk].
    specialize (Hpos k d Hk Hpd). discriminate. }
  split; [exact (at_most_one in_counter_section _ _ Hcs)|].
  split; [exact (at_most_one in_results_section _ _ Hrs)|].
  split.
  - destruct (counter_lock s) as [i|] eqn:Hl; [now apply Hch|].
    now apply (Hempty in_counter_section None).
  - destruct (results_lock s) as [i|] eqn:Hl; [now apply Hrh|].
    now apply (Hempty in_results_section None).
Qed.

(** X20. When every worker has returned, both locks are free, the shared
    counter equals the number of ids assigned, and the report computed from
    the collected outcomes counts exactly that many requests, in
    [total_requests] and in the status code histogram. *)
Theorem final_report_counts_every_request (json_loads : string -> res json)
    (url model : string) (prompts : list string) (max_tokens : Z)
    (n : nat) (sched : list action) (start_time end_time : Q) :
  let final := run json_loads url model prompts max_tokens sched (init n) in
  joined (fst final) = true ->
  counter_lock (fst final) = None /\
  results_lock (fst final) = None /\
  request_counter (fst final) = Py.len (snd final) /\
  exists m, compute_metrics (results (fst final)) start_time end_time = Ok m /\
    total_requests m = request_counter (fst final) /\
    values_sum (status_code_counts m) = request_counter (fst final).
Proof.
  intros final Hj.
  destruct (run_locks_inv json_loads url model prompts max_tokens n sched)
    as [Hp [Hch Hrs Hrh]]. fold final in Hp, Hch, Hrs, Hrh.
  assert (Hcl : counter_lock (fst final) = None).
  { destruct (counter_lock (fst final)) as [i|] eqn:Hl; [|reflexivity].
    destruct (Hch i eq_refl) as (c & Hi & Hc).
    destruct (joined_outside_sections _ i c Hj Hi) as [Hout _]. congruence. }
  assert (Hrl : results_lock (fst final) = None).
  { destruct (results_lock (fst final)) as [i|] eqn:Hl; [|reflexivity].
    destruct (Hrh i eq_refl) as (c & Hi & Hc).
    destruct (joined_outside_sections _ i c Hj Hi) as [_ Hout]. congruence. }
  pose proof (inv_free _ _ Hp Hcl) as Hcount.
  pose proof (inv_accounted _ _ Hp) as Hacc.
  rewrite (joined_holds_nothing _ Hj), app_nil_r in Hacc.
  assert (Hlen : Py.len (results (fst final)) = Py.len (snd final)).
  { unfold Py.len. rewrite (Permutation_length Hacc). now rewrite length_map. }
  split; [exact Hcl|]. split; [exact Hrl|]. split; [exact Hcount|].
  destruct (results (fst final)) as [|r rs'] eqn:Ers.
  - eexists. split; [apply compute_metrics_empty|]. simpl.
    rewrite Hcount, <- Hlen. split; reflexivity.
  - rewrite <- Ers in *.
    assert (Hne : results (fst final) <> []) by (rewrite Ers; congruence).
    destruct (compute_metrics_nonempty (results (fst final)) start_time
                end_time Hne) as (p50 & p95 & Hm).
    eexists. split; [exact Hm|]. simpl.
    rewrite values_sum_histogram. rewrite Hcount, <- Hlen.
    split; reflexivity.
Qed.

Lemma final_report_counts_every_request_witness :
  let final := run sample_loads "http://localhost:8000" "m" ["p"] 100
                 (sample_schedule 20) (init 2) in
  joined (fst final) = true /\
  request_counter (fst final) = 4 /\
  exists m, compute_metrics (results (fst final)) 0 40 = Ok m /\
    total_requests m = request_counter (fst final) /\
    values_sum (status_code_counts m) = request_counter (fst final).
Proof.
  intros final.
  assert (Hj : joined (fst final) = true) by (vm_compute; reflexivity).
  split; [exact Hj|]. split; [vm_compute; reflexivity|].
  destruct (final_report_counts_every_request sample_loads
              "http://localhost:8000" "m" ["p"] 100 2 (sample_schedule 20)
              0 40 Hj) as (_ & _ & _ & Hm).
  exact Hm.
Defined.

(** * [load_prompts] *)

Lemma lstrip_list_idem (l : list Ascii.ascii) :
  Py.lstrip_list (Py.lstrip_list l) = Py.lstrip_list l.
Proof.
  induction l as [|a l IH]; [reflexivity|].
  simpl. destruct (Py.isspace a) eqn:Ha; [exact IH|].
  simpl. now rewrite Ha.
Qed.

(** A list that does not start with a space is left alone. *)
Lemma lstrip_list_head (a : Ascii.ascii) (l : list Ascii.ascii) :
  Py.isspace a = false -> Py.lstrip_list (a :: l) = a :: l.
Proof. intros Ha. simpl. now rewrite Ha. Qed.

(** Stripping from the left keeps a last character that is not a space. *)
Lemma lstrip_list_snoc (l : list Ascii.ascii) (a : Ascii.ascii) :
  Py.isspace a = false ->
  exists u, Py.lstrip_list (l ++ [a]) = u ++ [a].
Proof.
  intros Ha. induction l as [|b l IH].
  - exists []. simpl. now rewrite Ha.
  - simpl. destruct (Py.isspace b); [exact IH|]. now exists (b :: l).
Qed.

Lemma strip_idem (s : string) : Py.strip (Py.strip s) = Py.strip s.
Proof.
  unfold Py.strip. rewrite String.list_ascii_of_string_of_list_ascii.
  f_equal.
  set (l := Py.lstrip_list (String.list_ascii_of_string s)).
  assert (Hl : l = [] \/ exists a t, l = a :: t /\ Py.isspace a = false).
  { unfold l. induction (String.list_ascii_of_string s) as [|a t IH];
      [now left|].
    simpl. destruct (Py.isspace a) eqn:Ha; [exact IH|]. right. eauto. }
  destruct Hl as [-> | (a & t & -> & Ha)]; [reflexivity|].
  assert (Hrev : rev (a :: t) = rev t ++ [a]) by reflexivity.
  rewrite Hrev.
  destruct (lstrip_list_snoc (rev t) a Ha) as [u Hu].
  assert (Hx : rev (Py.lstrip_list (rev t ++ [a])) = a :: rev u).
  { rewrite Hu, rev_app_distr. reflexivity. }
  rewrite Hx, (lstrip_list_head a (rev u) Ha).
  rewrite <- Hx, rev_involutive, lstrip_list_idem. reflexivity.
Qed.

(** X21. [load_prompts] never returns an empty list, and every prompt it
    returns is non-empty and has no white space at either end; this holds for
    the prompts of a file and for the defaults. *)
Theorem load_prompts_usable (open_lines : string -> res (list string))
    (prompts_file : string) (prompts : list string) :
  fst (load_prompts open_lines prompts_file) = Ok prompts ->
  prompts <> [] /\
  Forall (fun p => p <> "" /\ Py.strip p = p) prompts.
Proof.
  assert (Hdef : DEFAULT_PROMPTS <> [] /\
                 Forall (fun p => p <> "" /\ Py.strip p = p) DEFAULT_PROMPTS).
  { split; [discriminate|].
    repeat constructor; solve [discriminate | vm_compute; reflexivity]. }
  unfold load_prompts.
  destruct (negb (String.eqb prompts_file "")).
  - destruct (open_lines prompts_file) as [lines|e]; [|discriminate].
    destruct (map Py.strip (filter (fun line => Py.strip line <> "") lines))
      as [|p ps] eqn:Hm.
    + simpl. intros [= <-]. exact Hdef.
    + simpl. intros [= <-]. split; [discriminate|]. rewrite <- Hm.
      apply Forall_forall. intros q Hq.
      apply list_elem_of_In, in_map_iff in Hq as (line & <- & Hline).
      apply list_elem_of_In, list_elem_of_filter in Hline as [Hne _].
      split; [exact Hne | apply strip_idem].
  - simpl. intros [= <-]. exact Hdef.
Qed.

Lemma load_prompts_usable_witness :
  let open_lines := fun _ : string =>
    Ok [String (Ascii.ascii_of_nat 10) EmptyString;
        "  Tell me a story. " +:+ String (Ascii.ascii_of_nat 10) EmptyString] in
  fst (load_prompts open_lines "prompts.txt") = Ok ["Tell me a story."] /\
  ["Tell me a story."] <> [] /\
  Forall (fun p => p <> "" /\ Py.strip p = p) ["Tell me a story."].
Proof.
  intros open_lines.
  assert (H : fst (load_prompts open_lines "prompts.txt") =
              Ok ["Tell me a story."]) by (vm_compute; reflexivity).
  split; [exact H|].
  exact (load_prompts_usable open_lines "prompts.txt" _ H).
Defined.

(** X22. A prompts file without any non-blank line, an empty file included,
    gives the default prompts and one warning; the file is not even opened
    when no file name is given. *)
Theorem load_prompts_falls_back (open_lines : string -> res (list string))
    (prompts_file : string) (lines : list string) :
  prompts_file <> "" ->
  open_lines prompts_file = Ok lines ->
  Forall (fun line => Py.strip line = "") lines ->
  load_prompts open_lines prompts_file =
    (Ok DEFAULT_PROMPTS,
     [YELLOW +:+ "[WARN]" +:+ NC +:+ " Prompts file empty, using defaults."]) /\
  forall open_lines', load_prompts open_lines' "" = (Ok DEFAULT_PROMPTS, []).
Proof.
  intros Hname Hopen Hblank. split; [|reflexivity].
  unfold load_prompts. apply String.eqb_neq in Hname. rewrite Hname, Hopen.
  assert (Hnil : filter (fun line => Py.strip line <> "") lines = []).
  { clear -Hblank. induction Hblank as [|l ls Hl _ IH]; [reflexivity|].
    rewrite filter_cons_False; [exact IH|]. intros Hn. now apply Hn. }
  now rewrite Hnil.
Qed.

Lemma load_prompts_falls_back_witness :
  let blank := "   " +:+ String (Ascii.ascii_of_nat 10) EmptyString in
  let open_lines := fun _ : string => Ok [blank; blank] in
  ("prompts.txt" <> "" /\ Forall (fun line => Py.strip line = "") [blank; blank]) /\
  load_prompts open_lines "prompts.txt" =
    (Ok DEFAULT_PROMPTS,
     [YELLOW +:+ "[WARN]" +:+ NC +:+ " Prompts file empty, using defaults."]).
Proof.
  intros blank open_lines.
  assert (Hname : "prompts.txt" <> "") by discriminate.
  assert (Hblank : Forall (fun line => Py.strip line = "") [blank; blank])
    by (repeat constructor).
  split; [split; assumption|].
  exact (proj1 (load_prompts_falls_back open_lines "prompts.txt" [blank; blank]
                  Hname eq_refl Hblank)).
Defined.

(** * [write_json_output] *)

(** The temporary file is never the results file itself. *)
Lemma tmp_path_fresh (path : string) : path +:+ ".tmp" <> path.
Proof.
  induction path as [|a path IH]; [discriminate|].
  simpl. intros [= H]. exact (IH H).
Qed.

(** X23. The results file is replaced atomically: whatever fails, and
    wherever, the file at [path] afterwards is either exactly as it was
    before (and the call raised, printing nothing) or holds the complete
    JSON text (and the call returned, printing one line).  A partly written
    text never shows up under [path]. *)
Theorem write_json_output_atomic (json_dump : output -> string)
    (faults : io_faults) (m : metrics) (results : list RequestResult)
    (path : string) (fs : files) :
  match write_json_output json_dump faults m results path fs with
  | (Ok _, fs', printed) =>
      fs' !! path = Some (json_dump (mkOutput m (map asdict results))) /\
      printed = ["  Results written to: " +:+ path]
  | (Raise _, fs', printed) =>
      fs' !! path = fs !! path /\ printed = []
  end.
Proof.
  pose proof (tmp_path_fresh path) as Hne.
  unfold write_json_output, files in *. cbv zeta.
  destruct (open_fault faults); [now split|].
  destruct (dump_fault faults) as [[n e]|].
  { split; [|reflexivity]. now rewrite !lookup_insert_ne. }
  destruct (replace_fault faults).
  { split; [|reflexivity]. now rewrite !lookup_insert_ne. }
  split; [|reflexivity]. now rewrite lookup_insert_eq.
Qed.

(** X24. [write_json_output] touches two paths only: every other file is
    left as it was, whether the call returns or raises; and when it
    returns, no temporary file is left behind. *)
Theorem write_json_output_frame (json_dump : output -> string)
    (faults : io_faults) (m : metrics) (results : list RequestResult)
    (path other : string) (fs : files) :
  other <> path -> other <> path +:+ ".tmp" ->
  let '(r, fs', _) := write_json_output json_dump faults m results path fs in
  fs' !! other = fs !! other /\
  (forall u, r = Ok u -> fs' !! (path +:+ ".tmp") = None).
Proof.
  intros Hp Ht.
  pose proof (tmp_path_fresh path) as Hne.
  unfold write_json_output, files in *. cbv zeta.
  destruct (open_fault faults); [split; [reflexivity | discriminate]|].
  destruct (dump_fault faults) as [[n e]|].
  { split; [|discriminate]. now rewrite !lookup_insert_ne. }
  destruct (replace_fault faults).
  { split; [|discriminate]. now rewrite !lookup_insert_ne. }
  split.
  - rewrite lookup_insert_ne by auto. rewrite lookup_delete_ne by auto.
    now rewrite !lookup_insert_ne by auto.
  - intros _ _. rewrite lookup_insert_ne by auto. apply lookup_delete_eq.
Qed.

Lemma write_json_output_frame_witness :
  let fs : files := {["notes.txt" := "keep"; "out.json" := "old"]} in
  let faults := mkFaults None None None in
  let json_dump := fun _ : output => "{}" in
  ("notes.txt" <> "out.json" /\ "notes.txt" <> "out.json" +:+ ".tmp") /\
  let '(r, fs', _) :=
    write_json_output json_dump faults
      (mkMetrics 0 0 0 0 ∅ 0 0 0 0 0) [] "out.json" fs in
  fs' !! "notes.txt" = fs !! "notes.txt" /\
  (forall u, r = Ok u -> fs' !! ("out.json" +:+ ".tmp") = None).
Proof.
  intros fs faults json_dump.
  assert (H1 : "notes.txt" <> "out.json") by discriminate.
  assert (H2 : "notes.txt" <> "out.json" +:+ ".tmp") by discriminate.
  split; [split; assumption|].
  exact (write_json_output_frame json_dump faults
           (mkMetrics 0 0 0 0 ∅ 0 0 0 0 0) [] "out.json" "notes.txt" fs H1 H2).
Defined.

(** * [print_summary] *)

(** Two lines that differ at some position are different lines. *)
Ltac differ_at H n :=
  let E := fresh in
  pose proof (f_equal (String.get n) H) as E; lazy in E; discriminate E.

Ltac differ H :=
  exfalso;
  first [ differ_at H 0%nat | differ_at H 2%nat | differ_at H 4%nat
        | differ_at H 7%nat | differ_at H 9%nat | differ_at H 16%nat ].

(** Where a given line can come from in the summary. *)
Lemma print_summary_line (repr_float format_1f : Q -> string) (m : metrics)
    (line : string) :
  In line (print_summary repr_float format_1f m) ->
  String.get 0 line <> Some (Ascii.ascii_of_nat 32) \/
  (String.get 2 line <> Some (Ascii.ascii_of_nat 27) /\
   String.get 2 line <> Some (Ascii.ascii_of_nat 32) /\
   line <> "  Status codes:") \/
  String.get 7 line = Some (Ascii.ascii_of_nat 50) \/
  String.get 9 line = Some (Ascii.ascii_of_nat 70) \/
  (line = "  Status codes:" /\ status_code_counts m <> ∅) \/
  (exists code count,
     status_code_counts m !! code = Some count /\
     line = "    " +:+ code +:+ ": " +:+ Py.str count) \/
  (line = error_rate_warning /\ (5 # 100 < error_rate m)%Q) \/
  (line = completion_warning /\ (stream_completion_rate m < 90 # 100)%Q).
Proof.
  unfold print_summary. rewrite !in_app_iff.
  intros [H|[H|[H|[H|H]]]].
  - cbn [In] in H.
    repeat (destruct H as [<-|H];
            [first [ left; lazy; discriminate
                   | right; left; repeat split; lazy; discriminate
                   | right; right; left; lazy; reflexivity
                   | right; right; right; left; lazy; reflexivity ]|]).
    destruct H.
  - destruct (decide (status_code_counts m = ∅)) as [|Hne]; [destruct H|].
    destruct H as [<-|H]; [do 4 right; left; now split|].
    apply in_app_iff in H as [H|H].
    + apply in_map_iff in H as ([code count] & <- & H).
      do 5 right. left. exists code, count. split; [|reflexivity].
      apply list_elem_of_In in H. rewrite merge_sort_Permutation in H.
      now apply elem_of_map_to_list in H.
    + destruct H as [<-|[]]. left. lazy. discriminate.
  - destruct (decide (5 # 100 < error_rate m)%Q); [|destruct H].
    destruct H as [<-|[]]. do 6 right. left. now split.
  - destruct (decide (stream_completion_rate m < 90 # 100)%Q); [|destruct H].
    destruct H as [<-|[]]. do 7 right. now split.
  - cbn [In] in H. destruct H as [<-|[<-|[]]]; left; lazy; discriminate.
Qed.

Lemma summary_error_warning (repr_float format_1f : Q -> string)
    (m : metrics) :
  In error_rate_warning (print_summary repr_float format_1f m) <->
  (5 # 100 < error_rate m)%Q.
Proof.
  split.
  - intros H. apply print_summary_line in H.
    destruct H as [H|[(H & _)|[H|[H|[(H & _)|[(c & n & _ & H)|[(_ & H)|(H & _)]]]]]]];
      try assumption;
      solve [ exfalso; apply H; lazy; reflexivity
            | lazy in H; discriminate H
            | differ H ].
  - intros H. unfold print_summary. rewrite !in_app_iff.
    right. right. left.
    destruct (decide (5 # 100 < error_rate m)%Q); [now left | contradiction].
Qed.

Lemma summary_completion_warning (repr_float format_1f : Q -> string)
    (m : metrics) :
  In completion_warning (print_summary repr_float format_1f m) <->
  (stream_completion_rate m < 90 # 100)%Q.
Proof.
  split.
  - intros H. apply print_summary_line in H.
    destruct H as [H|[(H & _)|[H|[H|[(H & _)|[(c & n & _ & H)|[(H & _)|(_ & H)]]]]]]];
      try assumption;
      solve [ exfalso; apply H; lazy; reflexivity
            | lazy in H; discriminate H
            | differ H ].
  - intros H. unfold print_summary. rewrite !in_app_iff.
    right. right. right. left.
    destruct (decide (stream_completion_rate m < 90 # 100)%Q);
      [now left | contradiction].
Qed.

Lemma summary_status_header (repr_float format_1f : Q -> string)
    (m : metrics) :
  In "  Status codes:" (print_summary repr_float format_1f m) <->
  status_code_counts m <> ∅.
Proof.
  split.
  - intros H. apply print_summary_line in H.
    destruct H as [H|[(_ & _ & H)|[H|[H|[(_ & H)|[(c & n & _ & H)|[(H & _)|(H & _)]]]]]]];
      try assumption;
      solve [ exfalso; apply H; lazy; reflexivity
            | lazy in H; discriminate H
            | differ H ].
  - intros H. unfold print_summary. rewrite !in_app_iff.
    right. left.
    destruct (decide (status_code_counts m = ∅)); [contradiction | now left].
Qed.

Lemma summary_status_item (repr_float format_1f : Q -> string)
    (m : metrics) (code : string) (count : Z) :
  status_code_counts m !! code = Some count ->
  In ("    " +:+ code +:+ ": " +:+ Py.str count)
     (print_summary repr_float format_1f m).
Proof.
  intros H. unfold print_summary. rewrite !in_app_iff.
  right. left.
  destruct (decide (status_code_counts m = ∅)) as [He|_].
  { rewrite He, lookup_empty in H. discriminate. }
  right. apply in_app_iff. left.
  apply in_map_iff. exists (code, count). split; [reflexivity|].
  apply list_elem_of_In. rewrite merge_sort_Permutation.
  now apply elem_of_map_to_list.
Qed.

(** Comparing a ratio of integers with a fraction. *)
Lemma ratio_mult (f t : Z) :
  0 < t -> (inject_Z f / inject_Z t * inject_Z t == inject_Z f)%Q.
Proof.
  intros Ht. field. intros H0.
  assert (Hq : (0 < inject_Z t)%Q) by (rewrite Zlt_Qlt in Ht; exact Ht).
  rewrite H0 in Hq. now apply Qlt_irrefl in Hq.
Qed.

Lemma ratio_lt_iff (f t a : Z) (b : positive) :
  0 < t ->
  (a # b < inject_Z f / inject_Z t)%Q <-> a * t < f * Zpos b.
Proof.
  intros Ht.
  assert (Hq : (0 < inject_Z t)%Q) by (rewrite Zlt_Qlt in Ht; exact Ht).
  rewrite <- (Qmult_lt_r _ _ (inject_Z t) Hq), ratio_mult by exact Ht.
  unfold Qlt, Qmult, inject_Z. simpl. rewrite Pos.mul_1_r. lia.
Qed.

Lemma ratio_gt_iff (f t a : Z) (b : positive) :
  0 < t ->
  (inject_Z f / inject_Z t < a # b)%Q <-> f * Zpos b < a * t.
Proof.
  intros Ht.
  assert (Hq : (0 < inject_Z t)%Q) by (rewrite Zlt_Qlt in Ht; exact Ht).
  rewrite <- (Qmult_lt_r _ _ (inject_Z t) Hq), ratio_mult by exact Ht.
  unfold Qlt, Qmult, inject_Z. simpl. rewrite Pos.mul_1_r. lia.
Qed.

(** X25. The warnings of the summary against the collected results.  The
    error-rate warning is printed only when more than 5% of the requests
    failed, and always when at least 5.01% did; the completion warning is
    printed only when fewer than 90% of the streams completed or when no
    request was made at all, and always when at most 89.99% completed or no
    request was made. *)
Theorem summary_warnings_sound (repr_float format_1f : Q -> string)
    (rs : list RequestResult) (s e : Q) (m : metrics) :
  compute_metrics rs s e = Ok m ->
  let lines := print_summary repr_float format_1f m in
  let total := Py.len rs in
  let failed := total - Py.len (filter (fun r => error r = "") rs) in
  let completed := Py.len (filter (fun r => stream_completed r = true) rs) in
  (In error_rate_warning lines -> total < 20 * failed) /\
  (0 < total -> 501 * total <= 10000 * failed -> In error_rate_warning lines) /\
  (In completion_warning lines -> rs = [] \/ 10 * completed < 9 * total) /\
  (rs = [] \/ 10000 * completed <= 8999 * total -> In completion_warning lines).
Proof.
  intros Hm lines total failed completed. subst lines.
  rewrite summary_error_warning, summary_completion_warning.
  destruct rs as [|r0 rs0].
  { rewrite compute_metrics_empty in Hm. injection Hm as <-.
    cbn [error_rate stream_completion_rate]. subst total failed completed.
    cbn. repeat split; try (intros; lia); auto. intros H. discriminate H. }
  set (rs := r0 :: rs0) in *.
  assert (Hne : rs <> []) by discriminate.
  assert (Ht : 0 < total).
  { subst total rs. unfold Py.len. simpl. lia. }
  destruct (compute_metrics_nonempty rs s e Hne) as (p50 & p95 & Heq).
  rewrite Heq in Hm. injection Hm as <-.
  cbn [error_rate stream_completion_rate].
  fold total. fold failed. fold completed.
  assert (H5 : (Py.round (5 # 100) 4 == 5 # 100)%Q) by reflexivity.
  assert (H501 : (Py.round (501 # 10000) 4 == 501 # 10000)%Q) by reflexivity.
  assert (H90 : (Py.round (90 # 100) 4 == 90 # 100)%Q) by reflexivity.
  assert (H8999 : (Py.round (8999 # 10000) 4 == 8999 # 10000)%Q)
    by reflexivity.
  repeat split.
  - intros Hw.
    destruct (Z_lt_le_dec total (20 * failed)) as [|Hle]; [assumption|].
    exfalso.
    assert (Hx : (inject_Z failed / inject_Z total <= 5 # 100)%Q).
    { apply Qnot_lt_le. rewrite ratio_lt_iff by exact Ht. lia. }
    apply (round_mono _ _ 4) in Hx. rewrite H5 in Hx.
    exact (Qlt_not_le _ _ Hw Hx).
  - intros _ Hge.
    assert (Hx : (501 # 10000 <= inject_Z failed / inject_Z total)%Q).
    { apply Qnot_lt_le. rewrite ratio_gt_iff by exact Ht. lia. }
    apply (round_mono _ _ 4) in Hx. rewrite H501 in Hx.
    eapply Qlt_le_trans; [|exact Hx]. reflexivity.
  - intros Hw. right.
    destruct (Z_lt_le_dec (10 * completed) (9 * total)) as [|Hle];
      [assumption|].
    exfalso.
    assert (Hx : (90 # 100 <= inject_Z completed / inject_Z total)%Q).
    { apply Qnot_lt_le. rewrite ratio_gt_iff by exact Ht. lia. }
    apply (round_mono _ _ 4) in Hx. rewrite H90 in Hx.
    exact (Qlt_not_le _ _ Hw Hx).
  - intros [Hnil|Hle]; [discriminate Hnil|].
    assert (Hx : (inject_Z completed / inject_Z total <= 8999 # 10000)%Q).
    { apply Qnot_lt_le. rewrite ratio_lt_iff by exact Ht. lia. }
    apply (round_mono _ _ 4) in Hx. rewrite H8999 in Hx.
    eapply Qle_lt_trans; [exact Hx|]. reflexivity.
Qed.

Lemma summary_warnings_sound_witness :
  let rs := [mkRequestResult 0 0 0 1 0 500 "HTTP 500" false JNull] in
  let text := fun _ : Q => "" in
  exists m,
    compute_metrics rs 0 1 = Ok m /\
    In error_rate_warning (print_summary text text m).
Proof.
  intros rs text. eexists. split; [vm_compute; reflexivity|].
  refine (proj1 (proj2 (summary_warnings_sound text text rs 0 1 _ eq_refl))
            _ _); vm_compute; [reflexivity | discriminate].
Defined.

(** The histogram in the report is the one built from the results. *)
Lemma compute_metrics_histogram (rs : list RequestResult) (s e : Q)
    (m : metrics) :
  compute_metrics rs s e = Ok m ->
  status_code_counts m = foldl count_status ∅ rs.
Proof.
  intros Hm. destruct rs as [|r0 rs0].
  - rewrite compute_metrics_empty in Hm. now injection Hm as <-.
  - destruct (compute_metrics_nonempty (r0 :: rs0) s e) as (p50 & p95 & Heq);
      [discriminate|].
    rewrite Heq in Hm. now injection Hm as <-.
Qed.

(** Every status code seen has an entry in the histogram: its number of
    occurrences. *)
Lemma histogram_entry (rs : list RequestResult) (r : RequestResult) :
  In r rs ->
  foldl count_status ∅ rs !! Py.str (status_code r) =
  Some (Py.len (filter (fun r' => status_code r' = status_code r) rs)).
Proof.
  intros Hin.
  assert (Hdom : Py.str (status_code r) ∈ dom (foldl count_status ∅ rs)).
  { rewrite dom_histogram. apply elem_of_union_r, elem_of_list_to_set.
    apply list_elem_of_In. now apply (in_map (fun r => Py.str (status_code r))). }
  apply elem_of_dom in Hdom as [v Hv]. rewrite Hv. f_equal.
  pose proof (lookup_histogram rs ∅ (Py.str (status_code r))) as Hl.
  rewrite Hv, lookup_empty in Hl. simpl in Hl. rewrite Hl, Z.add_0_l.
  f_equal. apply list_filter_iff. intros r'. split.
  - intros H. unfold Py.str in H. now apply (inj pretty) in H.
  - intros H. now rewrite H.
Qed.

(** X26. The status block of the summary against the collected results: the
    block is printed exactly when at least one request was made, and for
    every request made it has the line of that request's status code, with
    the number of requests that ended with this status code. *)
Theorem summary_lists_status_codes (repr_float format_1f : Q -> string)
    (rs : list RequestResult) (s e : Q) (m : metrics) :
  compute_metrics rs s e = Ok m ->
  let lines := print_summary repr_float format_1f m in
  (In "  Status codes:" lines <-> rs <> []) /\
  forall r, In r rs ->
    In (status_line (status_code r)
          (Py.len (filter (fun r' => status_code r' = status_code r) rs)))
       lines.
Proof.
  intros Hm lines. subst lines.
  apply compute_metrics_histogram in Hm.
  split.
  - rewrite summary_status_header, Hm. split.
    + intros Hne ->. now apply Hne.
    + intros Hne He. destruct rs as [|r0 rs0]; [now apply Hne|].
      pose proof (histogram_entry (r0 :: rs0) r0 (or_introl eq_refl)) as Hr.
      rewrite He, lookup_empty in Hr. discriminate.
  - intros r Hin. apply summary_status_item. rewrite Hm.
    now apply histogram_entry.
Qed.

Lemma summary_lists_status_codes_witness :
  let ok := mkRequestResult 0 0 (1 # 2) 1 3 200 "" true (JStr "stop") in
  let ko := mkRequestResult 1 0 0 1 0 503 "HTTP 503" false JNull in
  let rs := [ok; ko; ok] in
  let text := fun _ : Q => "" in
  exists m,
    compute_metrics rs 0 1 = Ok m /\
    In "    200: 2" (print_summary text text m).
Proof.
  intros ok ko rs text. eexists. split; [vm_compute; reflexivity|].
  exact (proj2 (summary_lists_status_codes text text rs 0 1 _ eq_refl)
           ok (or_introl eq_refl)).
Defined.
